(** * TrajecSim post-processing: a shallow embedding of the Python sources

    The development follows the layout of the repository:

    - [Numeric]       numpy helpers shared by the modules ([np.degrees],
                      [np.arctan2], [np.arange], [np.linspace], Python's
                      stable [sorted]);
    - [Binary64]      the binary64 numbers and their order;
    - [WindTable]     [jsbsim_support/param_generator/wind_table.py];
    - [LandingRange]  [landing_range/landing_range.py] and
                      [landing_range/noshiro_sea.py];
    - [Kml]           [util/kml_generator.py];
    - [Summarize]     [util/summarize.py].

    The definitions come first; the vocabulary in which the properties are
    stated and the data of the examples follow; the properties, module by
    module, come last.

    Python floats are modelled by the real numbers of the Standard Library:
    IEEE rounding, infinities and NaN are outside the model.  The one
    exception is the [Time] column of the per-timestep table, which
    [delete_final_point] compares with a rounded difference: it is a column
    of binary64 numbers, the primitive floats of Rocq, and [float_value]
    gives the real number that a finite one stands for.  Python exceptions
    are modelled by an explicit result type. *)

From Stdlib Require Import Floats Reals Lra Lia ZArith List String Ascii.
From stdpp Require Import base list sorting gmap strings.

Open Scope R_scope.
Set Warnings "-inexact-float".

(** ** Python exceptions *)

Inductive exn : Type :=
  | IndexError
  | KeyError
  | ValueError
  | FileNotFoundError
  | NotImplementedError
  | BadZipFile
  | UnicodeDecodeError.

Inductive result (A : Type) : Type :=
  | Ok (a : A)
  | Raise (e : exn).
Arguments Ok {A} a.
Arguments Raise {A} e.

#[export] Instance result_ret : MRet result := fun A a => Ok a.
#[export] Instance result_bind : MBind result := fun A B k m =>
  match m with
  | Ok a => k a
  | Raise e => Raise e
  end.

Definition raises {A : Type} (m : result A) : Prop :=
  exists e, m = Raise e.

(** ** numpy and builtin helpers *)

Module Numeric.

#[export] Instance R_eq_dec : EqDecision R := Req_dec_T.
#[export] Instance Rlt_decision : RelDecision Rlt := Rlt_dec.
#[export] Instance Rle_decision : RelDecision Rle := Rle_dec.
#[export] Instance Rgt_decision : RelDecision Rgt := Rgt_dec.

(** [np.degrees] and [np.radians]. *)
Definition degrees (x : R) : R := x * (180 / PI).
Definition radians (x : R) : R := x * (PI / 180).

(** [np.arctan2(y, x)], the angle of the point [(x, y)] in [(-PI, PI]]. *)
Definition arctan2 (y x : R) : R :=
  if decide (0 < x) then atan (y / x)
  else if decide (x < 0) then
         (if decide (0 <= y) then atan (y / x) + PI else atan (y / x) - PI)
  else if decide (0 < y) then PI / 2
  else if decide (y < 0) then - (PI / 2)
  else 0.

(** [np.arange(start, stop, step)]: [ceil((stop - start) / step)] samples. *)
Definition arange (start stop step : R) : list R :=
  map (fun i => start + INR i * step)
      (seq 0 (Z.to_nat (Zceil ((stop - start) / step)))).

(** [np.linspace(start, stop, num)] with the end point included. *)
Definition linspace (start stop : R) (num : nat) : list R :=
  match num with
  | O => []
  | S O => [start]
  | S div => map (fun i => start + INR i * ((stop - start) / INR div)) (seq 0 num)
  end.

(** [np.logspace(start, stop, num)], base 10. *)
Definition logspace (start stop : R) (num : nat) : list R :=
  map (fun t => Rpower 10 t) (linspace start stop num).

(** Python's [sorted(l, key=key)]: a stable sort, here by insertion from the
    right, so that of two elements with equal keys the one that came first in
    [l] stays first. *)
Fixpoint insert_by {A : Type} (key : A -> R) (x : A) (l : list A) : list A :=
  match l with
  | [] => [x]
  | y :: l' =>
      if decide (key x <= key y) then x :: l else y :: insert_by key x l'
  end.

Definition sorted {A : Type} (key : A -> R) (l : list A) : list A :=
  foldr (insert_by key) [] l.

(** The order that [sorted] establishes. *)
Definition key_le {A : Type} (key : A -> R) (x y : A) : Prop := key x <= key y.

(** Python's [int(x)] on a float: truncation toward zero. *)
Definition int_of_float (x : R) : Z :=
  if decide (0 <= x) then Zfloor x else Zceil x.

(** [zip(a, b, c, strict=False)]: stops at the shortest argument. *)
Fixpoint zip3 {A B C : Type} (a : list A) (b : list B) (c : list C)
  : list (A * B * C) :=
  match a, b, c with
  | x :: a', y :: b', z :: c' => (x, y, z) :: zip3 a' b' c'
  | _, _, _ => []
  end.

End Numeric.
Export Numeric.

(** ** Binary64 *)

(** The primitive floats of Rocq are the binary64 numbers of IEEE 754 with
    the operations of the processor.  [SpecFloat] specifies the operations
    on [spec_float], and [Prim2SF] gives a float as a sign, a mantissa and
    an exponent. *)
Module Binary64.

(** The real number that a finite float stands for, and 0 for the others. *)
Definition SF2R (x : spec_float) : R :=
  match x with
  | S754_finite s m e =>
      let v := match e with
               | Z0 => IZR (Z.pos m)
               | Z.pos p => IZR (Z.pos m * 2 ^ Z.pos p)
               | Z.neg p => IZR (Z.pos m) / IZR (2 ^ Z.pos p)
               end in
      if s then - v else v
  | _ => 0
  end.

Definition float_value (x : float) : R := SF2R (Prim2SF x).
Arguments float_value : simpl never.

(** The greater of two floats that are not NaN; of two equal ones the
    first. *)
Definition float_max (a b : float) : float := if (a <? b)%float then b else a.

(** A key that orders the floats that are not NaN as the comparisons of the
    processor do: by sign, then by exponent, then by mantissa; the two zeros
    share a key. *)
Definition SFkey (x : spec_float) : Z * Z * Z :=
  match x with
  | S754_nan => (0, 0, 0)%Z
  | S754_zero _ => (0, 0, 0)%Z
  | S754_infinity true => (-2, 0, 0)%Z
  | S754_infinity false => (2, 0, 0)%Z
  | S754_finite true m e => (-1, - e, Z.neg m)%Z
  | S754_finite false m e => (1, e, Z.pos m)%Z
  end.

Definition key_lt (a b : Z * Z * Z) : Prop :=
  (a.1.1 < b.1.1
   \/ (a.1.1 = b.1.1
       /\ (a.1.2 < b.1.2 \/ (a.1.2 = b.1.2 /\ a.2 < b.2))))%Z.

Definition fkey (x : float) : Z * Z * Z := SFkey (Prim2SF x).

(** The exponent of the binary64 numbers of magnitude [e]. *)
Definition fexp64 (e : Z) : Z := SpecFloat.fexp prec emax e.

(** The mantissa [m] at the exponent [e], counted in units of the least
    positive float. *)
Definition sval (m e : Z) : Z := (m * 2 ^ (e - emin))%Z.

(** What [binary_round] returns for the rounded mantissa [m] at the
    exponent [e]. *)
Definition round_result (s : bool) (m e : Z) : spec_float :=
  match m with
  | Z0 => S754_zero s
  | Z.pos p =>
      if (e <=? emax - prec)%Z then S754_finite s p e else S754_infinity s
  | Z.neg _ => S754_nan
  end.

End Binary64.
Export Binary64.

(** ** wind_table.py *)

Module WindTable.

(** One entry of the table: [(altitude_m, speed_mps, direction_deg)]. *)
Definition sample : Type := R * R * R.

Definition low_altitudes : list R := arange 0.1 10.1 0.1.
Definition medium_altitudes : list R := logspace 1 3 300.
Definition high_altitudes : list R := arange 1000 10001 100.

(** [sorted(list(set(altitudes_m_list)))]: the order in which a Python set
    is listed is not specified, but after sorting distinct numbers it no
    longer shows, so [remove_dups] stands for the set. *)
Definition altitudes_m_list : list R :=
  sorted id (remove_dups (low_altitudes ++ medium_altitudes ++ high_altitudes)).

(** [(h / ref_altitude) ** wind_power_factor] for every altitude, with the
    first entry overwritten when the first altitude is exactly 0.  [Rpower]
    is the real power function: it agrees with the float one on a positive
    base. *)
Definition power_terms_s (ref_altitude wind_power_factor : R)
    (altitudes_s : list R) : list R :=
  let relative_heights_s := map (fun h => h / ref_altitude) altitudes_s in
  let power_terms_s := map (fun x => Rpower x wind_power_factor) relative_heights_s in
  match altitudes_s with
  | h0 :: _ =>
      if decide (h0 = 0) then
        if decide (wind_power_factor > 0) then <[0%nat := 0]> power_terms_s
        else if decide (wind_power_factor = 0) then <[0%nat := 1]> power_terms_s
        else <[0%nat := 1]> power_terms_s
      else power_terms_s
  | [] => power_terms_s
  end.

(** [ground_wind_dir - 180 if ground_wind_dir > 180 else ground_wind_dir + 180] *)
Definition wind_direction (ground_wind_dir : R) : R :=
  if decide (ground_wind_dir > 180) then ground_wind_dir - 180
  else ground_wind_dir + 180.

Definition generate_wind_table
    (ground_wind_dir ground_wind_speed ref_altitude wind_power_factor : R)
  : list sample :=
  let altitudes_s := altitudes_m_list in
  let wind_speeds_s :=
    map (fun p => ground_wind_speed * p)
        (power_terms_s ref_altitude wind_power_factor altitudes_s) in
  let wind_directions_list :=
    replicate (length altitudes_m_list) (wind_direction ground_wind_dir) in
  zip3 altitudes_s wind_speeds_s wind_directions_list.

(** The reading of "x modulo 360" used by the specification. *)
Definition mod360 (x : R) : R := x - 360 * IZR (Zfloor (x / 360)).

End WindTable.

(** ** landing_range.py and noshiro_sea.py *)

Module LandingRange.

(** A planar point [(x, y)]; shapely is handed [(longitude, latitude)]. *)
Definition xy : Type := R * R.

(** The operations of shapely that the evaluator calls.  shapely is an
    external library: its operations are an interface here. *)
Class Shapely : Type := {
  geometry : Type;
  (** [Polygon(shell)] *)
  Polygon : list xy -> geometry;
  (** [geom.boundary] *)
  boundary : geometry -> geometry;
  (** [geom.contains(Point(x, y))] *)
  contains : geometry -> xy -> bool;
  (** [nearest_points(geom, Point(x, y))[0]], the nearest point on [geom] *)
  nearest_points : geometry -> xy -> xy
}.

(** [geopy.distance.geodesic((lat1, lon1), (lat2, lon2)).meters] *)
Class Geopy : Type := {
  geodesic : R * R -> R * R -> R
}.

(** What the evaluator relies on, as its comments say: a point that the
    polygon does not contain is as near to the polygon as to its boundary;
    and a distance is not negative. *)
Definition nearest_outside_on_boundary `{Shapely} : Prop :=
  forall (shell : list xy) (p : xy),
    contains (Polygon shell) p = false ->
    nearest_points (Polygon shell) p = nearest_points (boundary (Polygon shell)) p.

Definition geodesic_nonneg `{Geopy} : Prop :=
  forall p q : R * R, 0 <= geodesic p q.

(** The interface of [landing_range.py]: an object with one method. *)
Record LandingRange : Type := {
  landing_range : R -> R -> result R
}.

(** The base class: [raise NotImplementedError]. *)
Definition LandingRange_base : LandingRange :=
  {| landing_range := fun _ _ => Raise NotImplementedError |}.

(** [(latitude, longitude)] vertices of the safety zone. *)
Definition POLYGON_COORDINATES : list (R * R) :=
  [ (40.26149300294178, 140.0094791592612);
    (40.2642602688727, 139.9932398872506);
    (40.26460197870949, 139.9909318144494);
    (40.26479085228271, 139.987341377515);
    (40.26433616899444, 139.9822728225093);
    (40.26299626432305, 139.9772825248559);
    (40.26199299246836, 139.9749085824227);
    (40.26086444600114, 139.9728365038179);
    (40.25942370332147, 139.9707401748826);
    (40.25768975453263, 139.9687716646912);
    (40.25623515050533, 139.9674723780254);
    (40.2542151641483, 139.9660514425467);
    (40.25321298436799, 139.9655135448727);
    (40.25217003129539, 139.9650383050235);
    (40.25108666779969, 139.9646461338833);
    (40.24955206871581, 139.9642513745098);
    (40.24773454477712, 139.9640056563258);
    (40.24539983694682, 139.9640511121102);
    (40.24374397618987, 139.9643229542895);
    (40.2425575973181, 139.9646499711443);
    (40.24051201896022, 139.9654720128462);
    (40.2397071808194, 139.9658925750851);
    (40.23887443488726, 139.9663943856586);
    (40.23809058315737, 139.9669364758578);
    (40.23665050758729, 139.9680927149552);
    (40.23501881430268, 139.9697393127221);
    (40.23327859167702, 139.9720099153484);
    (40.2318726711675, 139.9743989893189);
    (40.23049586884894, 139.9776040232665);
    (40.22954585557037, 139.9808509371636);
    (40.22916933193805, 139.9828861110256);
    (40.22887535311624, 139.9845918728399);
    (40.22617410359279, 140.0002466848887) ].

Section NoshiroSea.
Context `{Shapely} `{Geopy}.

(** [self.polygon = Polygon([(lon, lat) for lat, lon in coordinates])];
    the class fixes [coordinates] to [POLYGON_COORDINATES]. *)
Definition make_polygon (coordinates : list (R * R)) : geometry :=
  Polygon (map (fun '(lat, lon) => (lon, lat)) coordinates).

(** The body of [NoshiroSea.landing_range], for the polygon of [self]. *)
Definition polygon_landing_range (polygon : geometry)
    (latitude longitude : R) : R :=
  let point : xy := (longitude, latitude) in
  let is_inside := contains polygon point in
  let target_geometry := if is_inside then boundary polygon else polygon in
  let nearest_p_on_geom := nearest_points target_geometry point in
  let distance :=
    geodesic (latitude, longitude) (nearest_p_on_geom.2, nearest_p_on_geom.1) in
  if is_inside then distance else - distance.

Definition NoshiroSea_landing_range (latitude longitude : R) : R :=
  polygon_landing_range (make_polygon POLYGON_COORDINATES) latitude longitude.

Definition NoshiroSea : LandingRange :=
  {| landing_range := fun latitude longitude =>
       Ok (NoshiroSea_landing_range latitude longitude) |}.

End NoshiroSea.

(** A planar reading of the shapely operations and a flat-earth distance:
    an instance of the two interfaces on which the evaluator can be run. *)
Module Planar.

Inductive geom : Type :=
  | Area (shell : list xy)
  | Ring (shell : list xy).

Definition dist2 (p q : xy) : R := (p.1 - q.1) ^ 2 + (p.2 - q.2) ^ 2.

Definition clamp01 (t : R) : R :=
  if decide (t < 0) then 0 else if decide (1 < t) then 1 else t.

Definition nearest_on_segment (a b p : xy) : xy :=
  let d := dist2 a b in
  if decide (d = 0) then a
  else
    let t := clamp01 (((p.1 - a.1) * (b.1 - a.1) + (p.2 - a.2) * (b.2 - a.2)) / d) in
    (a.1 + t * (b.1 - a.1), a.2 + t * (b.2 - a.2)).

Definition edges (shell : list xy) : list (xy * xy) :=
  zip shell (drop 1 shell ++ take 1 shell).

Definition nearest_on_ring (shell : list xy) (p : xy) : xy :=
  foldr (fun e best =>
           let q := nearest_on_segment e.1 e.2 p in
           if decide (dist2 p q <= dist2 p best) then q else best)
        (hd p shell) (edges shell).

(** Does the ray from [p] toward larger [x] cross the edge [a b]? *)
Definition crosses (p : xy) (e : xy * xy) : bool :=
  let '(a, b) := e in
  xorb (bool_decide (a.2 > p.2)) (bool_decide (b.2 > p.2))
  && bool_decide (p.1 < (b.1 - a.1) * (p.2 - a.2) / (b.2 - a.2) + a.1).

Definition on_ring (shell : list xy) (p : xy) : bool :=
  bool_decide (dist2 p (nearest_on_ring shell p) = 0).

Definition interior (shell : list xy) (p : xy) : bool :=
  Nat.odd (length (filter (fun e => crosses p e = true) (edges shell)))
  && negb (on_ring shell p).

#[export] Instance planar_shapely : Shapely := {|
  geometry := geom;
  Polygon := Area;
  boundary := fun g => match g with Area s | Ring s => Ring s end;
  contains := fun g p =>
    match g with Area s => interior s p | Ring s => on_ring s p end;
  nearest_points := fun g p =>
    match g with
    | Area s => if interior s p then p else nearest_on_ring s p
    | Ring s => nearest_on_ring s p
    end
|}.

(** Metres per degree on a flat earth. *)
#[export] Instance flat_geopy : Geopy := {|
  geodesic := fun p q => 111320 * sqrt (dist2 p q)
|}.

End Planar.

End LandingRange.

(** ** kml_generator.py *)

Module Kml.

(** *** merge_kmz_to_kml *)

(** The content of a text file, one character per element. *)
Definition text : Type := list ascii.

Definition DOCUMENT_OPEN : text := list_ascii_of_string "<Document".
Definition DOCUMENT_CLOSE : text := list_ascii_of_string "</Document>".
Definition GT : ascii := ">"%char.

(** Does [s] start with [p]? *)
Fixpoint starts_with (p s : text) : bool :=
  match p, s with
  | [], _ => true
  | c :: p', d :: s' => if decide (c = d) then starts_with p' s' else false
  | _ :: _, [] => false
  end.

(** The position of the first [c] in [s]. *)
Fixpoint index_of (c : ascii) (s : text) : option nat :=
  match s with
  | [] => None
  | d :: s' => if decide (c = d) then Some 0%nat else S <$> index_of c s'
  end.

(** The last position at which [p] occurs in [s]. *)
Fixpoint rfind (p s : text) : option nat :=
  match s with
  | [] => if starts_with p [] then Some 0%nat else None
  | _ :: s' =>
      match rfind p s' with
      | Some k => Some (S k)
      | None => if starts_with p s then Some 0%nat else None
      end
  end.

(** The pattern of the source, with [re.DOTALL], tried at the start of [s]:
    the literal [<Document], any characters other than [>], a [>], a greedy
    group of any characters, and the literal [</Document>].  The result is
    the span of the group.  After [<Document] the character class can only
    stop at the first [>]; the greedy group then runs to the last
    [</Document>] behind it. *)
Definition match_here (s : text) : option (nat * nat) :=
  if starts_with DOCUMENT_OPEN s then
    j ← index_of GT (drop (length DOCUMENT_OPEN) s);
    let start1 := (length DOCUMENT_OPEN + j + 1)%nat in
    k ← rfind DOCUMENT_CLOSE (drop start1 s);
    Some (start1, (start1 + k)%nat)
  else None.

(** [re.search]: the match at the leftmost position that has one. *)
Fixpoint search_from (pos : nat) (s : text) : option (nat * nat) :=
  match match_here s with
  | Some (a, b) => Some ((pos + a)%nat, (pos + b)%nat)
  | None =>
      match s with
      | [] => None
      | _ :: s' => search_from (S pos) s'
      end
  end.

(** [(m.start(1), m.end(1))] of [re.search(pattern, content, re.DOTALL)]. *)
Definition re_search_Document (content : text) : option (nat * nat) :=
  search_from 0 content.

(** [content[a:b]] *)
Definition slice (a b : nat) (content : text) : text :=
  take (b - a) (drop a content).

Inductive file : Type :=
  | KmlFile (content : text)
  | KmzFile (members : gmap string text).

Abbreviation filesystem := (gmap string file).

(** [open(path, "r", encoding="utf-8").read()] *)
Definition read_text (fs : filesystem) (path : string) : result text :=
  match fs !! path with
  | None => Raise FileNotFoundError
  | Some (KmlFile content) => Ok content
  | Some (KmzFile _) => Raise UnicodeDecodeError
  end.

(** [zipfile.ZipFile(path).open(member).read().decode("utf-8")] *)
Definition read_member (fs : filesystem) (path member : string) : result text :=
  match fs !! path with
  | None => Raise FileNotFoundError
  | Some (KmlFile _) => Raise BadZipFile
  | Some (KmzFile members) =>
      match members !! member with
      | None => Raise KeyError
      | Some content => Ok content
      end
  end.

Definition merge_kmz_to_kml (fs : filesystem)
    (existing_kml_path kmz_path output_path : string) : result filesystem :=
  existing_content ← read_text fs existing_kml_path;
  kmz_content ← read_member fs kmz_path "doc.kml";
  match re_search_Document existing_content, re_search_Document kmz_content with
  | Some (start1, end1), Some (start2, end2) =>
      let existing_doc_content := slice start1 end1 existing_content in
      let kmz_doc_content := slice start2 end2 kmz_content in
      let kml_header := take start1 existing_content in
      let kml_footer := drop end1 existing_content in
      let merged_content :=
        kml_header ++ existing_doc_content ++ kmz_doc_content ++ kml_footer in
      Ok (<[output_path := KmlFile merged_content]> fs)
  | _, _ =>
      Ok (<[output_path := KmlFile existing_content]> fs)
  end.

(** *** KMLGenerator *)

Definition rgb : Type := Z * Z * Z.

Inductive AltitudeMode : Type :=
  | clamptoground
  | relativetoground.

(** A coordinate tuple as the caller built it: two or three floats. *)
Definition coord : Type := list R.

(** The features of a [simplekml.Kml] document with the attributes this
    module sets; [None] is an attribute left at its default. *)
Record Point : Type := {
  pnt_name : string;
  pnt_coords : list (R * R);
  pnt_iconstyle_color : option rgb;
  (** [icon.href = None] and [scale = 0.0] *)
  pnt_icon_hidden : bool
}.

Record LineString : Type := {
  ls_name : string;
  ls_coords : list coord;
  ls_linestyle_color : option rgb;
  ls_linestyle_width : option Z;
  ls_altitudemode : option AltitudeMode
}.

Record Polygon : Type := {
  pol_name : string;
  pol_outerboundaryis : list (R * R);
  pol_altitudemode : option AltitudeMode;
  pol_linestyle_color : option rgb;
  pol_linestyle_width : option Z;
  pol_polystyle_fill : option Z;
  pol_polystyle_outline : option Z
}.

Inductive feature : Type :=
  | FPoint (p : Point)
  | FLineString (l : LineString)
  | FPolygon (g : Polygon).

(** [self.kml]: the features in the order of their creation. *)
Definition KMLGenerator : Type := list feature.

Definition init : KMLGenerator := [].

Definition DEFAULT_LINE_WIDTH : Z := 3.

(** [tuple(map(int, (1 - t_i) * start + t_i * end)) for t_i in linspace(0, 1, n)] *)
Definition create_color_gradient (start_color end_color : rgb) (n : nat)
  : list rgb :=
  let '(sr, sg, sb) := start_color in
  let '(er, eg, eb) := end_color in
  map (fun t_i =>
         (int_of_float ((1 - t_i) * IZR sr + t_i * IZR er),
          int_of_float ((1 - t_i) * IZR sg + t_i * IZR eg),
          int_of_float ((1 - t_i) * IZR sb + t_i * IZR eb)))
      (linspace 0 1 n).

Definition add_point (self : KMLGenerator) (point : R * R) (name : string)
    (color : option rgb) : KMLGenerator :=
  self ++ [FPoint {| pnt_name := name;
                     pnt_coords := [(point.1, point.2)];
                     pnt_iconstyle_color := color;
                     pnt_icon_hidden := bool_decide (color = None) |}].

(** [add_line] creates the line string and sets its coordinates, colour and
    width before it looks at [points[0]]: when that raises, the document has
    already grown by a line string without altitude mode. *)
Definition add_line (self : KMLGenerator) (points : list coord) (name : string)
    (color : rgb) (width : Z) : KMLGenerator * result unit :=
  let ls := {| ls_name := name;
               ls_coords := points;
               ls_linestyle_color := Some color;
               ls_linestyle_width := Some width;
               ls_altitudemode := None |} in
  match points with
  | [] => (self ++ [FLineString ls], Raise IndexError)
  | p0 :: _ =>
      let mode := if decide (length p0 = 3%nat)
                  then relativetoground else clamptoground in
      (self ++ [FLineString {| ls_name := name;
                               ls_coords := points;
                               ls_linestyle_color := Some color;
                               ls_linestyle_width := Some width;
                               ls_altitudemode := Some mode |}],
       Ok tt)
  end.

(** [sum(p[k] for p in points) / len(points)] *)
Definition mean (xs : list R) : R := foldr Rplus 0 xs / INR (length xs).

Definition angle_from_center (center_x center_y : R) (point : R * R) : R :=
  let dx := point.1 - center_x in
  let dy := point.2 - center_y in
  arctan2 dy dx.

Definition sort_points (points : list (R * R)) : list (R * R) :=
  if decide (length points < 3)%nat then points
  else
    let center_x := mean (map fst points) in
    let center_y := mean (map snd points) in
    sorted (angle_from_center center_x center_y) points.

Definition generate_groundpoint_polygon (self : KMLGenerator)
    (points : list (R * R)) (name : string) (color : rgb) (width : Z)
  : KMLGenerator :=
  let sorted_points := sort_points points in
  self ++ [FPolygon {|
    pol_name := name;
    pol_outerboundaryis :=
      match sorted_points with
      | [] => []
      | first :: _ => sorted_points ++ [first]
      end;
    pol_altitudemode := Some clamptoground;
    pol_linestyle_color := Some color;
    pol_linestyle_width := Some width;
    pol_polystyle_fill := Some 0%Z;
    pol_polystyle_outline := Some 1%Z |}].

(** A row of a group: the columns that the generator reads. *)
Record landed : Type := {
  landed_longitude : R;
  landed_latitude : R
}.

(** A [groupby] object: the groups in order, each with its key (as the
    f-string prints it) and its rows. *)
Definition grouped : Type := list (string * list landed).

(** The body of the loop for the group at position [i]. *)
Definition emit_group (point_output : bool) (color_gradient : list rgb)
    (self : KMLGenerator) (i : nat) (group : string * list landed)
  : KMLGenerator :=
  let '(group_key, group_df) := group in
  let points := map (fun r => (landed_longitude r, landed_latitude r)) group_df in
  let current_color :=
    match color_gradient with
    | [] => (255, 0, 0)%Z
    | _ => nth i color_gradient (255, 0, 0)%Z
    end in
  let self1 :=
    if point_output && bool_decide (length points <= 3)%nat
    then foldl (fun k point => add_point k point "" (Some current_color)) self points
    else self in
  if decide (3 < length points)%nat
  then generate_groundpoint_polygon self1 points group_key current_color
                                    DEFAULT_LINE_WIDTH
  else self1.

Fixpoint emit_groups (point_output : bool) (color_gradient : list rgb)
    (self : KMLGenerator) (i : nat) (groups : grouped) : KMLGenerator :=
  match groups with
  | [] => self
  | group :: rest =>
      emit_groups point_output color_gradient
                  (emit_group point_output color_gradient self i group)
                  (S i) rest
  end.

Definition generate_grouped_points_polygons (self : KMLGenerator)
    (grouped_df : grouped) (point_output : bool) : KMLGenerator :=
  let num_groups := length grouped_df in
  let color_gradient :=
    if decide (0 < num_groups)%nat
    then create_color_gradient (248, 112, 128)%Z (247, 93, 139)%Z num_groups
    else [] in
  emit_groups point_output color_gradient self 0 grouped_df.

End Kml.

(** ** summarize.py *)

Module Summarize.
Import LandingRange.

Definition VGUST : R := 9.0.

(** *** The per-timestep table *)

(** The columns that the simulator writes.  [Time] is kept in binary64. *)
Record timestep : Type := {
  Time : float;
  Latitude : R;
  Longitude : R;
  Altitude : R;
  Angle_of_Attack : R;
  Angle_of_Sideslip : R;
  True_Velocity : R;
  Ground_Velocity : R;
  X_Acceleration : R;
  Y_Acceleration : R;
  Z_Acceleration : R;
  Dynamic_Pressure : R;
  Thrust : R;
  Mach : R;
  Pitch : R;
  Roll : R;
  Yaw : R;
  parachute_deploy_gain : R
}.

(** The columns that [calculate_aoa] appends. *)
Record aoa_columns : Type := {
  Angle_of_Attack_total : R;
  Angle_of_Attack_gust : R;
  True_Velocity_gust : R
}.

(** A record of the file that the later passes read: the simulator's columns
    and the appended ones.  Every record carries every column: a file that
    lacks one (a [KeyError] in pandas) is not a value of this type. *)
Record record : Type := {
  raw : timestep;
  aoa : aoa_columns;
  Acceleration : R
}.

(** The files under the output directory, by path. *)
Abbreviation csv_files := (gmap string (list record)).

(** [pd.read_csv] *)
Definition read_csv (fs : csv_files) (path : string) : result (list record) :=
  match fs !! path with
  | None => Raise FileNotFoundError
  | Some table => Ok table
  end.

(** The row of the run table that names a run. *)
Record output_info : Type := {
  name : string;
  raw_output_file : string;
  launch_elevation : R;
  launch_launcher_length : R;
  launch_pitch : R
}.

(** *** pandas series *)

(** A series: values with their index labels (row numbers of the frame
    they were taken from). *)
Definition series : Type := list (nat * R).

Definition column {A : Type} (f : A -> R) (df : list A) : series :=
  imap (fun i r => (i, f r)) df.

(** [s.idxmin()], [s.idxmax()]: the label of the first least (greatest)
    value; [ValueError] on an empty series. *)
Definition idxmin (s : series) : result nat :=
  match s with
  | [] => Raise ValueError
  | c :: s' =>
      Ok (foldl (fun best c => if decide (c.2 < best.2) then c else best) c s').1
  end.

Definition idxmax (s : series) : result nat :=
  match s with
  | [] => Raise ValueError
  | c :: s' =>
      Ok (foldl (fun best c => if decide (best.2 < c.2) then c else best) c s').1
  end.

(** [s.max()]: [None] stands for the NaN of an empty series. *)
Definition series_max (xs : list R) : option R :=
  match xs with
  | [] => None
  | x :: xs' => Some (foldl Rmax x xs')
  end.

(** [s.max()] on a float64 column: the NaN cells are skipped, and the
    maximum is NaN when no cell is left. *)
Definition float_series_max (xs : list float) : float :=
  match filter (fun x => is_nan x = false) xs with
  | [] => nan
  | x :: xs' => foldl float_max x xs'
  end.

(** [df.loc[idx]] on a frame with the default index. *)
Definition loc {A : Type} (df : list A) (idx : nat) : result A :=
  match df !! idx with
  | Some r => Ok r
  | None => Raise KeyError
  end.

(** [df.iloc[0]] and [s.iloc[-1]] *)
Definition iloc_first {A : Type} (df : list A) : result A :=
  match df with
  | [] => Raise IndexError
  | r :: _ => Ok r
  end.

Definition iloc_last {A : Type} (df : list A) : result A :=
  match last df with
  | None => Raise IndexError
  | Some r => Ok r
  end.

(** *** calculate_aoa, delete_final_point, calculate_acceleration *)

Definition aoa_of (r : timestep) : aoa_columns :=
  let alpha := radians (Angle_of_Attack r) in
  let beta := radians (Angle_of_Sideslip r) in
  let vtrue := True_Velocity r in
  let vgust := VGUST in
  {| Angle_of_Attack_total := degrees (acos (cos alpha * cos beta));
     Angle_of_Attack_gust :=
       degrees (acos (cos beta
                      * (vtrue * cos alpha - vgust * sin beta)
                      / sqrt (vtrue * vtrue + vgust * vgust * cos beta * cos beta)));
     True_Velocity_gust := vtrue + vgust * sin beta |}.

Definition calculate_aoa (fs : csv_files) (row : output_info) : result csv_files :=
  let output_file := raw_output_file row in
  output_df ← read_csv fs output_file;
  let combined_df :=
    map (fun r => {| raw := raw r; aoa := aoa_of (raw r);
                     Acceleration := Acceleration r |}) output_df in
  Ok (<[output_file := combined_df]> fs).

(** [output_df[output_df["Time"] < output_df["Time"].max() - 0.01]]: the
    difference is the binary64 one, rounded to the nearest float, and the
    comparison that of the floats, false whenever a side is NaN. *)
Definition without_final_point (output_df : list record) : list record :=
  let time_max := float_series_max (map (fun r => Time (raw r)) output_df) in
  filter (fun r => Time (raw r) <? time_max - 0.01)%float output_df.

Definition delete_final_point (fs : csv_files) (row : output_info)
  : result csv_files :=
  let output_file := raw_output_file row in
  output_df ← read_csv fs output_file;
  Ok (<[output_file := without_final_point output_df]> fs).

Definition calculate_acceleration (fs : csv_files) (row : output_info)
  : result csv_files :=
  let output_file := raw_output_file row in
  output_df ← read_csv fs output_file;
  let with_acceleration :=
    map (fun r =>
           {| raw := raw r; aoa := aoa r;
              Acceleration :=
                sqrt (X_Acceleration (raw r) ^ 2 + Y_Acceleration (raw r) ^ 2
                      + Z_Acceleration (raw r) ^ 2) |}) output_df in
  Ok (<[output_file := with_acceleration]> fs).

(** *** Result frames *)

Inductive cell : Type :=
  | Num (x : R)
  | Str (s : string).

(** [pd.DataFrame(rows)] for a list of dicts: one association list per row,
    in the order of the keys. *)
Definition frame : Type := list (list (string * cell)).

(** [pd.DataFrame({"landing_range": [0]})] *)
Definition landing_range_zero : frame := [[("landing_range"%string, Num 0)]].

(** *** calculate_with_geopy *)

Record pos_diff : Type := {
  distance_m : R;
  lat_diff_m : R;
  lon_diff_m : R;
  lat_diff_degrees : R;
  lon_diff_degrees : R
}.

Definition calculate_with_geopy `{Geopy} (lat1 lon1 lat2 lon2 : R) : pos_diff :=
  let distance := geodesic (lat1, lon1) (lat2, lon2) in
  let lat_distance := geodesic (lat1, lon1) (lat2, lon1) in
  let lat_distance := if decide (lat2 < lat1) then - lat_distance else lat_distance in
  let lon_distance := geodesic (lat1, lon1) (lat1, lon2) in
  let lon_distance := if decide (lon2 < lon1) then - lon_distance else lon_distance in
  {| distance_m := distance;
     lat_diff_m := lat_distance;
     lon_diff_m := lon_distance;
     lat_diff_degrees := lat2 - lat1;
     lon_diff_degrees := lon2 - lon1 |}.

(** *** get_extrema_analysis *)

(** A record of [df]: the renamed columns and the four computed ones. *)
Record derived : Type := {
  rec : record;
  wind_speed : R;
  temperature : R;
  pressure : R;
  qbar_atan_aoa : R
}.

(** The short names of the renamed columns.  The extrema analysis only
    orders the times and copies them, which it does on the numbers that the
    floats hold. *)
Definition time (d : derived) : R := float_value (Time (raw (rec d))).
Definition latitude (d : derived) : R := Latitude (raw (rec d)).
Definition longitude (d : derived) : R := Longitude (raw (rec d)).
Definition altitude (d : derived) : R := Altitude (raw (rec d)).
Definition angle_of_attack_gust (d : derived) : R := Angle_of_Attack_gust (aoa (rec d)).
Definition angle_of_attack_total (d : derived) : R := Angle_of_Attack_total (aoa (rec d)).
Definition acceleration (d : derived) : R := Acceleration (rec d).
Definition thrust (d : derived) : R := Thrust (raw (rec d)).
Definition true_velocity (d : derived) : R := True_Velocity (raw (rec d)).
Definition ground_velocity (d : derived) : R := Ground_Velocity (raw (rec d)).
Definition dynamic_pressure (d : derived) : R := Dynamic_Pressure (raw (rec d)).

Definition calculate_temperature (altitude : R) : R :=
  15.0 - 6.5 * (altitude / 1000.0).

Definition calculate_pressure (altitude : R) : R :=
  1013.25 * Rpower ((288.15 - 0.0065 * altitude) / 288.15) 5.256.

Definition derive (r : record) : derived :=
  {| rec := r;
     wind_speed := Rabs (True_Velocity (raw r) - Ground_Velocity (raw r));
     temperature := calculate_temperature (Altitude (raw r));
     pressure := calculate_pressure (Altitude (raw r));
     qbar_atan_aoa :=
       Dynamic_Pressure (raw r) * degrees (Angle_of_Attack_gust (aoa r)) |}.

(** [df] after the columns have been added. *)
Definition derived_frame (output_df : list record) : list derived :=
  map derive output_df.

(** [elevation + launcher_length * sin(pitch * pi / 180)] *)
Definition launch_clear_height (output_info_df : output_info) : R :=
  launch_elevation output_info_df
  + launch_launcher_length output_info_df
    * sin (launch_pitch output_info_df * PI / 180).

(** An entry of [extrema_points]. *)
Record extremum : Type := {
  extrema_name : string;
  index : nat;
  value : R;
  metric : string
}.

(** The entry for the record at [idx], with the value of column [f]. *)
Definition extremum_at (df : list derived) (extrema_name : string) (idx : nat)
    (f : derived -> R) (metric : string) : result extremum :=
  r ← loc df idx;
  Ok {| extrema_name := extrema_name; index := idx; value := f r;
        metric := metric |}.

(** The extrema in the order of their insertion, and the record of the
    initial point, whose position the rows are measured from. *)
Definition find_extrema (df : list derived) (launch_clear_height : R)
  : result (derived * list extremum) :=
  initial_point_idx ← idxmin (column time df);
  e0 ← extremum_at df "initial_point" initial_point_idx altitude "altitude";
  initial_point ← loc df initial_point_idx;
  launch_clear_idx ←
    idxmin (map (fun c => (c.1, time c.2))
                (filter (fun c => altitude c.2 > launch_clear_height)
                        (imap (fun i r => (i, r)) df)));
  e1 ← extremum_at df "launch_clear" launch_clear_idx altitude "altitude";
  max_speed_idx ← idxmax (column true_velocity df);
  e2 ← extremum_at df "max_speed" max_speed_idx true_velocity "true_velocity";
  max_qbar_idx ← idxmax (column dynamic_pressure df);
  e3 ← extremum_at df "max_dynamic_pressure" max_qbar_idx dynamic_pressure
                   "dynamic_pressure";
  max_accel_idx ← idxmax (column acceleration df);
  e4 ← extremum_at df "max_acceleration" max_accel_idx acceleration "acceleration";
  max_qbar_atan_idx ← idxmax (column qbar_atan_aoa df);
  e5 ← extremum_at df "max_qbar_atan_aoa" max_qbar_atan_idx qbar_atan_aoa
                   "qbar_atan_aoa";
  max_altitude_idx ← idxmax (column altitude df);
  e6 ← extremum_at df "max_altitude" max_altitude_idx altitude "altitude";
  final_point_idx ← idxmax (column time df);
  e7 ← extremum_at df "final_point" final_point_idx altitude "altitude";
  parachute_deploy_idx ←
    idxmax (column (fun d => parachute_deploy_gain (raw (rec d))) df);
  e8 ← extremum_at df "parachute_deploy" parachute_deploy_idx
                   (fun d => parachute_deploy_gain (raw (rec d)))
                   "parachute_deploy_gain";
  max_thrust_idx ← idxmax (column thrust df);
  e9 ← extremum_at df "max_thrust" max_thrust_idx thrust "thrust";
  Ok (initial_point, [e0; e1; e2; e3; e4; e5; e6; e7; e8; e9]).

(** The registry of evaluators by site key.  The module that fills it
    ([launch_sites.py]) is not part of the sources at hand: the registry is
    an argument. *)
Abbreviation registry := (gmap string LandingRange).

Definition extrema_row `{Geopy} (landing_range_obj : LandingRange)
    (df : list derived) (initial_point_lat initial_point_long : R)
    (e : extremum) : result (list (string * cell)) :=
  r ← loc df (index e);
  let pos_diff :=
    calculate_with_geopy initial_point_lat initial_point_long
                         (latitude r) (longitude r) in
  let range_m := distance_m pos_diff in
  let lat_m := lat_diff_m pos_diff in
  let long_m := lon_diff_m pos_diff in
  lr ← landing_range landing_range_obj (latitude r) (longitude r);
  Ok [ ("extrema_type", Str (extrema_name e));
       ("extrema_value", Num (value e));
       ("time", Num (time r));
       ("thrust", Num (thrust r));
       ("acceleration", Num (acceleration r));
       ("dynamic_pressure", Num (dynamic_pressure r));
       ("angle_of_attack_gust", Num (angle_of_attack_gust r));
       ("angle_of_attack_total", Num (angle_of_attack_total r));
       ("true_velocity", Num (true_velocity r));
       ("altitude", Num (altitude r));
       ("temperature", Num (temperature r));
       ("pressure", Num (pressure r));
       ("latitude", Num (latitude r));
       ("longitude", Num (longitude r));
       ("lat_m", Num lat_m);
       ("long_m", Num long_m);
       ("range_m", Num range_m);
       ("landing_range", Num lr) ]%string.

(** [[f(x) for x in xs]] where [f] may raise. *)
Fixpoint for_each {A B : Type} (f : A -> result B) (xs : list A)
  : result (list B) :=
  match xs with
  | [] => Ok []
  | x :: xs' => y ← f x; ys ← for_each f xs'; Ok (y :: ys)
  end.

Definition get_extrema_analysis `{Geopy} (LAUNCH_SITES : registry)
    (fs : csv_files) (output_info_df : output_info)
    (landing_range_script : string) : result frame :=
  match LAUNCH_SITES !! landing_range_script with
  | None => Ok landing_range_zero
  | Some landing_range_obj =>
      output_df ← read_csv fs (raw_output_file output_info_df);
      let df := derived_frame output_df in
      let launch_clear_height := launch_clear_height output_info_df in
      found ← find_extrema df launch_clear_height;
      let '(initial_point, extrema_points) := found in
      for_each (extrema_row landing_range_obj df
                            (latitude initial_point) (longitude initial_point))
               extrema_points
  end.

(** *** summarize_output_info_df *)

Record summary_row : Type := {
  max_altitude : option R;
  max_speed : option R;
  landed_latitude : R;
  landed_longitude : R;
  max_pressure : option R;
  launch_clear_speed : R
}.

(** The documents written under [output_dir / "flight_path"], by path. *)
Abbreviation kml_files := (gmap string (list Kml.feature)).

Definition kml_path (output_dir name : string) : string :=
  (output_dir +:+ "/flight_path/" +:+ name +:+ ".kml")%string.

Definition summarize_output_info_df (fs : csv_files) (kmls : kml_files)
    (output_info_df : output_info) (output_dir : string)
  : result (summary_row * kml_files) :=
  output_df ← read_csv fs (raw_output_file output_info_df);
  let launch_clear_height := launch_clear_height output_info_df in
  first_clear ←
    iloc_first (filter (fun r => Altitude (raw r) > launch_clear_height) output_df);
  let launch_clear_speed := True_Velocity (raw first_clear) in
  let max_altitude := series_max (map (fun r => Altitude (raw r)) output_df) in
  let max_speed := series_max (map (fun r => True_Velocity (raw r)) output_df) in
  let max_pressure := series_max (map (fun r => Dynamic_Pressure (raw r)) output_df) in
  landed_lat ← iloc_last (map (fun r => Latitude (raw r)) output_df);
  landed_long ← iloc_last (map (fun r => Longitude (raw r)) output_df);
  let kml_generator := Kml.init in
  let coordinates_3d :=
    map (fun r => [Longitude (raw r); Latitude (raw r); Altitude (raw r)]) output_df in
  let coordinates_2d :=
    map (fun r => [Longitude (raw r); Latitude (raw r)]) output_df in
  let '(kml_generator, line_3d) :=
    Kml.add_line kml_generator coordinates_3d "flight_path" (255, 0, 0)%Z 3%Z in
  _ ← line_3d;
  let '(kml_generator, line_2d) :=
    Kml.add_line kml_generator coordinates_2d "flight_path" (0, 255, 0)%Z 3%Z in
  _ ← line_2d;
  let kmls := <[kml_path output_dir (name output_info_df) := kml_generator]> kmls in
  Ok ({| max_altitude := max_altitude;
         max_speed := max_speed;
         landed_latitude := landed_lat;
         landed_longitude := landed_long;
         max_pressure := max_pressure;
         launch_clear_speed := launch_clear_speed |}, kmls).

(** *** generate_final_points_dataframe *)

Definition generate_final_points_dataframe (LAUNCH_SITES : registry)
    (grouped_df : Kml.grouped) (landing_range_script : string) : result frame :=
  match LAUNCH_SITES !! landing_range_script with
  | None => Ok landing_range_zero
  | Some landing_range_obj =>
      groups ←
        for_each (fun group : string * list Kml.landed =>
          let '(group_key, group_df) := group in
          for_each (fun row =>
            lr ← landing_range landing_range_obj
                   (Kml.landed_latitude row) (Kml.landed_longitude row);
            Ok [ ("group_key", Str group_key);
                 ("landed_longitude", Num (Kml.landed_longitude row));
                 ("landed_latitude", Num (Kml.landed_latitude row));
                 ("landing_range", Num lr) ]%string) group_df) grouped_df;
      Ok (concat groups)
  end.

(** *** generate_landing_range_table *)

(** A column label of the run table: a plain name or a tuple of names. *)
Inductive label : Type :=
  | Name (s : string)
  | Tuple (parts : list string).

#[export] Instance label_eq_dec : EqDecision label.
Proof. solve_decision. Defined.

(** A row of the run table, by column label. *)
Definition run_row : Type := list (label * R).

Record run_table : Type := {
  columns : list label;
  rows : list run_row
}.

(** [row[col]] *)
Definition row_get (row : run_row) (col : label) : result R :=
  match list_find (fun c => c.1 = col) row with
  | Some (_, (_, v)) => Ok v
  | None => Raise KeyError
  end.

(** [needle in s] for two strings. *)
Fixpoint occurs_in (needle s : Kml.text) : bool :=
  Kml.starts_with needle s
  || match s with
     | [] => false
     | _ :: s' => occurs_in needle s'
     end.

(** [[col for col in columns if isinstance(col, tuple) and needle in col[1]]],
    where [col[1]] of a tuple with fewer than two parts raises. *)
Fixpoint tuple_columns (needle : string) (columns : list label)
  : result (list label) :=
  match columns with
  | [] => Ok []
  | Name _ :: rest => tuple_columns needle rest
  | Tuple parts :: rest =>
      match parts !! 1%nat with
      | None => Raise IndexError
      | Some part =>
          cols ← tuple_columns needle rest;
          if occurs_in (list_ascii_of_string needle) (list_ascii_of_string part)
          then Ok (Tuple parts :: cols) else Ok cols
      end
  end.

(** The result of [pivot_table]: the sorted distinct row and column keys
    and the cells, [None] where no run has that pair of keys. *)
Record pivot : Type := {
  pivot_index : list R;
  pivot_columns : list R;
  pivot_cells : list (list (option R))
}.

(** [pd.DataFrame()] *)
Definition empty_frame : pivot :=
  {| pivot_index := []; pivot_columns := []; pivot_cells := [] |}.

(** [table_df.pivot_table(index="wind_speed", columns="wind_dir",
    values="landing_range", aggfunc="mean")]; a frame built from no rows has
    no columns, and the lookup of the keys raises. *)
Definition pivot_table (table_data : list (R * R * R)) : result pivot :=
  match table_data with
  | [] => Raise KeyError
  | _ =>
      let speeds := sorted id (remove_dups (map (fun t => t.1.1) table_data)) in
      let dirs := sorted id (remove_dups (map (fun t => t.1.2) table_data)) in
      Ok {| pivot_index := speeds;
            pivot_columns := dirs;
            pivot_cells :=
              map (fun s =>
                map (fun d =>
                  match filter (fun t => t.1.1 = s /\ t.1.2 = d) table_data with
                  | [] => None
                  | found => Some (Kml.mean (map snd found))
                  end) dirs) speeds |}
  end.

Definition generate_landing_range_table (LAUNCH_SITES : registry)
    (simulation_df : run_table) (landing_range_script : string) : result pivot :=
  match LAUNCH_SITES !! landing_range_script with
  | None => Ok empty_frame
  | Some landing_range_obj =>
      ground_wind_speed_cols ← tuple_columns "ground_wind_speed" (columns simulation_df);
      ground_wind_dir_cols ← tuple_columns "ground_wind_dir" (columns simulation_df);
      match ground_wind_speed_cols, ground_wind_dir_cols with
      | speed_col :: _, dir_col :: _ =>
          table_data ←
            for_each (fun row =>
              wind_speed ← row_get row speed_col;
              wind_dir ← row_get row dir_col;
              landed_lat ← row_get row (Name "landed_latitude");
              landed_lon ← row_get row (Name "landed_longitude");
              lr ← landing_range landing_range_obj landed_lat landed_lon;
              Ok (wind_speed, wind_dir, lr)) (rows simulation_df);
          pivot_table table_data
      | _, _ => Ok empty_frame
      end
  end.

End Summarize.

(** * Vocabulary of the properties and example data *)

Module KmlSpec.
Import Kml.

(** The point that [add_point] adds for a landed point of a group. *)
Definition point_feature (color : rgb) (point : R * R) : feature :=
  FPoint {| pnt_name := "";
            pnt_coords := [point];
            pnt_iconstyle_color := Some color;
            pnt_icon_hidden := false |}.

Definition landed_points (group_df : list landed) : list (R * R) :=
  map (fun r => (landed_longitude r, landed_latitude r)) group_df.

(** What the generator emits for one group: a point per landed point for a
    group of at most three, one polygon whose ring runs through the landed
    points and returns to its first vertex for a larger group. *)
Definition group_rendering (group : string * list landed)
    (out : list feature) : Prop :=
  let points := landed_points group.2 in
  ((length points <= 3)%nat ->
   exists color, out = map (point_feature color) points)
  /\ ((3 < length points)%nat ->
      exists (g : Polygon) (first : R * R) (rest : list (R * R)),
        out = [FPolygon g]
        /\ pol_name g = group.1
        /\ pol_outerboundaryis g = (first :: rest) ++ [first]
        /\ first :: rest ≡ₚ points).

(** What the generator emits for one group when point output is disabled. *)
Definition polygons_only (group : string * list landed)
    (out : list feature) : Prop :=
  let points := landed_points group.2 in
  ((length points <= 3)%nat -> out = [])
  /\ ((3 < length points)%nat ->
      exists (g : Polygon) (first : R * R) (rest : list (R * R)),
        out = [FPolygon g]
        /\ pol_name g = group.1
        /\ pol_outerboundaryis g = (first :: rest) ++ [first]
        /\ first :: rest ≡ₚ points).


(** A group of three landed points, and the same group after a fourth
    run. *)
Definition three_landed : list landed :=
  [ {| landed_longitude := 140.00; landed_latitude := 40.24 |};
    {| landed_longitude := 139.99; landed_latitude := 40.25 |};
    {| landed_longitude := 139.98; landed_latitude := 40.24 |} ].

Definition four_landed : list landed :=
  three_landed ++ [ {| landed_longitude := 139.99; landed_latitude := 40.23 |} ].

(** Two small documents and the files that hold them. *)
Definition doc_a : text :=
  list_ascii_of_string "<kml><Document><a/></Document></kml>".
Definition doc_b : text :=
  list_ascii_of_string "<kml><Document id='b'><b/></Document></kml>".
Definition two_files : filesystem :=
  {[ "a.kml"%string := KmlFile doc_a;
     "b.kmz"%string := KmzFile {[ "doc.kml"%string := doc_b ]} ]}.

(** A document with two Document elements, and one without any. *)
Definition doc_two : text :=
  list_ascii_of_string
    "<kml><Document><a/></Document><Document><c/></Document></kml>".
Definition doc_plain : text := list_ascii_of_string "<kml><Folder/></kml>".
Definition plain_files : filesystem :=
  {[ "a.kml"%string := KmlFile doc_a;
     "b.kmz"%string := KmzFile {[ "doc.kml"%string := doc_plain ]} ]}.

End KmlSpec.

Module SummarizeSpec.
Import LandingRange Planar Summarize.

(** [m] is the greatest [Time] of the table, the NaN cells left aside. *)
Definition greatest_time (table : list record) (m : float) : Prop :=
  is_nan m = false
  /\ (exists r, r ∈ table /\ Time (raw r) = m)
  /\ forall r, r ∈ table -> is_nan (Time (raw r)) = false ->
                (Time (raw r) <=? m)%float = true.

(** The record [d] at index [i] has the least (greatest) value of column
    [f] in the frame. *)
Definition argmin {A : Type} (f : A -> R) (df : list A) (i : nat) (d : A) : Prop :=
  df !! i = Some d /\ forall d', d' ∈ df -> f d <= f d'.

Definition argmax {A : Type} (f : A -> R) (df : list A) (i : nat) (d : A) : Prop :=
  df !! i = Some d /\ forall d', d' ∈ df -> f d' <= f d.

(** The record [d] at index [i] is above the threshold [h], and no record
    above the threshold has an earlier time. *)
Definition first_clear (h : R) (df : list derived) (i : nat) (d : derived)
  : Prop :=
  df !! i = Some d /\ altitude d > h
  /\ forall d', d' ∈ df -> altitude d' > h -> time d <= time d'.

Definition entry (extrema_name : string) (index : nat) (value : R)
    (metric : string) : extremum :=
  {| extrema_name := extrema_name; index := index; value := value;
     metric := metric |}.

(** The names of the extrema, in the order of their insertion. *)
Definition extrema_names : list string :=
  [ "initial_point"; "launch_clear"; "max_speed"; "max_dynamic_pressure";
    "max_acceleration"; "max_qbar_atan_aoa"; "max_altitude"; "final_point";
    "parachute_deploy"; "max_thrust" ]%string.

(** The columns of a row of the extrema table. *)
Definition extrema_columns : list string :=
  [ "extrema_type"; "extrema_value"; "time"; "thrust"; "acceleration";
    "dynamic_pressure"; "angle_of_attack_gust"; "angle_of_attack_total";
    "true_velocity"; "altitude"; "temperature"; "pressure"; "latitude";
    "longitude"; "lat_m"; "long_m"; "range_m"; "landing_range" ]%string.

(** What an entry of [extrema_points] says about the frame, by its name. *)
Definition described (h : R) (df : list derived) (e : extremum) : Prop :=
  exists d,
    df !! index e = Some d
    /\ (extrema_name e = "initial_point"%string ->
        value e = altitude d /\ forall d', d' ∈ df -> time d <= time d')
    /\ (extrema_name e = "launch_clear"%string ->
        value e = altitude d /\ altitude d > h
        /\ forall d', d' ∈ df -> altitude d' > h -> time d <= time d')
    /\ (extrema_name e = "max_speed"%string ->
        value e = true_velocity d
        /\ forall d', d' ∈ df -> true_velocity d' <= true_velocity d)
    /\ (extrema_name e = "max_dynamic_pressure"%string ->
        value e = dynamic_pressure d
        /\ forall d', d' ∈ df -> dynamic_pressure d' <= dynamic_pressure d)
    /\ (extrema_name e = "max_acceleration"%string ->
        value e = acceleration d
        /\ forall d', d' ∈ df -> acceleration d' <= acceleration d)
    /\ (extrema_name e = "max_qbar_atan_aoa"%string ->
        value e = qbar_atan_aoa d
        /\ forall d', d' ∈ df -> qbar_atan_aoa d' <= qbar_atan_aoa d)
    /\ (extrema_name e = "max_altitude"%string ->
        value e = altitude d /\ forall d', d' ∈ df -> altitude d' <= altitude d)
    /\ (extrema_name e = "final_point"%string ->
        value e = altitude d /\ forall d', d' ∈ df -> time d' <= time d)
    /\ (extrema_name e = "parachute_deploy"%string ->
        value e = parachute_deploy_gain (raw (rec d))
        /\ forall d', d' ∈ df ->
                      parachute_deploy_gain (raw (rec d'))
                      <= parachute_deploy_gain (raw (rec d)))
    /\ (extrema_name e = "max_thrust"%string ->
        value e = thrust d /\ forall d', d' ∈ df -> thrust d' <= thrust d).

(** *** Records for the examples *)

(** A record at time [t] and altitude [alt], flying at [vtrue] under dynamic
    pressure [q], with every other simulator column at zero and the appended
    columns as the two passes compute them. *)
Definition step (t : float) (alt vtrue q : R) : timestep :=
  {| Time := t; Latitude := 40.24; Longitude := 140.01; Altitude := alt;
     Angle_of_Attack := 0; Angle_of_Sideslip := 0;
     True_Velocity := vtrue; Ground_Velocity := vtrue;
     X_Acceleration := 0; Y_Acceleration := 0; Z_Acceleration := 0;
     Dynamic_Pressure := q; Thrust := 0; Mach := 0;
     Pitch := 0; Roll := 0; Yaw := 0; parachute_deploy_gain := 0 |}.

Definition processed (r : timestep) : record :=
  {| raw := r; aoa := aoa_of r; Acceleration := 0 |}.

Definition run : output_info :=
  {| name := "run0"; raw_output_file := "run0.csv";
     launch_elevation := 10; launch_launcher_length := 5; launch_pitch := 80 |}.

(** Four records of a run that ends at time 1. *)
Definition four_steps : list record :=
  [ processed (step 0 0 0 0); processed (step 0.5 40 30 500);
    processed (step 0.995 2 12 80); processed (step 1 0 10 60) ].

(** A record on the ground at time [t]; a table sampled every hundredth of
    a second, and one that ends at time 1. *)
Definition at_time (t : float) : record := processed (step t 0 0 0).
Definition hundredths : list record :=
  [ at_time 0.05; at_time 0.06; at_time 0.07 ].
Definition to_one : list record := [ at_time 0.5; at_time 0.99; at_time 1 ].

(** Three records of a run that never leaves the rail. *)
Definition on_the_rail : list record :=
  [ processed (step 0 10 0 0); processed (step 0.1 10 0 0);
    processed (step 0.2 10 0 0) ].

(** A row of the run table that holds the four cells that the loop of
    [generate_landing_range_table] reads. *)
Definition complete_row (speed_col dir_col : label) (row : run_row) : Prop :=
  exists ws wd lat lon,
    row_get row speed_col = Ok ws
    /\ row_get row dir_col = Ok wd
    /\ row_get row (Name "landed_latitude") = Ok lat
    /\ row_get row (Name "landed_longitude") = Ok lon.

(** A run table of two runs in the same wind. *)
Definition wind_speed_col : label := Tuple ["wind"; "ground_wind_speed"]%string.
Definition wind_dir_col : label := Tuple ["wind"; "ground_wind_dir"]%string.

Definition two_runs : run_table :=
  {| columns := [ wind_speed_col; wind_dir_col;
                  Name "landed_latitude"; Name "landed_longitude" ];
     rows := [ [ (wind_speed_col, 5); (wind_dir_col, 30);
                 (Name "landed_latitude", 40.24);
                 (Name "landed_longitude", 139.99) ];
               [ (wind_speed_col, 5); (wind_dir_col, 30);
                 (Name "landed_latitude", 40.25);
                 (Name "landed_longitude", 139.98) ] ] |}.

(** A registry with one site, evaluated on the planar instance. *)
Definition one_site : registry := {[ "noshiro_sea"%string := NoshiroSea ]}.

End SummarizeSpec.

(** * Properties *)

(** ** Sorting *)

Section SortedFacts.
Context {A : Type} (key : A -> R).

Lemma insert_by_perm x l : insert_by key x l ≡ₚ x :: l.
Proof.
  induction l as [|y l IH]; simpl; [done|].
  destruct (decide (key x <= key y)); [done|].
  rewrite IH. apply Permutation_swap.
Qed.

Lemma sorted_perm l : sorted key l ≡ₚ l.
Proof.
  induction l as [|x l IH]; simpl; [done|].
  rewrite insert_by_perm. by rewrite IH.
Qed.

Lemma sorted_length l : length (sorted key l) = length l.
Proof. apply Permutation_length, sorted_perm. Qed.

Lemma insert_by_sorted x l :
  StronglySorted (key_le key) l -> StronglySorted (key_le key) (insert_by key x l).
Proof.
  induction 1 as [|y l Hs IH Hy]; simpl.
  - repeat constructor.
  - destruct (decide (key x <= key y)) as [Hle|Hgt].
    + constructor; [by constructor|].
      constructor; [exact Hle|].
      eapply Forall_impl; [exact Hy|].
      intros z Hz. unfold key_le in *. lra.
    + constructor; [exact IH|].
      rewrite insert_by_perm. constructor; [|exact Hy].
      unfold key_le. lra.
Qed.

Lemma sorted_sorted l : StronglySorted (key_le key) (sorted key l).
Proof.
  induction l as [|x l IH]; simpl; [constructor|].
  by apply insert_by_sorted.
Qed.

End SortedFacts.

(** Sorting distinct numbers by themselves gives a strictly increasing list:
    the shape of [sorted(list(set(l)))]. *)
Lemma sorted_NoDup_strict (l : list R) :
  NoDup l -> StronglySorted Rlt (sorted id l).
Proof.
  intros Hnd.
  assert (Hnd' : NoDup (sorted id l)) by (by rewrite sorted_perm).
  pose proof (sorted_sorted id l) as Hs.
  induction Hs as [|x k Hs IH Hx]; [constructor|].
  apply NoDup_cons in Hnd' as [Hnotin Hnd'].
  constructor; [by apply IH|].
  apply Forall_forall. intros y Hy.
  rewrite Forall_forall in Hx. specialize (Hx y Hy).
  unfold key_le, id in Hx.
  destruct (Req_dec_T x y) as [->|Hne]; [done|lra].
Qed.

Lemma StronglySorted_lookup_lt {A : Type} (R : relation A) (l : list A) :
  StronglySorted R l ->
  forall (i j : nat) (a b : A),
    (i < j)%nat -> l !! i = Some a -> l !! j = Some b -> R a b.
Proof.
  induction 1 as [|x l Hs IH Hx]; intros i j a b Hij Hi Hj; [done|].
  destruct j as [|j]; [lia|]. simpl in Hj.
  destruct i as [|i]; simpl in Hi.
  - injection Hi as <-. rewrite Forall_forall in Hx.
    apply Hx. by eapply list_elem_of_lookup_2.
  - eapply (IH i j); [lia|done..].
Qed.

Lemma zip3_altitudes {A B C : Type} (a : list A) (b : list B) (c : list C) :
  length b = length a -> length c = length a ->
  map (fun s => s.1.1) (zip3 a b c) = a.
Proof.
  revert b c. induction a as [|x a IH]; intros [|y b] [|z c] Hb Hc;
    simpl in *; try done.
  f_equal. apply IH; lia.
Qed.

Lemma zip3_third {A B C : Type} (a : list A) (b : list B) (c : list C)
    (P : C -> Prop) :
  Forall P c -> Forall (fun s => P s.2) (zip3 a b c).
Proof.
  intros Hc. revert a b.
  induction Hc as [|z c Hz Hc IH]; intros [|x a] [|y b]; simpl;
    try constructor; auto.
Qed.

Lemma zip3_length {A B C : Type} (a : list A) (b : list B) (c : list C) :
  length b = length a -> length c = length a ->
  length (zip3 a b c) = length a.
Proof.
  intros Hb Hc. rewrite <- (zip3_altitudes a b c Hb Hc) at 2.
  by rewrite length_map.
Qed.

(** ** wind_table.py *)

Module WindTableFacts.
Import WindTable.

Lemma power_terms_length ref_altitude wind_power_factor altitudes_s :
  length (power_terms_s ref_altitude wind_power_factor altitudes_s)
  = length altitudes_s.
Proof.
  unfold power_terms_s. destruct altitudes_s as [|h0 t]; [done|].
  repeat case_decide; rewrite ?length_insert, !length_map; done.
Qed.

Lemma table_altitudes dir speed ref_altitude alpha :
  map (fun s : sample => s.1.1) (generate_wind_table dir speed ref_altitude alpha)
  = altitudes_m_list.
Proof.
  unfold generate_wind_table. apply zip3_altitudes.
  - by rewrite length_map, power_terms_length.
  - by rewrite length_replicate.
Qed.

Lemma low_altitudes_length : length low_altitudes = 100%nat.
Proof.
  unfold low_altitudes, arange. rewrite length_map, length_seq.
  rewrite (Zceil_eq 100); [done|]. lra.
Qed.

Lemma altitudes_not_empty : altitudes_m_list <> [].
Proof.
  unfold altitudes_m_list. intros Hnil.
  assert (Hin : 0.1 + INR 0 * 0.1 ∈ low_altitudes).
  { unfold low_altitudes, arange. apply list_elem_of_fmap. exists 0%nat.
    split; [done|]. apply elem_of_seq. rewrite (Zceil_eq 100); [lia|lra]. }
  assert (Hin' : 0.1 + INR 0 * 0.1
                 ∈ sorted id (remove_dups (low_altitudes ++ medium_altitudes
                                           ++ high_altitudes))).
  { rewrite sorted_perm. apply elem_of_remove_dups.
    apply elem_of_app. by left. }
  rewrite Hnil in Hin'. by apply elem_of_nil in Hin'.
Qed.

Lemma table_not_empty dir speed ref_altitude alpha :
  generate_wind_table dir speed ref_altitude alpha <> [].
Proof.
  intros Hnil. apply altitudes_not_empty.
  by rewrite <- (table_altitudes dir speed ref_altitude alpha), Hnil.
Qed.

(** C6.  For every input, the altitudes of the table that
    [generate_wind_table] returns are strictly increasing from the first
    sample to the last: each one is less than all the later ones, so no two
    are equal. *)
Theorem generate_wind_table_altitudes_increasing
    (ground_wind_dir ground_wind_speed ref_altitude wind_power_factor : R) :
  let altitudes :=
    map (fun s : sample => s.1.1)
        (generate_wind_table ground_wind_dir ground_wind_speed ref_altitude
                             wind_power_factor) in
  StronglySorted Rlt altitudes /\ NoDup altitudes /\ altitudes <> [].
Proof.
  simpl. rewrite table_altitudes. split; [|split].
  - apply sorted_NoDup_strict, NoDup_remove_dups.
  - unfold altitudes_m_list. rewrite sorted_perm. apply NoDup_remove_dups.
  - apply altitudes_not_empty.
Qed.

Lemma mod360_small (x : R) : 0 <= x < 360 -> mod360 x = x.
Proof.
  intros Hx. unfold mod360. rewrite (Zfloor_eq 0); lra.
Qed.

Lemma mod360_wrap (x : R) : 360 <= x < 720 -> mod360 x = x - 360.
Proof.
  intros Hx. unfold mod360. rewrite (Zfloor_eq 1); lra.
Qed.

Lemma table_directions dir speed ref_altitude alpha :
  Forall (fun s : sample => s.2 = wind_direction dir)
         (generate_wind_table dir speed ref_altitude alpha).
Proof.
  unfold generate_wind_table.
  apply (zip3_third _ _ _ (fun d => d = wind_direction dir)).
  apply Forall_replicate. reflexivity.
Qed.

(** C4, as the code has it.  For every ground wind direction in [0, 360)
    every sample of the table carries the same direction.  When the ground
    direction is not exactly 180, that direction is the reciprocal bearing,
    the ground direction plus 180 modulo 360, and lies in [0, 360).  At
    exactly 180 the test [ground_wind_dir > 180] fails and every sample
    carries 360. *)
Theorem generate_wind_table_direction
    (ground_wind_dir ground_wind_speed ref_altitude wind_power_factor : R) :
  0 <= ground_wind_dir < 360 ->
  Forall (fun s : sample => s.2 = wind_direction ground_wind_dir)
         (generate_wind_table ground_wind_dir ground_wind_speed ref_altitude
                              wind_power_factor)
  /\ (ground_wind_dir <> 180 ->
      wind_direction ground_wind_dir = mod360 (ground_wind_dir + 180)
      /\ 0 <= wind_direction ground_wind_dir < 360)
  /\ (ground_wind_dir = 180 -> wind_direction ground_wind_dir = 360).
Proof.
  intros Hdir. split; [apply table_directions|]. split.
  - intros Hne. unfold wind_direction. case_decide.
    + rewrite mod360_wrap; lra.
    + rewrite mod360_small; lra.
  - intros ->. unfold wind_direction. case_decide; lra.
Qed.

(** The scenario of the specification: a ground wind from 30 degrees gives a
    table whose entries all carry 210. *)
Lemma generate_wind_table_direction_witness :
  Forall (fun s : sample => s.2 = 210) (generate_wind_table 30 10 10 0.14).
Proof.
  destruct (generate_wind_table_direction 30 10 10 0.14) as (Hall & Hne & _);
    [lra|].
  destruct Hne as [Heq _]; [lra|].
  eapply Forall_impl; [exact Hall|].
  intros s ->. rewrite Heq. rewrite mod360_small; lra.
Defined.

(** C4 as the specification states it fails for a ground wind from exactly
    180 degrees: the samples carry 360, which is neither 0, the reciprocal
    bearing modulo 360, nor inside [0, 360). *)
Lemma generate_wind_table_direction_180 :
  ~ (forall ground_wind_dir ground_wind_speed ref_altitude wind_power_factor,
       0 <= ground_wind_dir < 360 ->
       Forall (fun s : sample =>
                 s.2 = mod360 (ground_wind_dir + 180) /\ 0 <= s.2 < 360)
              (generate_wind_table ground_wind_dir ground_wind_speed
                                   ref_altitude wind_power_factor)).
Proof.
  intros Hspec. specialize (Hspec 180 10 10 0.14).
  pose proof (table_directions 180 10 10 0.14) as Hdirs.
  pose proof (table_not_empty 180 10 10 0.14) as Hne.
  destruct (generate_wind_table 180 10 10 0.14) as [|s t]; [done|].
  assert (Hs : s.2 = mod360 (180 + 180) /\ 0 <= s.2 < 360).
  { assert (H : 0 <= 180 < 360) by lra.
    specialize (Hspec H). by inversion Hspec. }
  inversion Hdirs as [|? ? Hd _]; subst.
  unfold wind_direction in Hd. case_decide; lra.
Qed.

(** *** The altitudes and the power law *)

Lemma INR_below (i n : nat) : (i < S n)%nat -> 0 <= INR i <= INR n.
Proof.
  intros Hi. split; [apply pos_INR|apply le_INR; lia].
Qed.

Lemma altitudes_elem (h : R) :
  h ∈ altitudes_m_list
  <-> h ∈ low_altitudes \/ h ∈ medium_altitudes \/ h ∈ high_altitudes.
Proof.
  unfold altitudes_m_list.
  rewrite sorted_perm, elem_of_remove_dups, !elem_of_app. tauto.
Qed.

Lemma arange_elem (start stop step h : R) (n : nat) :
  Zceil ((stop - start) / step) = Z.of_nat n ->
  h ∈ arange start stop step
  <-> exists i, (i < n)%nat /\ h = start + INR i * step.
Proof.
  intros Hn. unfold arange. rewrite Hn, Nat2Z.id, list_elem_of_fmap.
  split; intros (i & H1 & H2); exists i.
  - apply elem_of_seq in H2. split; [lia|done].
  - split; [done|]. apply elem_of_seq. lia.
Qed.

Lemma linspace_elem (start stop t : R) (n : nat) :
  t ∈ linspace start stop (S (S n))
  <-> exists i, (i < S (S n))%nat
                /\ t = start + INR i * ((stop - start) / INR (S n)).
Proof.
  unfold linspace. rewrite list_elem_of_fmap.
  split; intros (i & H1 & H2); exists i.
  - apply elem_of_seq in H2. split; [lia|done].
  - split; [done|]. apply elem_of_seq. lia.
Qed.

Lemma low_altitudes_elem (h : R) :
  h ∈ low_altitudes <-> exists i, (i < 100)%nat /\ h = 0.1 + INR i * 0.1.
Proof.
  apply arange_elem. change (Z.of_nat 100) with 100%Z. apply Zceil_eq. lra.
Qed.

Lemma high_altitudes_elem (h : R) :
  h ∈ high_altitudes <-> exists i, (i < 91)%nat /\ h = 1000 + INR i * 100.
Proof.
  apply arange_elem. change (Z.of_nat 91) with 91%Z. apply Zceil_eq. lra.
Qed.

Lemma medium_altitudes_elem (h : R) :
  h ∈ medium_altitudes
  <-> exists i, (i < 300)%nat /\ h = Rpower 10 (1 + INR i * ((3 - 1) / 299)).
Proof.
  unfold medium_altitudes, logspace. rewrite list_elem_of_fmap.
  replace 299 with (INR 299) by (rewrite INR_IZR_INZ; reflexivity).
  split.
  - intros (t & -> & Ht). apply (linspace_elem 1 3 t 298) in Ht as (i & Hi & ->).
    by exists i.
  - intros (i & Hi & ->). eexists. split; [reflexivity|].
    apply (linspace_elem 1 3 _ 298). by exists i.
Qed.

Lemma Rpower_10_1 : Rpower 10 1 = 10.
Proof. apply Rpower_1. lra. Qed.

Lemma Rpower_10_3 : Rpower 10 3 = 1000.
Proof.
  replace 3 with (INR 3) by (rewrite INR_IZR_INZ; reflexivity).
  rewrite Rpower_pow by lra. simpl. lra.
Qed.

Lemma altitudes_bounds : Forall (fun h => 0.1 <= h <= 10000) altitudes_m_list.
Proof.
  apply Forall_forall. intros h Hh.
  apply altitudes_elem in Hh as [Hh|[Hh|Hh]].
  - apply low_altitudes_elem in Hh as (i & Hi & ->).
    pose proof (INR_below i 99 Hi) as Hb.
    replace (INR 99) with 99 in Hb by (rewrite INR_IZR_INZ; reflexivity). lra.
  - apply medium_altitudes_elem in Hh as (i & Hi & ->).
    pose proof (INR_below i 299 Hi) as Hb.
    replace (INR 299) with 299 in Hb by (rewrite INR_IZR_INZ; reflexivity).
    assert (Hlo : Rpower 10 1 <= Rpower 10 (1 + INR i * ((3 - 1) / 299)))
      by (apply Rle_Rpower; lra).
    assert (Hhi : Rpower 10 (1 + INR i * ((3 - 1) / 299)) <= Rpower 10 3)
      by (apply Rle_Rpower; lra).
    rewrite Rpower_10_1 in Hlo. rewrite Rpower_10_3 in Hhi. lra.
  - apply high_altitudes_elem in Hh as (i & Hi & ->).
    pose proof (INR_below i 90 Hi) as Hb.
    replace (INR 90) with 90 in Hb by (rewrite INR_IZR_INZ; reflexivity). lra.
Qed.

Lemma power_terms_plain (ref_altitude wind_power_factor : R) (altitudes_s : list R) :
  Forall (fun h => h <> 0) altitudes_s ->
  power_terms_s ref_altitude wind_power_factor altitudes_s
  = map (fun h => Rpower (h / ref_altitude) wind_power_factor) altitudes_s.
Proof.
  intros Hnz. unfold power_terms_s. destruct Hnz as [|h0 t Hh0 _]; [done|].
  rewrite decide_False by done. by rewrite <- list_fmap_compose.
Qed.

Lemma zip3_map_replicate {A B C : Type} (l : list A) (f : A -> B) (c : C) :
  zip3 l (map f l) (replicate (length l) c) = map (fun a => (a, f a, c)) l.
Proof.
  induction l as [|a l IH]; simpl; [done|]. by rewrite IH.
Qed.

(** The speed of a sample at altitude [h]. *)
Lemma generate_wind_table_samples
    (ground_wind_dir ground_wind_speed ref_altitude wind_power_factor : R) :
  generate_wind_table ground_wind_dir ground_wind_speed ref_altitude
                      wind_power_factor
  = map (fun h => (h,
                   ground_wind_speed
                   * Rpower (h / ref_altitude) wind_power_factor,
                   wind_direction ground_wind_dir))
        altitudes_m_list.
Proof.
  unfold generate_wind_table. rewrite power_terms_plain.
  - rewrite <- list_fmap_compose.
    apply (zip3_map_replicate altitudes_m_list
             (fun h => ground_wind_speed
                       * Rpower (h / ref_altitude) wind_power_factor)).
  - eapply Forall_impl; [apply altitudes_bounds|]. intros h Hh. simpl in Hh. lra.
Qed.

(** X1.  Every altitude of the table lies between 0.1 m and 10000 m: the
    first altitude is never 0, the branch that overwrites the first power
    term is never taken, and every sample carries the power-law speed
    [ground_wind_speed * (h / ref_altitude) ** wind_power_factor] of its own
    altitude [h] and the one direction of the table. *)
Theorem generate_wind_table_power_law
    (ground_wind_dir ground_wind_speed ref_altitude wind_power_factor : R) :
  Forall (fun s : sample =>
            0.1 <= s.1.1 <= 10000
            /\ s.1.2 = ground_wind_speed
                       * Rpower (s.1.1 / ref_altitude) wind_power_factor
            /\ s.2 = wind_direction ground_wind_dir)
         (generate_wind_table ground_wind_dir ground_wind_speed ref_altitude
                              wind_power_factor)
  /\ length (generate_wind_table ground_wind_dir ground_wind_speed ref_altitude
                                 wind_power_factor)
     = length altitudes_m_list.
Proof.
  rewrite generate_wind_table_samples. split; [|by rewrite length_map].
  apply Forall_fmap. eapply Forall_impl; [apply altitudes_bounds|].
  intros h Hh. simpl in *. done.
Qed.

(** X2.  With a positive reference altitude and a ground wind speed that is
    not negative, no sample has a negative speed. *)
Theorem generate_wind_table_speed_nonneg
    (ground_wind_dir ground_wind_speed ref_altitude wind_power_factor : R) :
  0 < ref_altitude ->
  0 <= ground_wind_speed ->
  Forall (fun s : sample => 0 <= s.1.2)
         (generate_wind_table ground_wind_dir ground_wind_speed ref_altitude
                              wind_power_factor).
Proof.
  intros Href Hspeed. rewrite generate_wind_table_samples.
  apply Forall_fmap, Forall_forall. intros h _. simpl.
  apply Rmult_le_pos; [done|]. unfold Rpower. left. apply exp_pos.
Qed.

Lemma generate_wind_table_speed_nonneg_witness :
  Forall (fun s : sample => 0 <= s.1.2) (generate_wind_table 30 10 10 0.14).
Proof.
  apply generate_wind_table_speed_nonneg; lra.
Defined.

Lemma Rpower_base_1 (a : R) : Rpower 1 a = 1.
Proof. unfold Rpower. by rewrite ln_1, Rmult_0_r, exp_0. Qed.

Lemma ten_in_altitudes : 10 ∈ altitudes_m_list.
Proof.
  apply altitudes_elem. right. left. apply medium_altitudes_elem.
  exists 0%nat. split; [lia|]. simpl.
  rewrite Rmult_0_l, Rplus_0_r. by rewrite Rpower_10_1.
Qed.

(** X3.  When the positive reference altitude is one of the altitudes of
    the table, as the reference height 10 m of the docstring is, the table
    holds the sample at that altitude with exactly the ground wind speed. *)
Theorem generate_wind_table_reference_speed
    (ground_wind_dir ground_wind_speed ref_altitude wind_power_factor : R) :
  0 < ref_altitude ->
  ref_altitude ∈ altitudes_m_list ->
  (ref_altitude, ground_wind_speed, wind_direction ground_wind_dir)
  ∈ generate_wind_table ground_wind_dir ground_wind_speed ref_altitude
                        wind_power_factor.
Proof.
  intros Href Hin. rewrite generate_wind_table_samples.
  apply list_elem_of_fmap. exists ref_altitude. split; [|done].
  replace (ref_altitude / ref_altitude) with 1 by (field; lra).
  rewrite Rpower_base_1. f_equal. f_equal. lra.
Qed.

Lemma generate_wind_table_reference_speed_witness :
  (10, 10, wind_direction 30) ∈ generate_wind_table 30 10 10 0.14.
Proof.
  apply generate_wind_table_reference_speed; [lra|apply ten_in_altitudes].
Defined.

Lemma altitudes_increasing : StronglySorted Rlt altitudes_m_list.
Proof. apply sorted_NoDup_strict, NoDup_remove_dups. Qed.

(** X4.  With a positive reference altitude, a ground wind speed and an
    exponent that are not negative, the speed never decreases from one
    sample of the table to a later one. *)
Theorem generate_wind_table_speed_monotone
    (ground_wind_dir ground_wind_speed ref_altitude wind_power_factor : R) :
  0 < ref_altitude ->
  0 <= ground_wind_speed ->
  0 <= wind_power_factor ->
  StronglySorted Rle
    (map (fun s : sample => s.1.2)
         (generate_wind_table ground_wind_dir ground_wind_speed ref_altitude
                              wind_power_factor)).
Proof.
  intros Href Hspeed Halpha. rewrite generate_wind_table_samples.
  rewrite <- list_fmap_compose.
  pose proof altitudes_increasing as Hsorted.
  pose proof altitudes_bounds as Hbounds.
  induction Hsorted as [|h l Hs IH Hh]; [constructor|].
  apply Forall_cons in Hbounds as [Hhb Hbounds].
  cbn [map]. constructor; [by apply IH|].
  apply Forall_fmap, Forall_forall. intros h' Hh'.
  rewrite Forall_forall in Hh. specialize (Hh h' Hh'). simpl.
  apply Rmult_le_compat_l; [done|].
  apply Rle_Rpower_l; [done|]. split.
  - apply Rdiv_lt_0_compat; lra.
  - apply Rmult_le_compat_r; [left; by apply Rinv_0_lt_compat|lra].
Qed.

Lemma generate_wind_table_speed_monotone_witness :
  StronglySorted Rle
    (map (fun s : sample => s.1.2) (generate_wind_table 30 10 10 0.14)).
Proof.
  apply generate_wind_table_speed_monotone; lra.
Defined.

End WindTableFacts.

(** ** kml_generator.py *)

Module KmlFacts.
Import Kml KmlSpec.

(** *** The pattern *)

Lemma starts_with_app (p s : text) :
  starts_with p s = true -> s = p ++ drop (length p) s.
Proof.
  revert s. induction p as [|c p IH]; intros [|d s] Hs; simpl in *; try done.
  case_decide; [|done]. subst. f_equal. by apply IH.
Qed.

Lemma starts_with_refl (p r : text) : starts_with p (p ++ r) = true.
Proof.
  induction p as [|c p IH]; simpl; [done|]. by rewrite decide_True.
Qed.

Lemma index_of_split (c : ascii) (s : text) (j : nat) :
  index_of c s = Some j ->
  s = take j s ++ c :: drop (S j) s /\ (c ∉ take j s) /\ (j < length s)%nat.
Proof.
  revert j. induction s as [|d s IH]; intros j Hj; simpl in *; [done|].
  case_decide as Hcd.
  - injection Hj as <-. subst. simpl. rewrite drop_0.
    split; [done|]. split; [apply not_elem_of_nil|lia].
  - destruct (index_of c s) as [j'|] eqn:Hi; simpl in Hj; [|done].
    injection Hj as <-. destruct (IH j' eq_refl) as (Heq & Hnotin & Hlt).
    simpl. split; [by rewrite <- Heq|].
    split; [|lia]. intros Hin. apply elem_of_cons in Hin as [?|?]; done.
Qed.

Lemma rfind_split (p s : text) (k : nat) :
  p <> [] -> rfind p s = Some k ->
  s = take k s ++ p ++ drop (k + length p) s /\ (k < length s)%nat.
Proof.
  intros Hp. revert k. induction s as [|d s IH]; intros k Hk.
  - simpl in Hk. destruct p; [done|]. done.
  - simpl in Hk. destruct (rfind p s) as [k'|] eqn:Hr.
    + injection Hk as <-. destruct (IH k' eq_refl) as [Heq Hlt].
      simpl. split; [by rewrite <- Heq|lia].
    + destruct (starts_with p (d :: s)) eqn:Hs; [|done].
      injection Hk as <-. split; [|simpl; lia].
      change (d :: s = p ++ drop (length p) (d :: s)).
      by apply starts_with_app.
Qed.

Lemma DOCUMENT_CLOSE_not_nil : DOCUMENT_CLOSE <> [].
Proof. done. Qed.

(** What a match at the start of [s] says about [s]. *)
Lemma match_here_split (s : text) (a b : nat) :
  match_here s = Some (a, b) ->
  exists attrs inner post,
    s = DOCUMENT_OPEN ++ attrs ++ [GT] ++ inner ++ DOCUMENT_CLOSE ++ post
    /\ (GT ∉ attrs)
    /\ a = length (DOCUMENT_OPEN ++ attrs ++ [GT])
    /\ b = (a + length inner)%nat.
Proof.
  unfold match_here. intros Hm.
  destruct (starts_with DOCUMENT_OPEN s) eqn:Hopen; [|done].
  apply starts_with_app in Hopen.
  set (r := drop (length DOCUMENT_OPEN) s) in *.
  destruct (index_of GT r) as [j|] eqn:Hj; cbn [mbind option_bind] in Hm; [|done].
  apply index_of_split in Hj as (Hr & Hnotin & Hjlt).
  set (start1 := (length DOCUMENT_OPEN + j + 1)%nat) in *.
  destruct (rfind DOCUMENT_CLOSE (drop start1 s)) as [k|] eqn:Hk;
    cbn [mbind option_bind] in Hm; [|done].
  injection Hm as <- <-.
  assert (Hdrop : drop start1 s = drop (S j) r).
  { unfold start1, r. rewrite drop_drop. f_equal. lia. }
  rewrite Hdrop in Hk.
  apply rfind_split in Hk as [Hk Hklt]; [|exact DOCUMENT_CLOSE_not_nil].
  exists (take j r), (take k (drop (S j) r)),
         (drop (k + length DOCUMENT_CLOSE) (drop (S j) r)).
  split; [|split; [exact Hnotin|split]].
  - rewrite Hopen at 1. f_equal. fold r. rewrite Hr at 1. f_equal.
    simpl. f_equal. exact Hk.
  - rewrite !length_app, length_take_le by lia. unfold start1.
    change (length [GT]) with 1%nat. lia.
  - rewrite length_take_le; [done|]. lia.
Qed.

(** What [re.search] found: the text splits around the opening tag, the
    group and the closing tag. *)
Lemma re_search_Document_split (content : text) (a b : nat) :
  re_search_Document content = Some (a, b) ->
  exists pre attrs inner post,
    content = pre ++ DOCUMENT_OPEN ++ attrs ++ [GT] ++ inner
              ++ DOCUMENT_CLOSE ++ post
    /\ (GT ∉ attrs)
    /\ a = length (pre ++ DOCUMENT_OPEN ++ attrs ++ [GT])
    /\ b = (a + length inner)%nat.
Proof.
  unfold re_search_Document.
  assert (Hgen : forall s pos a b,
    search_from pos s = Some (a, b) ->
    exists pre attrs inner post,
      s = pre ++ DOCUMENT_OPEN ++ attrs ++ [GT] ++ inner ++ DOCUMENT_CLOSE ++ post
      /\ (GT ∉ attrs)
      /\ a = (pos + length (pre ++ DOCUMENT_OPEN ++ attrs ++ [GT]))%nat
      /\ b = (a + length inner)%nat).
  { clear. induction s as [|c s IH]; intros pos a b Hs.
    - cbn [search_from] in Hs.
      destruct (match_here []) as [[a' b']|] eqn:Hm; [|done].
      injection Hs as <- <-.
      apply match_here_split in Hm as (attrs & inner & post & H1 & H2 & H3 & H4).
      exists [], attrs, inner, post.
      split; [exact H1|]. split; [exact H2|]. split; [by rewrite H3|lia].
    - cbn [search_from] in Hs.
      destruct (match_here (c :: s)) as [[a' b']|] eqn:Hm.
      + injection Hs as <- <-.
        apply match_here_split in Hm as (attrs & inner & post & H1 & H2 & H3 & H4).
        exists [], attrs, inner, post.
        split; [exact H1|]. split; [exact H2|]. split; [by rewrite H3|lia].
      + apply IH in Hs as (pre & attrs & inner & post & H1 & H2 & H3 & H4).
        exists (c :: pre), attrs, inner, post.
        split; [by rewrite H1|]. split; [exact H2|].
        split; [|exact H4]. rewrite H3. simpl length. lia. }
  intros Hs. apply Hgen in Hs as (pre & attrs & inner & post & H1 & H2 & H3 & H4).
  exists pre, attrs, inner, post.
  split; [exact H1|]. split; [exact H2|]. split; [exact H3|exact H4].
Qed.

Lemma slice_middle (pre inner post : text) :
  slice (length pre) (length pre + length inner) (pre ++ inner ++ post) = inner.
Proof.
  unfold slice. rewrite drop_app_length.
  replace (length pre + length inner - length pre)%nat with (length inner) by lia.
  by rewrite take_app_length.
Qed.

Lemma take_header (pre inner post : text) :
  take (length pre) (pre ++ inner ++ post) = pre.
Proof. by rewrite take_app_length. Qed.

Lemma drop_footer (pre inner post : text) :
  drop (length pre + length inner) (pre ++ inner ++ post) = post.
Proof.
  rewrite app_assoc, <- length_app. by rewrite drop_app_length.
Qed.

(** The group that [re.search] found, as a split of the content into the
    part up to the end of the opening tag, the group, and the rest. *)
Lemma re_search_Document_wrapper (content : text) (a b : nat) :
  re_search_Document content = Some (a, b) ->
  exists pre attrs inner post,
    let header := pre ++ DOCUMENT_OPEN ++ attrs ++ [GT] in
    let footer := DOCUMENT_CLOSE ++ post in
    content = header ++ inner ++ footer
    /\ (GT ∉ attrs)
    /\ take a content = header
    /\ slice a b content = inner
    /\ drop b content = footer.
Proof.
  intros Hs.
  apply re_search_Document_split in Hs
    as (pre & attrs & inner & post & Hc & Hgt & -> & ->).
  exists pre, attrs, inner, post. cbn zeta.
  assert (Hc' : content = (pre ++ DOCUMENT_OPEN ++ attrs ++ [GT]) ++ inner
                          ++ DOCUMENT_CLOSE ++ post).
  { rewrite Hc. by rewrite <- !app_assoc. }
  split; [exact Hc'|]. split; [exact Hgt|].
  rewrite Hc' at 1 2 3.
  split; [apply take_header|]. split; [apply slice_middle|apply drop_footer].
Qed.

(** C8.  When [re.search] finds a Document element in both documents, the
    file written is the first document's wrapper (everything up to the end
    of its opening Document tag, and everything from its closing tag on)
    around the first document's inner content immediately followed by the
    second document's inner content.  Both inner contents are copied
    unchanged: nothing is removed, merged or reordered. *)
Theorem merge_kmz_to_kml_concatenates
    (fs : filesystem) (existing_kml_path kmz_path output_path : string)
    (existing_content kmz_content : text) (members : gmap string text)
    (start1 end1 start2 end2 : nat) :
  fs !! existing_kml_path = Some (KmlFile existing_content) ->
  fs !! kmz_path = Some (KmzFile members) ->
  members !! "doc.kml"%string = Some kmz_content ->
  re_search_Document existing_content = Some (start1, end1) ->
  re_search_Document kmz_content = Some (start2, end2) ->
  exists pre1 attrs1 inner1 post1 pre2 attrs2 inner2 post2,
    let header := pre1 ++ DOCUMENT_OPEN ++ attrs1 ++ [GT] in
    let footer := DOCUMENT_CLOSE ++ post1 in
    existing_content = header ++ inner1 ++ footer
    /\ kmz_content
       = (pre2 ++ DOCUMENT_OPEN ++ attrs2 ++ [GT]) ++ inner2
         ++ DOCUMENT_CLOSE ++ post2
    /\ (GT ∉ attrs1) /\ (GT ∉ attrs2)
    /\ inner1 = slice start1 end1 existing_content
    /\ inner2 = slice start2 end2 kmz_content
    /\ merge_kmz_to_kml fs existing_kml_path kmz_path output_path
       = Ok (<[output_path := KmlFile (header ++ inner1 ++ inner2 ++ footer)]> fs).
Proof.
  intros Hfile Hzip Hmember Hs1 Hs2.
  destruct (re_search_Document_wrapper _ _ _ Hs1)
    as (pre1 & attrs1 & inner1 & post1 & Hc1 & Hgt1 & Htake1 & Hslice1 & Hdrop1).
  destruct (re_search_Document_wrapper _ _ _ Hs2)
    as (pre2 & attrs2 & inner2 & post2 & Hc2 & Hgt2 & _ & Hslice2 & _).
  exists pre1, attrs1, inner1, post1, pre2, attrs2, inner2, post2. cbn zeta.
  split; [exact Hc1|]. split; [exact Hc2|].
  split; [exact Hgt1|]. split; [exact Hgt2|].
  split; [by rewrite Hslice1|]. split; [by rewrite Hslice2|].
  unfold merge_kmz_to_kml, read_text, read_member.
  rewrite Hfile, Hzip, Hmember. cbn [mbind result_bind].
  rewrite Hs1, Hs2, Htake1, Hslice1, Hslice2, Hdrop1. reflexivity.
Qed.

Example merge_two_files :
  merge_kmz_to_kml two_files "a.kml" "b.kmz" "out.kml"
  = Ok (<["out.kml"%string :=
            KmlFile (list_ascii_of_string
                       "<kml><Document><a/><b/></Document></kml>")]> two_files).
Proof. vm_compute. reflexivity. Qed.

Lemma merge_kmz_to_kml_concatenates_witness :
  exists pre1 attrs1 inner1 post1 pre2 attrs2 inner2 post2,
    doc_a = (pre1 ++ DOCUMENT_OPEN ++ attrs1 ++ [GT]) ++ inner1
            ++ DOCUMENT_CLOSE ++ post1
    /\ doc_b = (pre2 ++ DOCUMENT_OPEN ++ attrs2 ++ [GT]) ++ inner2
               ++ DOCUMENT_CLOSE ++ post2
    /\ (GT ∉ attrs1) /\ (GT ∉ attrs2)
    /\ inner1 = slice 15 19 doc_a
    /\ inner2 = slice 22 26 doc_b
    /\ merge_kmz_to_kml two_files "a.kml" "b.kmz" "out.kml"
       = Ok (<["out.kml"%string :=
                 KmlFile ((pre1 ++ DOCUMENT_OPEN ++ attrs1 ++ [GT]) ++ inner1
                          ++ inner2 ++ DOCUMENT_CLOSE ++ post1)]> two_files).
Proof.
  apply (merge_kmz_to_kml_concatenates two_files "a.kml" "b.kmz" "out.kml"
           doc_a doc_b {[ "doc.kml"%string := doc_b ]} 15 19 22 26);
    vm_compute; reflexivity.
Defined.

(** Every document with a Document element has a match. *)
Lemma rfind_starts_with (p s : text) :
  starts_with p s = true -> is_Some (rfind p s).
Proof.
  intros Hs. destruct s as [|c s]; simpl; rewrite Hs.
  - by eexists.
  - destruct (rfind p s); by eexists.
Qed.

Lemma rfind_occurrence (p x y : text) : is_Some (rfind p (x ++ p ++ y)).
Proof.
  induction x as [|c x IH].
  - exact (rfind_starts_with _ _ (starts_with_refl p y)).
  - destruct IH as [k Hk]. simpl. rewrite Hk. by eexists.
Qed.

Lemma index_of_first (c : ascii) (attrs rest : text) :
  c ∉ attrs -> index_of c (attrs ++ c :: rest) = Some (length attrs).
Proof.
  induction attrs as [|d attrs IH]; intros Hnotin; simpl.
  - by rewrite decide_True.
  - apply not_elem_of_cons in Hnotin as [Hne Hnotin].
    rewrite decide_False by done. by rewrite IH.
Qed.

Lemma match_here_complete (attrs inner post : text) :
  GT ∉ attrs ->
  is_Some (match_here (DOCUMENT_OPEN ++ attrs ++ [GT] ++ inner
                       ++ DOCUMENT_CLOSE ++ post)).
Proof.
  intros Hgt. unfold match_here. rewrite starts_with_refl.
  rewrite drop_app_length.
  change (attrs ++ [GT] ++ inner ++ DOCUMENT_CLOSE ++ post)
    with (attrs ++ GT :: (inner ++ DOCUMENT_CLOSE ++ post)).
  rewrite index_of_first by done. cbn [mbind option_bind].
  replace (drop (length DOCUMENT_OPEN + length attrs + 1)
             (DOCUMENT_OPEN ++ attrs ++ GT :: inner ++ DOCUMENT_CLOSE ++ post))
    with (inner ++ DOCUMENT_CLOSE ++ post).
  - destruct (rfind_occurrence DOCUMENT_CLOSE inner post) as [k ->].
    by eexists.
  - replace (DOCUMENT_OPEN ++ attrs ++ GT :: inner ++ DOCUMENT_CLOSE ++ post)
      with ((DOCUMENT_OPEN ++ attrs ++ [GT]) ++ inner ++ DOCUMENT_CLOSE ++ post)
      by (by rewrite <- !app_assoc).
    replace (length DOCUMENT_OPEN + length attrs + 1)%nat
      with (length (DOCUMENT_OPEN ++ attrs ++ [GT]))
      by (rewrite !length_app; simpl; lia).
    by rewrite drop_app_length.
Qed.

Lemma search_from_here (pos : nat) (s : text) (a b : nat) :
  match_here s = Some (a, b) ->
  search_from pos s = Some ((pos + a)%nat, (pos + b)%nat).
Proof.
  intros Hm. destruct s; cbn [search_from]; by rewrite Hm.
Qed.

Lemma re_search_Document_complete (pre attrs inner post : text) :
  GT ∉ attrs ->
  is_Some (re_search_Document (pre ++ DOCUMENT_OPEN ++ attrs ++ [GT] ++ inner
                               ++ DOCUMENT_CLOSE ++ post)).
Proof.
  intros Hgt. unfold re_search_Document. generalize 0%nat.
  induction pre as [|c pre IH]; intros pos.
  - destruct (match_here_complete attrs inner post Hgt) as [[a b] Hm].
    simpl app. rewrite (search_from_here _ _ _ _ Hm). by eexists.
  - simpl app. cbn [search_from].
    destruct (match_here _) as [[a b]|]; [by eexists|]. apply IH.
Qed.

(** *** More on the pattern and the merge *)

Lemma rfind_None (p s : text) :
  rfind p s = None -> forall k, starts_with p (drop k s) = false.
Proof.
  induction s as [|c s IH]; intros Hr k.
  - simpl in Hr. rewrite drop_nil. by destruct (starts_with p []).
  - simpl in Hr. destruct (rfind p s) eqn:Hs; [done|].
    destruct (starts_with p (c :: s)) eqn:Hc; [done|].
    destruct k as [|k]; [done|]. apply (IH eq_refl).
Qed.

Lemma rfind_last (p s : text) (k : nat) :
  p <> [] ->
  rfind p s = Some k ->
  forall k', (k < k')%nat -> starts_with p (drop k' s) = false.
Proof.
  intros Hp. revert k. induction s as [|c s IH]; intros k Hr k' Hk'.
  - rewrite drop_nil. by destruct p.
  - simpl in Hr. destruct k' as [|k']; [lia|]. simpl.
    destruct (rfind p s) as [k0|] eqn:Hs.
    + injection Hr as <-. apply (IH k0 eq_refl). lia.
    + by apply rfind_None.
Qed.

(** Where [re.search] found its match: nothing matches at an earlier
    position, and the match there is the one of [match_here]. *)
Lemma search_from_inv (s : text) (pos a b : nat) :
  search_from pos s = Some (a, b) ->
  exists n a' b',
    match_here (drop n s) = Some (a', b')
    /\ a = (pos + n + a')%nat /\ b = (pos + n + b')%nat
    /\ forall m, (m < n)%nat -> match_here (drop m s) = None.
Proof.
  revert pos. induction s as [|c s IH]; intros pos Hs; cbn [search_from] in Hs.
  - destruct (match_here []) as [[a' b']|] eqn:Hm; [|done].
    injection Hs as <- <-. exists 0%nat, a', b'.
    split; [done|]. split; [lia|]. split; [lia|]. intros m Hm'. lia.
  - destruct (match_here (c :: s)) as [[a' b']|] eqn:Hm.
    + injection Hs as <- <-. exists 0%nat, a', b'.
      split; [done|]. split; [lia|]. split; [lia|]. intros m Hm'. lia.
    + apply IH in Hs as (n & a' & b' & Hn & -> & -> & Hleft).
      exists (S n), a', b'. split; [done|]. split; [lia|]. split; [lia|].
      intros [|m] Hm'; [done|]. apply Hleft. lia.
Qed.

Lemma match_here_last_close (s : text) (a b : nat) :
  match_here s = Some (a, b) ->
  starts_with DOCUMENT_CLOSE (drop b s) = true
  /\ forall k, (b < k)%nat -> starts_with DOCUMENT_CLOSE (drop k s) = false.
Proof.
  unfold match_here. intros Hm.
  destruct (starts_with DOCUMENT_OPEN s) eqn:Hopen; [|done].
  destruct (index_of GT (drop (length DOCUMENT_OPEN) s)) as [j|] eqn:Hj;
    cbn [mbind option_bind] in Hm; [|done].
  set (start1 := (length DOCUMENT_OPEN + j + 1)%nat) in *.
  destruct (rfind DOCUMENT_CLOSE (drop start1 s)) as [k0|] eqn:Hk;
    cbn [mbind option_bind] in Hm; [|done].
  injection Hm as <- <-. split.
  - destruct (rfind_split _ _ _ DOCUMENT_CLOSE_not_nil Hk) as [Hsplit Hlt].
    change (starts_with DOCUMENT_CLOSE (drop (start1 + k0) s) = true).
    rewrite <- drop_drop. rewrite Hsplit.
    rewrite drop_app_length'; [apply starts_with_refl|].
    rewrite length_take_le; lia.
  - intros k Hlt. change (start1 + k0 < k)%nat in Hlt.
    replace k with (start1 + (k - start1))%nat by lia.
    rewrite <- drop_drop.
    apply (rfind_last _ _ _ DOCUMENT_CLOSE_not_nil Hk). lia.
Qed.

(** X5.  [re.search] finds a Document element exactly in the texts that
    hold an opening [<Document] tag closed by a [>], and a closing
    [</Document>] tag somewhere behind it. *)
Theorem re_search_Document_iff (content : text) :
  is_Some (re_search_Document content)
  <-> exists pre attrs inner post,
        content = pre ++ DOCUMENT_OPEN ++ attrs ++ [GT] ++ inner
                  ++ DOCUMENT_CLOSE ++ post
        /\ (GT ∉ attrs).
Proof.
  split.
  - intros [[a b] Hs].
    apply re_search_Document_split in Hs
      as (pre & attrs & inner & post & Hc & Hgt & _).
    by exists pre, attrs, inner, post.
  - intros (pre & attrs & inner & post & -> & Hgt).
    by apply re_search_Document_complete.
Qed.

(** X6.  The group that [re.search] returns is that of the leftmost match,
    and it is greedy.  There is a position [n] at which the pattern
    matches, and at no earlier position does it match; the span returned is
    the group of the match at [n]: the text from [n] to the start of the
    group is [<Document], characters other than [>] and the first [>], so
    that the group starts right behind that [>]; and the group ends where
    the last [</Document>] of the text begins. *)
Theorem re_search_Document_greedy (content : text) (a b : nat) :
  re_search_Document content = Some (a, b) ->
  starts_with DOCUMENT_CLOSE (drop b content) = true
  /\ (forall k, (b < k)%nat ->
                starts_with DOCUMENT_CLOSE (drop k content) = false)
  /\ exists n attrs,
       (n < a)%nat /\ (a <= b)%nat
       /\ match_here (drop n content) = Some ((a - n)%nat, (b - n)%nat)
       /\ (forall m, (m < n)%nat -> match_here (drop m content) = None)
       /\ take (a - n) (drop n content) = DOCUMENT_OPEN ++ attrs ++ [GT]
       /\ (GT ∉ attrs).
Proof.
  unfold re_search_Document. intros Hs.
  apply search_from_inv in Hs as (n & a' & b' & Hn & -> & -> & Hleft).
  destruct (match_here_last_close _ _ _ Hn) as [Hclose Hlast].
  rewrite drop_drop in Hclose. split; [|split].
  - by rewrite Nat.add_0_l.
  - intros k Hk. specialize (Hlast (k - n)%nat).
    rewrite drop_drop in Hlast.
    replace (n + (k - n))%nat with k in Hlast by lia. apply Hlast. lia.
  - pose proof Hn as Hsplit.
    apply match_here_split in Hsplit
      as (attrs & inner & post & Hc & Hgt & Ha & Hb).
    exists n, attrs.
    assert (Hlen : (0 < a')%nat).
    { rewrite Ha, !length_app. simpl. lia. }
    split; [lia|]. split; [lia|].
    replace (0 + n + a' - n)%nat with a' by lia.
    replace (0 + n + b' - n)%nat with b' by lia.
    split; [done|]. split; [exact Hleft|]. split; [|done].
    rewrite Hc, Ha.
    replace (DOCUMENT_OPEN ++ attrs ++ [GT] ++ inner ++ DOCUMENT_CLOSE ++ post)
      with ((DOCUMENT_OPEN ++ attrs ++ [GT]) ++ inner ++ DOCUMENT_CLOSE ++ post)
      by (by rewrite <- !app_assoc).
    by rewrite take_app_length.
Qed.

Lemma re_search_Document_greedy_witness :
  starts_with DOCUMENT_CLOSE (drop 44 doc_two) = true
  /\ (forall k, (44 < k)%nat ->
                starts_with DOCUMENT_CLOSE (drop k doc_two) = false)
  /\ exists n attrs,
       (n < 15)%nat /\ (15 <= 44)%nat
       /\ match_here (drop n doc_two) = Some ((15 - n)%nat, (44 - n)%nat)
       /\ (forall m, (m < n)%nat -> match_here (drop m doc_two) = None)
       /\ take (15 - n) (drop n doc_two) = DOCUMENT_OPEN ++ attrs ++ [GT]
       /\ (GT ∉ attrs).
Proof.
  apply (re_search_Document_greedy doc_two 15 44).
  vm_compute. reflexivity.
Defined.

(** On a text with two opening tags the group is that of the first one,
    not of the one nearest to the closing tag. *)
Example re_search_Document_two_openings :
  re_search_Document
    (list_ascii_of_string "x<Document a>b<Document c>d</Document>e")
  = Some (13%nat, 27%nat).
Proof. vm_compute. reflexivity. Qed.

(** X7.  When [re.search] finds no Document element in one of the two
    documents, the file written is a copy of the first document. *)
Theorem merge_kmz_to_kml_fallback
    (fs : filesystem) (existing_kml_path kmz_path output_path : string)
    (existing_content kmz_content : text) (members : gmap string text) :
  fs !! existing_kml_path = Some (KmlFile existing_content) ->
  fs !! kmz_path = Some (KmzFile members) ->
  members !! "doc.kml"%string = Some kmz_content ->
  re_search_Document existing_content = None
  \/ re_search_Document kmz_content = None ->
  merge_kmz_to_kml fs existing_kml_path kmz_path output_path
  = Ok (<[output_path := KmlFile existing_content]> fs).
Proof.
  intros Hfile Hzip Hmember Hnone.
  unfold merge_kmz_to_kml, read_text, read_member.
  rewrite Hfile, Hzip, Hmember. cbn [mbind result_bind].
  destruct Hnone as [-> | ->]; [done|].
  by destruct (re_search_Document existing_content) as [[? ?]|].
Qed.

Lemma merge_kmz_to_kml_fallback_witness :
  merge_kmz_to_kml plain_files "a.kml" "b.kmz" "out.kml"
  = Ok (<["out.kml"%string := KmlFile doc_a]> plain_files).
Proof.
  apply (merge_kmz_to_kml_fallback plain_files "a.kml" "b.kmz" "out.kml"
           doc_a doc_plain {[ "doc.kml"%string := doc_plain ]});
    try (vm_compute; reflexivity).
  right. vm_compute. reflexivity.
Defined.

Lemma re_search_Document_parts (content : text) (a b : nat) :
  re_search_Document content = Some (a, b) ->
  exists pre attrs inner post,
    content = (pre ++ DOCUMENT_OPEN ++ attrs ++ [GT]) ++ inner
              ++ DOCUMENT_CLOSE ++ post
    /\ (GT ∉ attrs)
    /\ (b - a)%nat = length inner
    /\ take a content = pre ++ DOCUMENT_OPEN ++ attrs ++ [GT]
    /\ slice a b content = inner
    /\ drop b content = DOCUMENT_CLOSE ++ post.
Proof.
  intros Hs.
  apply re_search_Document_split in Hs
    as (pre & attrs & inner & post & Hc & Hgt & -> & ->).
  exists pre, attrs, inner, post.
  assert (Hc' : content = (pre ++ DOCUMENT_OPEN ++ attrs ++ [GT]) ++ inner
                          ++ DOCUMENT_CLOSE ++ post).
  { rewrite Hc. by rewrite <- !app_assoc. }
  split; [exact Hc'|]. split; [exact Hgt|]. split; [lia|].
  rewrite Hc' at 1 2 3.
  split; [apply take_header|]. split; [apply slice_middle|apply drop_footer].
Qed.

Lemma merge_kmz_to_kml_concatenates_parts
    (fs : filesystem) (existing_kml_path kmz_path output_path : string)
    (existing_content kmz_content : text) (members : gmap string text)
    (start1 end1 start2 end2 : nat) :
  fs !! existing_kml_path = Some (KmlFile existing_content) ->
  fs !! kmz_path = Some (KmzFile members) ->
  members !! "doc.kml"%string = Some kmz_content ->
  re_search_Document existing_content = Some (start1, end1) ->
  re_search_Document kmz_content = Some (start2, end2) ->
  exists pre1 attrs1 inner1 post1 inner2,
    existing_content = (pre1 ++ DOCUMENT_OPEN ++ attrs1 ++ [GT]) ++ inner1
                       ++ DOCUMENT_CLOSE ++ post1
    /\ (GT ∉ attrs1)
    /\ length inner2 = (end2 - start2)%nat
    /\ merge_kmz_to_kml fs existing_kml_path kmz_path output_path
       = Ok (<[output_path :=
                 KmlFile ((pre1 ++ DOCUMENT_OPEN ++ attrs1 ++ [GT]) ++ inner1
                          ++ inner2 ++ DOCUMENT_CLOSE ++ post1)]> fs).
Proof.
  intros Hfile Hzip Hmember Hs1 Hs2.
  destruct (re_search_Document_parts _ _ _ Hs1)
    as (pre1 & attrs1 & inner1 & post1 & Hc1 & Hgt1 & _ & Htake1 & Hslice1
        & Hdrop1).
  destruct (re_search_Document_parts _ _ _ Hs2)
    as (pre2 & attrs2 & inner2 & post2 & _ & _ & Hlen2 & _ & Hslice2 & _).
  exists pre1, attrs1, inner1, post1, inner2.
  split; [exact Hc1|]. split; [exact Hgt1|]. split; [done|].
  unfold merge_kmz_to_kml, read_text, read_member.
  rewrite Hfile, Hzip, Hmember. cbn [mbind result_bind].
  rewrite Hs1, Hs2, Htake1, Hslice1, Hslice2, Hdrop1. reflexivity.
Qed.

(** X8.  The merged document is as long as the first document and the
    inner content of the second together, and [re.search] finds a Document
    element in it again: it can be the first document of a further merge. *)
Theorem merge_kmz_to_kml_mergeable
    (fs : filesystem) (existing_kml_path kmz_path output_path : string)
    (existing_content kmz_content : text) (members : gmap string text)
    (start1 end1 start2 end2 : nat) :
  fs !! existing_kml_path = Some (KmlFile existing_content) ->
  fs !! kmz_path = Some (KmzFile members) ->
  members !! "doc.kml"%string = Some kmz_content ->
  re_search_Document existing_content = Some (start1, end1) ->
  re_search_Document kmz_content = Some (start2, end2) ->
  exists merged_content : text,
    merge_kmz_to_kml fs existing_kml_path kmz_path output_path
    = Ok (<[output_path := KmlFile merged_content]> fs)
    /\ length merged_content
       = (length existing_content + (end2 - start2))%nat
    /\ is_Some (re_search_Document merged_content).
Proof.
  intros Hfile Hzip Hmember Hs1 Hs2.
  destruct (merge_kmz_to_kml_concatenates_parts _ _ _ output_path _ _ _ _ _ _ _
              Hfile Hzip Hmember Hs1 Hs2)
    as (pre1 & attrs1 & inner1 & post1 & inner2 & Hc1 & Hgt1 & Hlen2 & Hmerge).
  eexists. split; [exact Hmerge|]. split.
  - rewrite Hc1, !length_app. rewrite Hlen2. lia.
  - rewrite <- !app_assoc.
    replace (inner1 ++ inner2 ++ DOCUMENT_CLOSE ++ post1)
      with ((inner1 ++ inner2) ++ DOCUMENT_CLOSE ++ post1)
      by (by rewrite <- app_assoc).
    by apply re_search_Document_complete.
Qed.

Lemma merge_kmz_to_kml_mergeable_witness :
  exists merged_content : text,
    merge_kmz_to_kml two_files "a.kml" "b.kmz" "out.kml"
    = Ok (<["out.kml"%string := KmlFile merged_content]> two_files)
    /\ length merged_content = (length doc_a + (26 - 22))%nat
    /\ is_Some (re_search_Document merged_content).
Proof.
  apply (merge_kmz_to_kml_mergeable two_files "a.kml" "b.kmz" "out.kml"
           doc_a doc_b {[ "doc.kml"%string := doc_b ]} 15 19 22 26);
    vm_compute; reflexivity.
Defined.

(** *** KMLGenerator *)

(** C9.  [add_line] with an empty list of points raises [IndexError]; with a
    non-empty list it completes, and the line string it adds is rendered
    relative to ground exactly when the first point has three components
    and clamped to ground otherwise. *)
Theorem add_line_altitude_mode
    (self : KMLGenerator) (name : string) (color : rgb) (width : Z) :
  (add_line self [] name color width).2 = Raise IndexError
  /\ forall (p0 : coord) (rest : list coord),
       exists ls : LineString,
         add_line self (p0 :: rest) name color width
         = (self ++ [FLineString ls], Ok tt)
         /\ ls_coords ls = p0 :: rest
         /\ ls_altitudemode ls
            = Some (if decide (length p0 = 3%nat)
                    then relativetoground else clamptoground).
Proof.
  split; [reflexivity|].
  intros p0 rest. eexists. split; [reflexivity|]. split; reflexivity.
Qed.

Example add_line_3d :
  add_line init [[140; 40; 12]; [140; 40; 15]] "flight_path" (255, 0, 0)%Z 3
  = ([FLineString {| ls_name := "flight_path";
                     ls_coords := [[140; 40; 12]; [140; 40; 15]];
                     ls_linestyle_color := Some (255, 0, 0)%Z;
                     ls_linestyle_width := Some 3%Z;
                     ls_altitudemode := Some relativetoground |}], Ok tt).
Proof. reflexivity. Qed.

Example add_line_2d :
  (add_line init [[140; 40]; [140; 41]] "flight_path" (0, 255, 0)%Z 3).1
  = [FLineString {| ls_name := "flight_path";
                    ls_coords := [[140; 40]; [140; 41]];
                    ls_linestyle_color := Some (0, 255, 0)%Z;
                    ls_linestyle_width := Some 3%Z;
                    ls_altitudemode := Some clamptoground |}].
Proof. reflexivity. Qed.

Lemma foldl_add_point (color : rgb) (points : list (R * R)) (self : KMLGenerator) :
  foldl (fun k point => add_point k point "" (Some color)) self points
  = self ++ map (point_feature color) points.
Proof.
  revert self. induction points as [|[x y] points IH]; intros self; simpl.
  - by rewrite app_nil_r.
  - rewrite IH. unfold add_point. simpl. by rewrite <- app_assoc.
Qed.

Lemma sort_points_perm (points : list (R * R)) : sort_points points ≡ₚ points.
Proof.
  unfold sort_points. case_decide; [done|]. apply sorted_perm.
Qed.

Lemma emit_group_rendering (color_gradient : list rgb) (self : KMLGenerator)
    (i : nat) (group : string * list landed) :
  exists out,
    emit_group true color_gradient self i group = self ++ out
    /\ group_rendering group out.
Proof.
  destruct group as [group_key group_df].
  unfold emit_group, group_rendering. cbn [fst snd].
  fold (landed_points group_df).
  set (points := landed_points group_df).
  set (current_color := match color_gradient with
                        | [] => _
                        | _ => _
                        end).
  cbn [andb].
  destruct (decide (length points <= 3)%nat) as [Hle|Hgt].
  - rewrite bool_decide_eq_true_2 by done.
    rewrite decide_False by lia.
    exists (map (point_feature current_color) points).
    split; [apply foldl_add_point|].
    split; [by exists current_color|lia].
  - rewrite bool_decide_eq_false_2 by done.
    rewrite decide_True by lia.
    unfold generate_groundpoint_polygon.
    pose proof (sort_points_perm points) as Hperm.
    destruct (sort_points points) as [|first rest] eqn:Hsort.
    { apply Permutation_nil_l in Hperm. rewrite <- Hperm in Hgt.
      simpl in Hgt. lia. }
    eexists. split; [reflexivity|].
    split; [lia|]. intros _.
    eexists _, first, rest. split; [reflexivity|]. by repeat split.
Qed.

Lemma emit_groups_rendering (color_gradient : list rgb) (groups : grouped) :
  forall (self : KMLGenerator) (i : nat),
    exists outs,
      emit_groups true color_gradient self i groups = self ++ concat outs
      /\ Forall2 group_rendering groups outs.
Proof.
  induction groups as [|group groups IH]; intros self i.
  - exists []. simpl. by rewrite app_nil_r.
  - destruct (emit_group_rendering color_gradient self i group)
      as (out & Hout & Hrender).
    destruct (IH (self ++ out) (S i)) as (outs & Houts & Hrenders).
    exists (out :: outs). cbn [emit_groups concat].
    rewrite Hout, Houts. split; [by rewrite <- app_assoc|].
    by constructor.
Qed.

(** C7.  With point output enabled, the generator appends to the document,
    group by group, one point per landed point and no polygon for a group of
    at most three landed points, and exactly one polygon, closed and running
    through the landed points, and no point for a group of more than three. *)
Theorem generate_grouped_points_polygons_rendering
    (self : KMLGenerator) (grouped_df : grouped) :
  exists outs : list (list feature),
    generate_grouped_points_polygons self grouped_df true = self ++ concat outs
    /\ Forall2 group_rendering grouped_df outs.
Proof.
  unfold generate_grouped_points_polygons. apply emit_groups_rendering.
Qed.

(** The scenario of the specification: a group of three landed points is
    drawn as three points in the first colour of the gradient, and the same
    group with a fourth landed point as one polygon. *)
Lemma int_of_float_IZR (z : Z) : int_of_float (IZR z) = z.
Proof.
  unfold int_of_float. case_decide.
  - apply ZfloorZ.
  - apply Zceil_eq. lra.
Qed.

Example three_landed_points :
  generate_grouped_points_polygons init [("dir_30"%string, three_landed)] true
  = map (point_feature (248, 112, 128)%Z) (landed_points three_landed).
Proof.
  unfold generate_grouped_points_polygons. cbn [length].
  rewrite decide_True by lia.
  unfold create_color_gradient, linspace. cbn [map].
  replace ((1 - 0) * IZR 248 + 0 * IZR 247) with (IZR 248) by lra.
  replace ((1 - 0) * IZR 112 + 0 * IZR 93) with (IZR 112) by lra.
  replace ((1 - 0) * IZR 128 + 0 * IZR 139) with (IZR 128) by lra.
  rewrite !int_of_float_IZR. reflexivity.
Qed.

Example four_landed_polygon :
  exists (g : Polygon) (first : R * R) (rest : list (R * R)),
    generate_grouped_points_polygons init [("dir_30"%string, four_landed)] true
    = [FPolygon g]
    /\ pol_outerboundaryis g = (first :: rest) ++ [first]
    /\ first :: rest ≡ₚ landed_points four_landed.
Proof.
  unfold generate_grouped_points_polygons.
  destruct (emit_groups_rendering
              (if decide (0 < length [("dir_30"%string, four_landed)])%nat
               then create_color_gradient (248, 112, 128)%Z (247, 93, 139)%Z
                      (length [("dir_30"%string, four_landed)])
               else [])
              [("dir_30"%string, four_landed)] init 0)
    as (outs & Heq & Hrender).
  apply Forall2_cons_inv_l in Hrender as (out & outs' & [_ Hpoly] & Hnil & ->).
  apply Forall2_nil_inv_l in Hnil as ->.
  destruct Hpoly as (g & first & rest & -> & _ & Hring & Hperm);
    [simpl; lia|].
  exists g, first, rest. rewrite Heq. by repeat split.
Qed.

(** The colour of every group is taken from the gradient: the gradient has
    one entry per group. *)
Lemma linspace_length (start stop : R) (num : nat) :
  length (linspace start stop num) = num.
Proof.
  destruct num as [|[|n]]; simpl; [done..|].
  by rewrite length_map, length_seq.
Qed.

Lemma create_color_gradient_length (start_color end_color : rgb) (n : nat) :
  length (create_color_gradient start_color end_color n) = n.
Proof.
  unfold create_color_gradient.
  destruct start_color as [[sr sg] sb], end_color as [[er eg] eb].
  by rewrite length_map, linspace_length.
Qed.

(** *** More on the generator *)

Lemma create_color_gradient_one (start_color end_color : rgb) :
  create_color_gradient start_color end_color 1 = [start_color].
Proof.
  destruct start_color as [[sr sg] sb], end_color as [[er eg] eb].
  unfold create_color_gradient, linspace. cbn [map].
  replace ((1 - 0) * IZR sr + 0 * IZR er) with (IZR sr) by lra.
  replace ((1 - 0) * IZR sg + 0 * IZR eg) with (IZR sg) by lra.
  replace ((1 - 0) * IZR sb + 0 * IZR eb) with (IZR sb) by lra.
  by rewrite !int_of_float_IZR.
Qed.

Lemma linspace_ends (n : nat) :
  exists middle,
    linspace 0 1 (S (S n)) = 0 :: middle ++ [1] /\ length middle = n.
Proof.
  unfold linspace. rewrite seq_S. cbn [seq]. rewrite <- seq_shift.
  cbn [map]. rewrite map_app. cbn [map].
  exists (map (fun i => 0 + INR i * ((1 - 0) / INR (S n))) (map S (seq 0 n))).
  split.
  - change (0 + S n)%nat with (S n).
    assert (Hn : INR (S n) <> 0) by (apply not_0_INR; lia).
    replace (0 + INR 0 * ((1 - 0) / INR (S n))) with 0 by (simpl; lra).
    replace (0 + INR (S n) * ((1 - 0) / INR (S n))) with 1 by (field; exact Hn).
    reflexivity.
  - by rewrite !length_map, length_seq.
Qed.

(** X9.  The gradient has one colour per group; a single group gets the
    start colour, and with two or more groups the first gets the start
    colour and the last the end colour. *)
Theorem create_color_gradient_ends (start_color end_color : rgb) (n : nat) :
  length (create_color_gradient start_color end_color n) = n
  /\ create_color_gradient start_color end_color 1 = [start_color]
  /\ exists middle,
       create_color_gradient start_color end_color (S (S n))
       = start_color :: middle ++ [end_color].
Proof.
  split; [apply create_color_gradient_length|].
  split; [apply create_color_gradient_one|].
  destruct (linspace_ends n) as (middle & Hlin & _).
  destruct start_color as [[sr sg] sb], end_color as [[er eg] eb].
  unfold create_color_gradient. rewrite Hlin. cbn [map]. rewrite map_app.
  cbn [map]. eexists. f_equal.
  - replace ((1 - 0) * IZR sr + 0 * IZR er) with (IZR sr) by lra.
    replace ((1 - 0) * IZR sg + 0 * IZR eg) with (IZR sg) by lra.
    replace ((1 - 0) * IZR sb + 0 * IZR eb) with (IZR sb) by lra.
    by rewrite !int_of_float_IZR.
  - f_equal.
    replace ((1 - 1) * IZR sr + 1 * IZR er) with (IZR er) by lra.
    replace ((1 - 1) * IZR sg + 1 * IZR eg) with (IZR eg) by lra.
    replace ((1 - 1) * IZR sb + 1 * IZR eb) with (IZR eb) by lra.
    by rewrite !int_of_float_IZR.
Qed.

(** X10.  [generate_groundpoint_polygon] always adds one polygon, clamped
    to ground.  Its ring is empty for no points; otherwise it runs through
    all the points once and returns to its first vertex.  Fewer than three
    points keep their order; three or more are in the order of their angle
    around the centroid. *)
Theorem generate_groundpoint_polygon_ring
    (self : KMLGenerator) (points : list (R * R)) (name : string)
    (color : rgb) (width : Z) :
  exists g : Polygon,
    generate_groundpoint_polygon self points name color width
    = self ++ [FPolygon g]
    /\ pol_altitudemode g = Some clamptoground
    /\ pol_outerboundaryis g = sort_points points ++ take 1 (sort_points points)
    /\ sort_points points ≡ₚ points
    /\ ((length points < 3)%nat -> sort_points points = points)
    /\ ((3 <= length points)%nat ->
        StronglySorted
          (key_le (angle_from_center (mean (map fst points))
                                     (mean (map snd points))))
          (sort_points points)).
Proof.
  eexists. split; [reflexivity|]. split; [reflexivity|]. split.
  - cbn [pol_outerboundaryis]. by destruct (sort_points points).
  - split; [apply sort_points_perm|]. unfold sort_points. split.
    + intros Hlt. by rewrite decide_True.
    + intros Hge. rewrite decide_False by lia. apply sorted_sorted.
Qed.

Lemma emit_group_no_points (color_gradient : list rgb) (self : KMLGenerator)
    (i : nat) (group : string * list landed) :
  exists out,
    emit_group false color_gradient self i group = self ++ out
    /\ polygons_only group out.
Proof.
  destruct group as [group_key group_df].
  unfold emit_group, polygons_only. cbn [fst snd].
  fold (landed_points group_df).
  set (points := landed_points group_df).
  set (current_color := match color_gradient with
                        | [] => _
                        | _ => _
                        end).
  cbn [andb].
  destruct (decide (3 < length points)%nat) as [Hgt|Hle].
  - unfold generate_groundpoint_polygon.
    pose proof (sort_points_perm points) as Hperm.
    destruct (sort_points points) as [|first rest] eqn:Hsort.
    { apply Permutation_nil_l in Hperm. rewrite <- Hperm in Hgt.
      simpl in Hgt. lia. }
    eexists. split; [reflexivity|].
    split; [lia|]. intros _.
    eexists _, first, rest. split; [reflexivity|]. by repeat split.
  - exists []. split; [by rewrite app_nil_r|].
    split; [done|lia].
Qed.

(** X11.  With point output disabled the generator adds nothing for a group
    of at most three landed points, and one closed polygon for every larger
    group. *)
Theorem generate_grouped_points_polygons_no_points
    (self : KMLGenerator) (grouped_df : grouped) :
  exists outs : list (list feature),
    generate_grouped_points_polygons self grouped_df false
    = self ++ concat outs
    /\ Forall2 polygons_only grouped_df outs.
Proof.
  unfold generate_grouped_points_polygons.
  generalize (if decide (0 < length grouped_df)%nat
              then create_color_gradient (248, 112, 128)%Z (247, 93, 139)%Z
                     (length grouped_df)
              else []).
  intros color_gradient. generalize 0%nat. revert self.
  induction grouped_df as [|group groups IH]; intros self i.
  - exists []. simpl. by rewrite app_nil_r.
  - destruct (emit_group_no_points color_gradient self i group)
      as (out & Hout & Hrender).
    destruct (IH (self ++ out) (S i)) as (outs & Houts & Hrenders).
    exists (out :: outs). cbn [emit_groups concat].
    rewrite Hout, Houts. split; [by rewrite <- app_assoc|].
    by constructor.
Qed.




End KmlFacts.

(** ** noshiro_sea.py *)

Module LandingRangeFacts.
Import LandingRange.

(** The planar instance meets what the evaluator relies on. *)
Lemma planar_nearest_outside_on_boundary :
  @nearest_outside_on_boundary Planar.planar_shapely.
Proof.
  intros shell p Hout. simpl in *. by rewrite Hout.
Qed.

Lemma flat_geodesic_nonneg : @geodesic_nonneg Planar.flat_geopy.
Proof.
  intros p q. simpl. apply Rmult_le_pos; [lra|apply sqrt_pos].
Qed.

(** C5.  For shapely and geopy operations that behave as the evaluator's
    comments say, [landing_range(latitude, longitude)] is the geodesic
    distance, which is not negative, from the query point to the nearest
    point of the polygon boundary when the polygon contains the point, and
    the negative of that distance when it does not. *)
Theorem NoshiroSea_landing_range_signed_distance
    `{Shapely} `{Geopy} (latitude longitude : R) :
  nearest_outside_on_boundary ->
  geodesic_nonneg ->
  let polygon := make_polygon POLYGON_COORDINATES in
  let nearest := nearest_points (boundary polygon) (longitude, latitude) in
  let distance := geodesic (latitude, longitude) (nearest.2, nearest.1) in
  0 <= distance
  /\ landing_range NoshiroSea latitude longitude
     = Ok (if contains polygon (longitude, latitude)
           then distance else - distance).
Proof.
  intros Hout Hnonneg. cbn zeta. split; [apply Hnonneg|].
  cbn [landing_range NoshiroSea]. f_equal.
  unfold NoshiroSea_landing_range, polygon_landing_range.
  destruct (contains (make_polygon POLYGON_COORDINATES) (longitude, latitude))
    eqn:Hin; [reflexivity|].
  unfold make_polygon in *. by rewrite (Hout _ _ Hin).
Qed.

Import Planar.

Lemma NoshiroSea_landing_range_signed_distance_witness :
  let polygon := make_polygon POLYGON_COORDINATES in
  let nearest := nearest_points (boundary polygon) (139.98, 40.25) in
  let distance := geodesic (40.25, 139.98) (nearest.2, nearest.1) in
  0 <= distance
  /\ landing_range NoshiroSea 40.25 139.98
     = Ok (if contains polygon (139.98, 40.25) then distance else - distance).
Proof.
  apply (NoshiroSea_landing_range_signed_distance 40.25 139.98).
  - exact planar_nearest_outside_on_boundary.
  - exact flat_geodesic_nonneg.
Defined.

End LandingRangeFacts.

(** ** Binary64 *)

Module Binary64Facts.
Local Open Scope Z_scope.

(** *** Powers of two and the number of digits *)

Lemma emin_val : emin = -1074.
Proof. reflexivity. Qed.

Lemma pow2_pos (n : Z) : 0 <= n -> 0 < 2 ^ n.
Proof. intros. apply Z.pow_pos_nonneg; lia. Qed.

Lemma pow2_split (a b : Z) : 0 <= a -> 0 <= b -> 2 ^ (a + b) = 2 ^ a * 2 ^ b.
Proof. intros. apply Z.pow_add_r; lia. Qed.

Lemma pow2_lt_inv (a b : Z) : 0 <= a -> 0 <= b -> 2 ^ a < 2 ^ b -> a < b.
Proof. intros Ha Hb H. apply (Z.pow_lt_mono_r_iff 2); lia. Qed.

Lemma pow2_le_mono (a b : Z) : 0 <= a -> a <= b -> 2 ^ a <= 2 ^ b.
Proof. intros. apply Z.pow_le_mono_r; lia. Qed.

(** [digits2_pos m] is the number of binary digits of [m]. *)
Lemma digits2_pos_bounds (m : positive) :
  2 ^ (Z.pos (digits2_pos m) - 1) <= Z.pos m < 2 ^ Z.pos (digits2_pos m).
Proof.
  induction m as [p IH|p IH|]; cbn [digits2_pos].
  - rewrite Pos2Z.inj_succ. replace (Z.succ (Z.pos (digits2_pos p)) - 1)
      with (Z.succ (Z.pos (digits2_pos p) - 1)) by lia.
    rewrite !Z.pow_succ_r by lia. lia.
  - rewrite Pos2Z.inj_succ. replace (Z.succ (Z.pos (digits2_pos p)) - 1)
      with (Z.succ (Z.pos (digits2_pos p) - 1)) by lia.
    rewrite !Z.pow_succ_r by lia. lia.
  - simpl. lia.
Qed.

Lemma digits2_pos_unique (m : positive) (d : Z) :
  2 ^ (d - 1) <= Z.pos m < 2 ^ d -> 1 <= d -> Z.pos (digits2_pos m) = d.
Proof.
  intros [Hlo Hhi] Hd. destruct (digits2_pos_bounds m) as [Hlo' Hhi'].
  assert (d - 1 < Z.pos (digits2_pos m)).
  { apply pow2_lt_inv; lia. }
  assert (Z.pos (digits2_pos m) - 1 < d).
  { apply pow2_lt_inv; lia. }
  lia.
Qed.

(** *** Shifting a mantissa to the right *)

Lemma iter_pos_comm {A : Type} (f : A -> A) (p : positive) (x : A) :
  SpecFloat.iter_pos f p (f x) = f (SpecFloat.iter_pos f p x).
Proof.
  revert x. induction p as [p IH|p IH|]; intros x; cbn [SpecFloat.iter_pos].
  - by rewrite !IH.
  - by rewrite !IH.
  - done.
Qed.

Lemma iter_pos_nat {A : Type} (f : A -> A) (p : positive) (x : A) :
  SpecFloat.iter_pos f p x = Nat.iter (Pos.to_nat p) f x.
Proof.
  revert x. induction p as [p IH|p IH|]; intros x; cbn [SpecFloat.iter_pos].
  - rewrite Pos2Nat.inj_xI. rewrite !IH.
    replace (S (2 * Pos.to_nat p)) with (Pos.to_nat p + (Pos.to_nat p + 1))%nat by lia.
    rewrite !Nat.iter_add. simpl. done.
  - rewrite Pos2Nat.inj_xO. rewrite !IH.
    replace (2 * Pos.to_nat p)%nat with (Pos.to_nat p + Pos.to_nat p)%nat by lia.
    by rewrite Nat.iter_add.
  - done.
Qed.

(** One step halves the mantissa, and remembers in the two flags what it
    shifted out. *)
Lemma shr_1_spec (mrs : shr_record) :
  0 <= shr_m mrs ->
  shr_1 mrs = Build_shr_record (shr_m mrs / 2) (Z.odd (shr_m mrs))
                               (shr_r mrs || shr_s mrs).
Proof.
  destruct mrs as [m r s]. cbn [shr_m shr_r shr_s]. intros Hm.
  destruct m as [|[p|p|]|]; cbn [shr_1]; try lia.
  - done.
  - f_equal. apply Z.div_unique with (r := 1); lia.
  - f_equal. apply Z.div_unique with (r := 0); lia.
  - done.
Qed.

(** [n] steps divide by [2 ^ n]; the flags stay clear when the division
    is exact. *)
Lemma shr_iter_spec (n : nat) (m : Z) (r s : bool) :
  0 <= m ->
  shr_m (Nat.iter n shr_1 (Build_shr_record m r s)) = m / 2 ^ Z.of_nat n
  /\ (r = false -> s = false -> m mod 2 ^ Z.of_nat n = 0 ->
      shr_r (Nat.iter n shr_1 (Build_shr_record m r s)) = false
      /\ shr_s (Nat.iter n shr_1 (Build_shr_record m r s)) = false).
Proof.
  intros Hm. induction n as [|n [IHm IHe]].
  - simpl. split; [by rewrite Z.div_1_r|]. by intros -> ->.
  - rewrite !Nat.iter_succ.
    set (R := Nat.iter n shr_1 _) in *.
    assert (Hpos : 0 < 2 ^ Z.of_nat n) by (apply pow2_pos; lia).
    assert (HR : 0 <= shr_m R).
    { rewrite IHm. apply Z.div_pos; lia. }
    rewrite (shr_1_spec R HR). cbn [shr_m shr_r shr_s].
    rewrite Nat2Z.inj_succ, Z.pow_succ_r by lia.
    split.
    + rewrite IHm. rewrite Z.div_div by lia. f_equal. lia.
    + intros Hr Hs Hmod.
      apply Z.mod_divide in Hmod; [|lia]. destruct Hmod as [c Hc].
      assert (Hmod' : m mod 2 ^ Z.of_nat n = 0).
      { apply Z.mod_divide; [lia|]. exists (c * 2). lia. }
      destruct (IHe Hr Hs Hmod') as [-> ->]. split; [|done].
      rewrite IHm. replace m with ((c * 2) * 2 ^ Z.of_nat n) by lia.
      rewrite Z.div_mul by lia. rewrite Z.odd_mul. simpl.
      apply andb_false_r.
Qed.

(** [shr] from an exact record. *)
Lemma shr_spec (m e n : Z) :
  0 <= m ->
  exists mrs,
    shr (Build_shr_record m false false) e n = (mrs, e + Z.max n 0)
    /\ shr_m mrs = m / 2 ^ Z.max n 0
    /\ (m mod 2 ^ Z.max n 0 = 0 -> shr_r mrs = false /\ shr_s mrs = false).
Proof.
  intros Hm. unfold shr. destruct n as [|p|p].
  - eexists. split; [by rewrite Z.add_0_r|]. cbn [shr_m shr_r shr_s].
    simpl. by rewrite Z.div_1_r.
  - eexists. split; [by rewrite Z.max_l by lia|].
    rewrite Z.max_l by lia. rewrite iter_pos_nat.
    rewrite <- (positive_nat_Z p).
    destruct (shr_iter_spec (Pos.to_nat p) m false false Hm) as [H1 H2].
    split; [apply H1|]. intros Hmod. by apply H2.
  - eexists. split; [by rewrite Z.max_r, Z.add_0_r by lia|].
    rewrite Z.max_r by lia. cbn [shr_m shr_r shr_s]. simpl.
    by rewrite Z.div_1_r.
Qed.

Lemma fexp64_eq (e : Z) : fexp64 e = Z.max (e - 53) (-1074).
Proof. reflexivity. Qed.

(** [shr_fexp] brings a mantissa to the exponent of its magnitude. *)
Lemma shr_fexp_spec (m e : Z) :
  0 <= m ->
  exists mrs,
    shr_fexp prec emax m e loc_Exact
    = (mrs, Z.max e (fexp64 (Zdigits2 m + e)))
    /\ shr_m mrs = m / 2 ^ (Z.max e (fexp64 (Zdigits2 m + e)) - e)
    /\ (m mod 2 ^ (Z.max e (fexp64 (Zdigits2 m + e)) - e) = 0 ->
        shr_r mrs = false /\ shr_s mrs = false).
Proof.
  intros Hm. unfold shr_fexp. cbn [shr_record_of_loc].
  fold (fexp64 (Zdigits2 m + e)).
  destruct (shr_spec m e (fexp64 (Zdigits2 m + e) - e) Hm)
    as (mrs & Heq & Hq & Hex).
  exists mrs.
  replace (Z.max e (fexp64 (Zdigits2 m + e)) - e)
    with (Z.max (fexp64 (Zdigits2 m + e) - e) 0) by lia.
  split; [|done]. rewrite Heq. f_equal. lia.
Qed.

Lemma round_nearest_even_bounds (q : Z) (l : location) :
  q <= round_nearest_even q l <= q + 1.
Proof.
  destruct l as [|[]]; simpl; try lia. destruct (Z.even q); lia.
Qed.

(** *** Aligning to a smaller exponent *)

Lemma pos_iter_xO (m d : positive) :
  Z.pos (Pos.iter xO m d) = Z.pos m * 2 ^ Z.pos d.
Proof.
  induction d as [|d IH] using Pos.peano_ind.
  - simpl. lia.
  - rewrite Pos.iter_succ. rewrite Pos2Z.inj_succ, Z.pow_succ_r by lia.
    rewrite Pos2Z.inj_xO, IH. lia.
Qed.

Lemma shl_align_spec (mx : positive) (ex ex' : Z) :
  exists mz,
    shl_align mx ex ex' = (mz, Z.min ex ex')
    /\ Z.pos mz = Z.pos mx * 2 ^ (ex - Z.min ex ex').
Proof.
  unfold shl_align. destruct (ex' - ex) as [|d|d] eqn:Hd.
  - exists mx. replace (Z.min ex ex') with ex by lia.
    rewrite Z.sub_diag. split; [done|]. simpl. lia.
  - exists mx. replace (Z.min ex ex') with ex by lia.
    rewrite Z.sub_diag. split; [done|]. simpl. lia.
  - eexists. replace (Z.min ex ex') with ex' by lia. split; [done|].
    rewrite pos_iter_xO. f_equal. f_equal. lia.
Qed.

(** *** Rounding to nearest *)

Lemma digits2_pos_shift (mz D : positive) (k : Z) :
  0 <= k -> Z.pos mz = Z.pos D * 2 ^ k ->
  Z.pos (digits2_pos mz) = Z.pos (digits2_pos D) + k.
Proof.
  intros Hk Hmz. destruct (digits2_pos_bounds D) as [Hlo Hhi].
  assert (Hp : 0 < 2 ^ k) by (by apply pow2_pos).
  apply digits2_pos_unique; [|lia].
  rewrite Hmz.
  replace (Z.pos (digits2_pos D) + k - 1) with (Z.pos (digits2_pos D) - 1 + k)
    by lia.
  rewrite !pow2_split by lia. split; nia.
Qed.

(** [binary_round], step by step: the mantissa is divided down to the
    exponent of its magnitude, rounded by what was shifted out (not at all
    when the division is exact), and brought to the exponent of its
    magnitude once more. *)
Lemma binary_round_steps (s : bool) (D : positive) (ez : Z) :
  let et := fexp64 (Z.pos (digits2_pos D) + ez) in
  let e1 := Z.min ez et in
  exists (l : location),
    let q := (Z.pos D * 2 ^ (ez - e1)) / 2 ^ (et - e1) in
    let q' := round_nearest_even q l in
    let e2 := Z.max et (fexp64 (Zdigits2 q' + et)) in
    ((Z.pos D * 2 ^ (ez - e1)) mod 2 ^ (et - e1) = 0 -> l = loc_Exact)
    /\ binary_round prec emax s D ez = round_result s (q' / 2 ^ (e2 - et)) e2.
Proof.
  intros et e1. unfold binary_round.
  fold (fexp64 (Z.pos (digits2_pos D) + ez)). fold et.
  destruct (shl_align_spec D ez et) as (mz & -> & Hmz). fold e1 in Hmz |- *.
  assert (Hd : Z.pos (digits2_pos mz) + e1 = Z.pos (digits2_pos D) + ez).
  { rewrite (digits2_pos_shift mz D (ez - e1)); [lia|lia|done]. }
  unfold binary_round_aux.
  destruct (shr_fexp_spec (Z.pos mz) e1 ltac:(lia)) as (mrs & -> & Hq & Hex).
  cbn [Zdigits2] in Hq, Hex |- *. rewrite Hd in Hq, Hex |- *. fold et in Hq, Hex |- *.
  replace (Z.max e1 et) with et in * by lia.
  exists (loc_of_shr_record mrs). cbn zeta.
  rewrite <- Hmz. rewrite <- Hq. split.
  - intros Hmod. destruct (Hex Hmod) as [Hr Hs].
    destruct mrs as [m r s0]. cbn in Hr, Hs. by subst.
  - set (q' := round_nearest_even (shr_m mrs) (loc_of_shr_record mrs)).
    assert (Hq' : 0 <= q').
    { pose proof (round_nearest_even_bounds (shr_m mrs) (loc_of_shr_record mrs)).
      assert (0 <= shr_m mrs); [|fold q' in H; lia].
      rewrite Hq. apply Z.div_pos; [lia|]. apply pow2_pos. lia. }
    destruct (shr_fexp_spec q' et Hq') as (mrs2 & -> & Hq2 & _).
    rewrite Hq2. unfold round_result. done.
Qed.

Lemma sval_eq (m e : Z) : sval m e = m * 2 ^ (e + 1074).
Proof.
  unfold sval. rewrite emin_val.
  by replace (e - -1074) with (e + 1074) by lia.
Qed.

Lemma mul_chain_lt (a b c d A B : Z) :
  0 < A -> 0 < B -> a <= b -> c < d -> b * A <= c * B -> a * A < d * B.
Proof. intros. nia. Qed.

Lemma mul_cancel_le (a b P : Z) : 0 < P -> a * P <= b * P -> a <= b.
Proof. intros. nia. Qed.

(** A number at or below a binary64 number is rounded to a float at or
    below it, and never to an infinity. *)
Lemma binary_round_below (D mx : positive) (ez ex : Z) :
  -1074 <= ez ->
  fexp64 (Z.pos (digits2_pos mx) + ex) = ex ->
  ex <= 971 ->
  sval (Z.pos D) ez <= sval (Z.pos mx) ex ->
  match binary_round prec emax false D ez with
  | S754_finite s m e =>
      s = false /\ -1074 <= e /\ sval (Z.pos m) e <= sval (Z.pos mx) ex
  | S754_infinity _ => False
  | _ => True
  end.
Proof.
  intros Hez Hcan Hex Hle. rewrite !sval_eq in Hle.
  destruct (binary_round_steps false D ez) as (l & Hl & ->).
  rewrite fexp64_eq in Hcan.
  set (dD := Z.pos (digits2_pos D)) in *.
  set (dm := Z.pos (digits2_pos mx)) in *.
  destruct (digits2_pos_bounds D) as [HDlo HDhi]. fold dD in HDlo, HDhi.
  destruct (digits2_pos_bounds mx) as [Hmlo Hmhi]. fold dm in Hmlo, Hmhi.
  set (et := fexp64 (dD + ez)) in *.
  assert (Het : et = Z.max (dD + ez - 53) (-1074)) by apply fexp64_eq.
  set (e1 := Z.min ez et) in *.
  assert (HdD : 1 <= dD) by (unfold dD; lia).
  assert (Hdm : 1 <= dm) by (unfold dm; lia).
  assert (Hex0 : -1074 <= ex) by lia.
  assert (HA : 0 < 2 ^ (ez + 1074)) by (apply pow2_pos; lia).
  assert (HB : 0 < 2 ^ (ex + 1074)) by (apply pow2_pos; lia).
  (* magnitudes *)
  assert (Hmag : dD + ez <= dm + ex).
  { assert (2 ^ (dD - 1 + (ez + 1074)) < 2 ^ (dm + (ex + 1074))).
    { rewrite (pow2_split (dD - 1)), (pow2_split dm) by lia.
      by apply (mul_chain_lt _ (Z.pos D) (Z.pos mx)). }
    apply pow2_lt_inv in H; lia. }
  assert (Hete : et <= ex) by lia.
  assert (He1 : -1074 <= e1 /\ e1 <= ez /\ e1 <= et) by lia.
  set (n := et - e1) in *.
  assert (Hn : 0 <= n) by (unfold n; lia).
  set (mz := Z.pos D * 2 ^ (ez - e1)) in *.
  set (K := Z.pos mx * 2 ^ (ex - et)).
  assert (HP1 : 0 < 2 ^ (e1 + 1074)) by (apply pow2_pos; lia).
  assert (HPn : 0 < 2 ^ n) by (by apply pow2_pos).
  assert (Hmzv : mz * 2 ^ (e1 + 1074) = Z.pos D * 2 ^ (ez + 1074)).
  { unfold mz. rewrite <- Z.mul_assoc, <- pow2_split by lia.
    by replace (ez - e1 + (e1 + 1074)) with (ez + 1074) by lia. }
  assert (HKv : (K * 2 ^ n) * 2 ^ (e1 + 1074) = Z.pos mx * 2 ^ (ex + 1074)).
  { unfold K. rewrite <- !Z.mul_assoc. rewrite <- !pow2_split by lia.
    by replace (ex - et + (n + (e1 + 1074))) with (ex + 1074)
      by (unfold n; lia). }
  assert (HmzK : mz <= K * 2 ^ n).
  { apply (mul_cancel_le _ _ (2 ^ (e1 + 1074))); [done|]. lia. }
  assert (Hmz0 : 0 < mz).
  { unfold mz. apply Z.mul_pos_pos; [lia|]. apply pow2_pos. lia. }
  set (q := mz / 2 ^ n) in *.
  assert (HqK : q <= K) by (apply Z.div_le_upper_bound; lia).
  assert (Hq0 : 0 <= q) by (apply Z.div_pos; lia).
  set (q' := round_nearest_even q l) in *.
  assert (Hq'K : q' <= K).
  { pose proof (round_nearest_even_bounds q l) as Hb. fold q' in Hb.
    destruct (Z_lt_le_dec q K) as [Hlt|Hge]; [lia|].
    assert (Hexact : mz mod 2 ^ n = 0).
    { pose proof (Z.mul_div_le mz (2 ^ n) HPn) as Hm. fold q in Hm.
      assert (q = K) as Hq by lia. rewrite Hq in Hm.
      assert (mz = K * 2 ^ n) as -> by lia.
      apply Z.mod_mul. lia. }
    apply Hl in Hexact. unfold q'. rewrite Hexact. simpl. lia. }
  assert (Hq'0 : 0 <= q').
  { pose proof (round_nearest_even_bounds q l) as Hb. fold q' in Hb. lia. }
  set (e2 := Z.max et (fexp64 (Zdigits2 q' + et))).
  assert (He2et : et <= e2) by (unfold e2; lia).
  assert (HP2 : 0 < 2 ^ (e2 - et)) by (apply pow2_pos; lia).
  set (r := q' / 2 ^ (e2 - et)).
  assert (Hr : r * 2 ^ (e2 - et) <= q').
  { pose proof (Z.mul_div_le q' (2 ^ (e2 - et)) HP2). fold r in H. lia. }
  unfold round_result. destruct r as [|p|p] eqn:Hrp; [done| |done].
  assert (Hq'pos : 0 < q').
  { assert (0 < Z.pos p * 2 ^ (e2 - et)) by (apply Z.mul_pos_pos; lia). lia. }
  assert (He2 : e2 <= ex).
  { destruct q' as [|pq|pq] eqn:Hpq; [lia| |lia].
    cbn [Zdigits2] in e2.
    destruct (digits2_pos_bounds pq) as [Hqlo Hqhi].
    set (dq := Z.pos (digits2_pos pq)) in *.
    assert (Hdq : 1 <= dq) by (unfold dq; lia).
    assert (dq + et <= dm + ex); [|unfold e2; rewrite fexp64_eq; lia].
    assert (2 ^ (dq - 1) < 2 ^ (dm + (ex - et))).
    { rewrite (pow2_split dm) by lia.
      pose proof (pow2_pos (ex - et) ltac:(lia)) as HPx. unfold K in Hq'K.
      assert (Z.pos mx * 2 ^ (ex - et) < 2 ^ dm * 2 ^ (ex - et))
        by (apply Z.mul_lt_mono_pos_r; lia).
      lia. }
    apply pow2_lt_inv in H; lia. }
  assert (H971 : emax - prec = 971) by reflexivity. rewrite H971.
  replace (e2 <=? 971) with true by (symmetry; apply Z.leb_le; lia).
  split; [done|]. split; [lia|].
  rewrite !sval_eq. rewrite <- HKv.
  replace (e2 + 1074) with ((e2 - et) + (n + (e1 + 1074)))
    by (unfold n; lia).
  rewrite !pow2_split by lia.
  rewrite !Z.mul_assoc.
  apply Z.mul_le_mono_nonneg_r; [lia|].
  apply Z.mul_le_mono_nonneg_r; [lia|].
  lia.
Qed.

(** A number at or above a binary64 number, rounded with a negative sign,
    gives a float of at least its magnitude, and never a zero. *)
Lemma binary_round_above (D mx : positive) (ez ex : Z) :
  -1074 <= ez ->
  fexp64 (Z.pos (digits2_pos mx) + ex) = ex ->
  sval (Z.pos mx) ex <= sval (Z.pos D) ez ->
  match binary_round prec emax true D ez with
  | S754_finite s m e =>
      s = true /\ -1074 <= e /\ sval (Z.pos mx) ex <= sval (Z.pos m) e
  | S754_infinity s => s = true
  | _ => False
  end.
Proof.
  intros Hez Hcan Hle. rewrite !sval_eq in Hle.
  destruct (binary_round_steps true D ez) as (l & _ & ->).
  rewrite fexp64_eq in Hcan.
  set (dD := Z.pos (digits2_pos D)) in *.
  set (dm := Z.pos (digits2_pos mx)) in *.
  destruct (digits2_pos_bounds D) as [HDlo HDhi]. fold dD in HDlo, HDhi.
  destruct (digits2_pos_bounds mx) as [Hmlo Hmhi]. fold dm in Hmlo, Hmhi.
  set (et := fexp64 (dD + ez)) in *.
  assert (Het : et = Z.max (dD + ez - 53) (-1074)) by apply fexp64_eq.
  set (e1 := Z.min ez et) in *.
  assert (HdD : 1 <= dD) by (unfold dD; lia).
  assert (Hdm : 1 <= dm) by (unfold dm; lia).
  assert (Hex0 : -1074 <= ex) by lia.
  assert (HA : 0 < 2 ^ (ez + 1074)) by (apply pow2_pos; lia).
  assert (HB : 0 < 2 ^ (ex + 1074)) by (apply pow2_pos; lia).
  assert (Hmag : dm + ex <= dD + ez).
  { assert (2 ^ (dm - 1 + (ex + 1074)) < 2 ^ (dD + (ez + 1074))).
    { rewrite (pow2_split (dm - 1)), (pow2_split dD) by lia.
      by apply (mul_chain_lt _ (Z.pos mx) (Z.pos D)). }
    apply pow2_lt_inv in H; lia. }
  assert (Hete : ex <= et) by lia.
  assert (He1 : -1074 <= e1 /\ e1 <= ez /\ e1 <= et) by lia.
  set (n := et - e1) in *.
  assert (Hn : 0 <= n) by (unfold n; lia).
  set (mz := Z.pos D * 2 ^ (ez - e1)) in *.
  assert (HP1 : 0 < 2 ^ (e1 + 1074)) by (apply pow2_pos; lia).
  assert (HPn : 0 < 2 ^ n) by (by apply pow2_pos).
  assert (HPz : 0 < 2 ^ (ez - e1)) by (apply pow2_pos; lia).
  assert (Hmzv : mz * 2 ^ (e1 + 1074) = Z.pos D * 2 ^ (ez + 1074)).
  { unfold mz. rewrite <- Z.mul_assoc, <- pow2_split by lia.
    by replace (ez - e1 + (e1 + 1074)) with (ez + 1074) by lia. }
  assert (Hetv : 2 ^ (et + 1074) = 2 ^ n * 2 ^ (e1 + 1074)).
  { rewrite <- pow2_split by lia. f_equal. unfold n. lia. }
  assert (HPt : 0 < 2 ^ (et + 1074)) by (apply pow2_pos; lia).
  set (q := mz / 2 ^ n) in *.
  (* the mantissa fits *)
  assert (Hq53 : q < 2 ^ 53).
  { apply Z.div_lt_upper_bound; [done|].
    assert (mz < 2 ^ (dD + (ez - e1))).
    { rewrite pow2_split by lia. unfold mz.
      apply Z.mul_lt_mono_pos_r; lia. }
    assert (2 ^ (dD + (ez - e1)) <= 2 ^ (n + 53)).
    { apply pow2_le_mono; unfold n; lia. }
    rewrite (pow2_split n 53) in H0 by lia. lia. }
  (* it is not below the bound *)
  assert (Hqv : Z.pos mx * 2 ^ (ex + 1074) <= q * 2 ^ (et + 1074) /\ 1 <= q).
  { destruct (Z.eq_dec et ex) as [Heq|Hne].
    - assert (Hqm : Z.pos mx <= q).
      { apply Z.div_le_lower_bound; [done|].
        apply (mul_cancel_le _ _ (2 ^ (e1 + 1074))); [done|].
        rewrite Hmzv.
        replace (2 ^ n * Z.pos mx * 2 ^ (e1 + 1074))
          with (Z.pos mx * 2 ^ (et + 1074)) by (rewrite Hetv; ring).
        by rewrite Heq. }
      split; [|lia]. rewrite Heq.
      apply Z.mul_le_mono_nonneg_r; lia.
    - assert (Hq52 : 2 ^ 52 <= q).
      { apply Z.div_le_lower_bound; [done|].
        rewrite <- pow2_split by lia.
        replace (n + 52) with (dD - 1 + (ez - e1)) by (unfold n; lia).
        rewrite pow2_split by lia. unfold mz.
        apply Z.mul_le_mono_nonneg_r; lia. }
      split; [|lia].
      assert (Z.pos mx * 2 ^ (ex + 1074) < 2 ^ dm * 2 ^ (ex + 1074))
        by (apply Z.mul_lt_mono_pos_r; lia).
      rewrite <- pow2_split in H by lia.
      assert (2 ^ (dm + (ex + 1074)) <= 2 ^ (52 + (et + 1074)))
        by (apply pow2_le_mono; lia).
      rewrite (pow2_split 52) in H0 by lia.
      assert (2 ^ 52 * 2 ^ (et + 1074) <= q * 2 ^ (et + 1074))
        by (apply Z.mul_le_mono_nonneg_r; lia).
      lia. }
  destruct Hqv as [Hqv Hq1].
  set (q' := round_nearest_even q l) in *.
  pose proof (round_nearest_even_bounds q l) as Hb. fold q' in Hb.
  assert (Hq'v : Z.pos mx * 2 ^ (ex + 1074) <= q' * 2 ^ (et + 1074)).
  { assert (q * 2 ^ (et + 1074) <= q' * 2 ^ (et + 1074))
      by (apply Z.mul_le_mono_nonneg_r; lia).
    lia. }
  destruct q' as [|pq|pq] eqn:Hpq; [lia| |lia].
  cbn [Zdigits2].
  destruct (digits2_pos_bounds pq) as [Hqlo Hqhi].
  set (dq := Z.pos (digits2_pos pq)) in *.
  assert (Hdq : 1 <= dq) by (unfold dq; lia).
  destruct (Z_lt_le_dec (Z.pos pq) (2 ^ 53)) as [Hlt|Hge].
  - assert (dq <= 53).
    { assert (dq - 1 < 53); [|lia]. apply pow2_lt_inv; lia. }
    replace (Z.max et (fexp64 (dq + et))) with et
      by (rewrite fexp64_eq; lia).
    rewrite Z.sub_diag. change (2 ^ 0) with 1. rewrite Z.div_1_r.
    unfold round_result. destruct (et <=? emax - prec); [|done].
    split; [done|]. split; [lia|]. by rewrite !sval_eq.
  - assert (Hq2 : Z.pos pq = 2 ^ 53) by lia.
    assert (dq = 54).
    { apply digits2_pos_unique; [|lia]. rewrite Hq2.
      split; [apply pow2_le_mono; lia|].
      apply Z.pow_lt_mono_r; lia. }
    replace (Z.max et (fexp64 (dq + et))) with (et + 1)
      by (rewrite fexp64_eq; lia).
    replace (et + 1 - et) with 1 by lia. rewrite Hq2.
    change (2 ^ 53 / 2 ^ 1) with (Z.pos 4503599627370496).
    unfold round_result. destruct (et + 1 <=? emax - prec); [|done].
    split; [done|]. split; [lia|]. rewrite !sval_eq.
    replace (et + 1 + 1074) with (1 + (et + 1074)) by lia.
    rewrite (pow2_split 1 (et + 1074)) by lia. rewrite Hq2 in Hq'v.
    change (2 ^ 1) with 2. change (2 ^ 53) with 9007199254740992 in Hq'v.
    lia.
Qed.

(** *** Subtraction never goes up *)

(** Of two binary64 numbers the one with the smaller value has the smaller
    exponent, or the same exponent and no greater mantissa. *)
Lemma canonical_le_lex (m1 m2 : positive) (e1 e2 : Z) :
  fexp64 (Z.pos (digits2_pos m1) + e1) = e1 ->
  fexp64 (Z.pos (digits2_pos m2) + e2) = e2 ->
  sval (Z.pos m1) e1 <= sval (Z.pos m2) e2 ->
  e1 < e2 \/ (e1 = e2 /\ Z.pos m1 <= Z.pos m2).
Proof.
  rewrite !fexp64_eq, !sval_eq. intros Hc1 Hc2 Hle.
  destruct (digits2_pos_bounds m1) as [Hlo1 Hhi1].
  destruct (digits2_pos_bounds m2) as [Hlo2 Hhi2].
  set (d1 := Z.pos (digits2_pos m1)) in *.
  set (d2 := Z.pos (digits2_pos m2)) in *.
  assert (H1 : 0 < 2 ^ (e1 + 1074)) by (apply pow2_pos; lia).
  assert (H2 : 0 < 2 ^ (e2 + 1074)) by (apply pow2_pos; lia).
  destruct (Z.lt_trichotomy e1 e2) as [Hlt|[Heq|Hgt]]; [by left| |].
  - right. split; [done|]. subst e2.
    by apply (mul_cancel_le _ _ (2 ^ (e1 + 1074))).
  - exfalso.
    assert (Hd1 : d1 = 53) by lia.
    assert (Hd2 : d2 <= 53) by lia.
    rewrite Hd1 in Hlo1. change (53 - 1) with 52 in Hlo1.
    assert (Hm2 : Z.pos m2 < 2 ^ 53).
    { assert (2 ^ d2 <= 2 ^ 53); [|lia]. apply pow2_le_mono; unfold d2; lia. }
    assert (Ha : 2 ^ (53 + (e2 + 1074)) <= 2 ^ (52 + (e1 + 1074)))
      by (apply pow2_le_mono; lia).
    rewrite (pow2_split 53 (e2 + 1074)), (pow2_split 52 (e1 + 1074)) in Ha
      by lia.
    assert (Z.pos m2 * 2 ^ (e2 + 1074) < 2 ^ 53 * 2 ^ (e2 + 1074))
      by (apply Z.mul_lt_mono_pos_r; lia).
    assert (2 ^ 52 * 2 ^ (e1 + 1074) <= Z.pos m1 * 2 ^ (e1 + 1074))
      by (apply Z.mul_le_mono_nonneg_r; lia).
    lia.
Qed.

Lemma bounded_inv (m : positive) (e : Z) :
  SpecFloat.bounded prec emax m e = true ->
  fexp64 (Z.pos (digits2_pos m) + e) = e /\ e <= 971 /\ -1074 <= e.
Proof.
  unfold SpecFloat.bounded, canonical_mantissa. intros [Hc He]%andb_true_iff.
  apply Z.eqb_eq in Hc. apply Z.leb_le in He.
  fold (fexp64 (Z.pos (digits2_pos m) + e)) in Hc.
  split; [done|]. split; [exact He|]. rewrite fexp64_eq in Hc. lia.
Qed.

Lemma round_result_true_not_above (mx : positive) (ex m e : Z) :
  SFltb (S754_finite false mx ex) (round_result true m e) = false.
Proof.
  unfold round_result. destruct m; [done| |done].
  by destruct (e <=? emax - prec).
Qed.

(** Subtracting a positive number never gives a greater one. *)
Lemma SFsub_not_above (x : spec_float) (mc : positive) (ec : Z) :
  valid_binary x = true ->
  SpecFloat.bounded prec emax mc ec = true ->
  valid_binary (SF64sub x (S754_finite false mc ec)) = true ->
  SFltb x (SF64sub x (S754_finite false mc ec)) = false.
Proof.
  intros Hx Hc Hr. unfold SF64sub in *.
  destruct x as [sx|sx| |sx mx ex].
  - done.
  - by destruct sx.
  - done.
  - cbn [valid_binary] in Hx.
    apply bounded_inv in Hx as (Hcx & Hex & Hex0).
    apply bounded_inv in Hc as (Hcc & Hec & Hec0).
    cbn [SFsub] in Hr |- *.
    set (ez := Z.min ex ec) in *.
    destruct (shl_align_spec mx ex ez) as (Mx & Ex & HMx).
    destruct (shl_align_spec mc ec ez) as (Mc & Ec & HMc).
    rewrite Ex, Ec in Hr |- *. cbn [fst] in Hr |- *.
    replace (Z.min ex ez) with ez in HMx by lia.
    replace (Z.min ec ez) with ez in HMc by lia.
    assert (Hez : -1074 <= ez) by lia.
    assert (HP : 0 < 2 ^ (ez + 1074)) by (apply pow2_pos; lia).
    assert (HMxv : Z.pos Mx * 2 ^ (ez + 1074) = Z.pos mx * 2 ^ (ex + 1074)).
    { rewrite HMx. rewrite <- Z.mul_assoc, <- pow2_split by lia.
      by replace (ex - ez + (ez + 1074)) with (ex + 1074) by lia. }
    destruct sx; cbn [cond_Zopp] in Hr |- *.
    + (* a negative [x] *)
      change (Z.opp (Z.pos Mx) - Z.pos Mc) with (Z.neg (Mx + Mc)) in Hr |- *.
      cbn [binary_normalize] in Hr |- *.
      pose proof (binary_round_above (Mx + Mc) mx ez ex Hez Hcx) as Hab.
      rewrite !sval_eq in Hab.
      assert (Hle : Z.pos mx * 2 ^ (ex + 1074)
                    <= Z.pos (Mx + Mc) * 2 ^ (ez + 1074)).
      { rewrite <- HMxv. apply Z.mul_le_mono_nonneg_r; lia. }
      specialize (Hab Hle).
      destruct (binary_round prec emax true (Mx + Mc) ez)
        as [s|s| |s m e]; [done|by subst s|done|].
      destruct Hab as (-> & He & Hv).
      apply bounded_inv in Hr as (Hcr & _ & _).
      rewrite <- !sval_eq in Hv.
      destruct (canonical_le_lex mx m ex e Hcx Hcr Hv) as [Hlt|[-> Hm]].
      * unfold SFltb, SFcompare. by rewrite (proj2 (Z.compare_lt_iff ex e) Hlt).
      * unfold SFltb, SFcompare. rewrite Z.compare_refl.
        fold (Pos.compare mx m).
        destruct (Pos.compare_spec mx m); try done. lia.
    + (* a positive [x] *)
      destruct (Z.pos Mx - Z.pos Mc) as [|p|p] eqn:HD;
        cbn [binary_normalize] in Hr |- *.
      * done.
      * pose proof (binary_round_below p mx ez ex Hez Hcx Hex) as Hbe.
        rewrite !sval_eq in Hbe.
        assert (Hle : Z.pos p * 2 ^ (ez + 1074)
                      <= Z.pos mx * 2 ^ (ex + 1074)).
        { rewrite <- HMxv. apply Z.mul_le_mono_nonneg_r; lia. }
        specialize (Hbe Hle).
        destruct (binary_round prec emax false p ez)
          as [s|s| |s m e]; [done|done|done|].
        destruct Hbe as (-> & He & Hv).
        apply bounded_inv in Hr as (Hcr & _ & _).
        rewrite <- !sval_eq in Hv.
        destruct (canonical_le_lex m mx e ex Hcr Hcx Hv) as [Hlt|[-> Hm]].
        -- unfold SFltb, SFcompare.
           by rewrite (proj2 (Z.compare_gt_iff ex e) Hlt).
        -- unfold SFltb, SFcompare. rewrite Z.compare_refl.
           fold (Pos.compare mx m).
           destruct (Pos.compare_spec mx m); try done. lia.
      * destruct (binary_round_steps true p ez) as (l & _ & ->).
        by apply round_result_true_not_above.
Qed.

(** The same on the floats of the processor: [x - c] is never above [x]
    for a positive [c], whatever [x] is. *)
Lemma sub_not_above (x c : float) (mc : positive) (ec : Z) :
  Prim2SF c = S754_finite false mc ec ->
  (x <? x - c)%float = false.
Proof.
  intros Hc. rewrite FloatAxioms.ltb_spec, FloatAxioms.sub_spec, Hc.
  apply SFsub_not_above.
  - apply Prim2SF_valid.
  - pose proof (Prim2SF_valid c) as Hv. by rewrite Hc in Hv.
  - rewrite <- Hc, <- FloatAxioms.sub_spec. apply Prim2SF_valid.
Qed.

(** *** The order of the floats *)

(** The comparison of two floats that are not NaN is that of their keys. *)
Lemma SFcompare_key (x y : spec_float) :
  x <> S754_nan -> y <> S754_nan ->
  match SFcompare x y with
  | Some Lt => key_lt (SFkey x) (SFkey y)
  | Some Eq => ~ key_lt (SFkey x) (SFkey y) /\ ~ key_lt (SFkey y) (SFkey x)
  | Some Gt => key_lt (SFkey y) (SFkey x)
  | None => False
  end.
Proof.
  intros Hx Hy. unfold key_lt.
  destruct x as [sx|sx| |sx mx ex], y as [sy|sy| |sy my ey]; try done;
    try (destruct sx); try (destruct sy); cbn; try lia.
  - destruct (Z.compare_spec ex ey); cbn; try lia.
    fold (Pos.compare mx my). destruct (Pos.compare_spec mx my); cbn; lia.
  - destruct (Z.compare_spec ex ey); cbn; try lia.
    fold (Pos.compare mx my). destruct (Pos.compare_spec mx my); cbn; lia.
Qed.

Lemma is_nan_Prim2SF (x : float) :
  is_nan x = true <-> Prim2SF x = S754_nan.
Proof.
  unfold is_nan. rewrite FloatAxioms.eqb_spec. unfold SFeqb.
  destruct (Prim2SF x) as [s|s| |s m e] eqn:Hx.
  - cbn. split; done.
  - cbn. destruct s; split; done.
  - cbn. split; done.
  - pose proof (SFcompare_key (S754_finite s m e) (S754_finite s m e)
                  ltac:(done) ltac:(done)) as Hk.
    destruct (SFcompare (S754_finite s m e) (S754_finite s m e)) as [[]|].
    + cbn. split; done.
    + exfalso. unfold key_lt in Hk. lia.
    + exfalso. unfold key_lt in Hk. lia.
    + done.
Qed.

Lemma is_nan_false (x : float) :
  is_nan x = false <-> Prim2SF x <> S754_nan.
Proof.
  rewrite <- is_nan_Prim2SF. by destruct (is_nan x).
Qed.

Lemma ltb_key (x y : float) :
  (x <? y)%float = true
  <-> is_nan x = false /\ is_nan y = false /\ key_lt (fkey x) (fkey y).
Proof.
  rewrite FloatAxioms.ltb_spec, !is_nan_false. unfold SFltb, fkey.
  destruct (Prim2SF x) as [sx|sx| |sx mx ex] eqn:Hx;
    try (split; [done|by intros (? & ? & ?)]);
    destruct (Prim2SF y) as [sy|sy| |sy my ey] eqn:Hy;
    try (split; [by destruct sx|by intros (? & ? & ?)]);
    match goal with
    | |- context [SFcompare ?a ?b] =>
        pose proof (SFcompare_key a b ltac:(done) ltac:(done)) as Hk;
        destruct (SFcompare a b) as [[]|]; try done;
        unfold key_lt in *; split; try done; try (intros (_ & _ & ?); lia)
    end.
Qed.

Lemma leb_key (x y : float) :
  (x <=? y)%float = true
  <-> is_nan x = false /\ is_nan y = false /\ ~ key_lt (fkey y) (fkey x).
Proof.
  rewrite FloatAxioms.leb_spec, !is_nan_false. unfold SFleb, fkey.
  destruct (Prim2SF x) as [sx|sx| |sx mx ex] eqn:Hx;
    try (split; [done|by intros (? & ? & ?)]);
    destruct (Prim2SF y) as [sy|sy| |sy my ey] eqn:Hy;
    try (split; [by destruct sx|by intros (? & ? & ?)]);
    match goal with
    | |- context [SFcompare ?a ?b] =>
        pose proof (SFcompare_key a b ltac:(done) ltac:(done)) as Hk;
        destruct (SFcompare a b) as [[]|]; try done;
        unfold key_lt in *; split; try done; try (intros (_ & _ & ?); lia);
        intros _; repeat split; try done; lia
    end.
Qed.

Lemma ltb_not_nan (x y : float) :
  (x <? y)%float = true -> is_nan x = false /\ is_nan y = false.
Proof. intros (? & ? & _)%ltb_key. done. Qed.

Lemma ltb_leb_trans (x y z : float) :
  (x <? y)%float = true -> (y <=? z)%float = true -> (x <? z)%float = true.
Proof.
  rewrite !ltb_key, leb_key. unfold key_lt.
  intros (? & ? & ?) (? & ? & ?). repeat split; try done. lia.
Qed.

Lemma leb_trans (x y z : float) :
  (x <=? y)%float = true -> (y <=? z)%float = true -> (x <=? z)%float = true.
Proof.
  rewrite !leb_key. unfold key_lt.
  intros (? & ? & ?) (? & ? & ?). repeat split; try done. lia.
Qed.

Lemma leb_refl (x : float) : is_nan x = false -> (x <=? x)%float = true.
Proof. intros. apply leb_key. unfold key_lt. repeat split; try done. lia. Qed.

Lemma ltb_leb (x y : float) :
  (x <? y)%float = true -> (x <=? y)%float = true.
Proof.
  rewrite ltb_key, leb_key. unfold key_lt.
  intros (? & ? & ?). repeat split; try done. lia.
Qed.

Lemma ltb_false_leb (x y : float) :
  is_nan x = false -> is_nan y = false ->
  (x <? y)%float = false -> (y <=? x)%float = true.
Proof.
  intros Hx Hy Hlt. apply leb_key. repeat split; try done.
  intros Hk. assert ((x <? y)%float = true) by (by apply ltb_key).
  congruence.
Qed.

(** *** The maximum of a column *)

Lemma foldl_float_max_spec (xs : list float) (x : float) :
  is_nan x = false ->
  Forall (fun y => is_nan y = false) xs ->
  foldl float_max x xs ∈ x :: xs
  /\ is_nan (foldl float_max x xs) = false
  /\ Forall (fun y => (y <=? foldl float_max x xs)%float = true) (x :: xs).
Proof.
  revert x. induction xs as [|y xs IH]; intros x Hx Hxs; cbn [foldl].
  - split; [apply list_elem_of_here|]. split; [done|].
    constructor; [by apply leb_refl|constructor].
  - apply Forall_cons in Hxs as [Hy Hxs].
    assert (Hm : is_nan (float_max x y) = false)
      by (unfold float_max; by destruct (x <? y)%float).
    destruct (IH (float_max x y) Hm Hxs) as (Hin & Hnan & Hle).
    apply Forall_cons in Hle as [Hle0 Hle].
    assert (Hxm : (x <=? float_max x y)%float = true).
    { unfold float_max. destruct (x <? y)%float eqn:E;
        [by apply ltb_leb|by apply leb_refl]. }
    assert (Hym : (y <=? float_max x y)%float = true).
    { unfold float_max. destruct (x <? y)%float eqn:E;
        [by apply leb_refl|by apply ltb_false_leb]. }
    split; [|split; [done|]].
    + apply elem_of_cons in Hin as [Heq|Hin].
      * rewrite Heq. unfold float_max. destruct (x <? y)%float.
        -- apply list_elem_of_further, list_elem_of_here.
        -- apply list_elem_of_here.
      * by do 2 apply list_elem_of_further.
    + constructor; [by apply (leb_trans _ (float_max x y))|].
      constructor; [by apply (leb_trans _ (float_max x y))|done].
Qed.

Lemma filter_not_nan_nil (xs : list float) :
  Forall (fun x => is_nan x = true) xs ->
  filter (fun x => is_nan x = false) xs = [].
Proof.
  induction 1 as [|x xs Hx _ IH]; [done|].
  rewrite filter_cons, IH. rewrite decide_False; [done|congruence].
Qed.

(** Two floats that compare equal give the same difference. *)
Lemma sub_leb_antisym (x y c : float) (mc : positive) (ec : Z) :
  Prim2SF c = S754_finite false mc ec ->
  (x <=? y)%float = true -> (y <=? x)%float = true ->
  (x - c)%float = (y - c)%float.
Proof.
  intros Hc. rewrite !leb_key. unfold key_lt, fkey.
  intros (Hx & Hy & H1) (_ & _ & H2).
  apply is_nan_false in Hx, Hy.
  apply Prim2SF_inj. rewrite !FloatAxioms.sub_spec, Hc. unfold SF64sub.
  destruct (Prim2SF x) as [sx|sx| |sx mx ex], (Prim2SF y) as [sy|sy| |sy my ey];
    try done; try (destruct sx); try (destruct sy); cbn in H1, H2;
    try lia; try done.
  - assert (ex = ey) as -> by lia. assert (mx = my) as -> by lia. done.
  - assert (ex = ey) as -> by lia. assert (mx = my) as -> by lia. done.
Qed.

(** *** NaN and the constant 0.01 *)

Lemma ltb_nan_r (x : float) : (x <? nan)%float = false.
Proof.
  rewrite FloatAxioms.ltb_spec.
  replace (Prim2SF nan) with S754_nan by (vm_compute; reflexivity).
  unfold SFltb, SFcompare. by destruct (Prim2SF x).
Qed.

Lemma hundredth_finite :
  Prim2SF 0.01%float = S754_finite false 5764607523034235 (-59).
Proof. vm_compute. reflexivity. Qed.

Lemma nan_sub_hundredth : (nan - 0.01)%float = nan.
Proof. vm_compute. reflexivity. Qed.

End Binary64Facts.

(** Evaluate [float_value] at the literals of the goal. *)
Ltac float_values :=
  unfold float_value;
  repeat match goal with
         | |- context [Prim2SF ?x] =>
             let sf := eval vm_compute in (Prim2SF x) in
             replace (Prim2SF x) with sf by (vm_compute; reflexivity)
         end;
  cbn [SF2R];
  repeat match goal with
         | |- context [IZR (?a ^ ?n)] =>
             let v := eval vm_compute in (a ^ n)%Z in
             change (a ^ n)%Z with v
         | |- context [IZR (?a * ?b)] =>
             let v := eval vm_compute in (a * b)%Z in
             change (a * b)%Z with v
         end.

(** ** summarize.py *)

Module SummarizeFacts.
Import LandingRange Planar Summarize SummarizeSpec Binary64Facts.

(** *** delete_final_point *)

Lemma foldl_Rmax_spec (xs : list R) (x : R) :
  foldl Rmax x xs ∈ x :: xs
  /\ Forall (fun y => y <= foldl Rmax x xs) (x :: xs).
Proof.
  revert x. induction xs as [|y xs IH]; intros x; simpl.
  - split; [apply list_elem_of_here|]. constructor; [lra|constructor].
  - destruct (IH (Rmax x y)) as [Hin Hle]. split.
    + apply elem_of_cons in Hin as [Heq|Hin].
      * rewrite Heq. unfold Rmax. destruct (Rle_dec x y).
        -- apply list_elem_of_further, list_elem_of_here.
        -- apply list_elem_of_here.
      * by do 2 apply list_elem_of_further.
    + apply Forall_cons in Hle as [Hm Hle].
      pose proof (Rmax_l x y). pose proof (Rmax_r x y).
      cbn beta in Hm.
      constructor; [lra|]. constructor; [lra|exact Hle].
Qed.

Lemma series_max_spec (xs : list R) (m : R) :
  series_max xs = Some m -> m ∈ xs /\ Forall (fun y => y <= m) xs.
Proof.
  destruct xs as [|x xs]; simpl; [done|].
  intros [= <-]. apply foldl_Rmax_spec.
Qed.

Lemma float_series_max_nan (xs : list float) :
  Forall (fun x => is_nan x = true) xs -> float_series_max xs = nan.
Proof.
  intros Hall. unfold float_series_max. by rewrite filter_not_nan_nil.
Qed.

Lemma float_series_max_spec (xs : list float) (x : float) :
  x ∈ xs -> is_nan x = false ->
  float_series_max xs ∈ xs
  /\ is_nan (float_series_max xs) = false
  /\ forall y, y ∈ xs -> is_nan y = false ->
               (y <=? float_series_max xs)%float = true.
Proof.
  intros Hin Hx. unfold float_series_max.
  assert (Hf : x ∈ filter (fun x => is_nan x = false) xs)
    by (by apply list_elem_of_filter).
  destruct (filter (fun x => is_nan x = false) xs) as [|x0 rest] eqn:Hfl;
    [by apply elem_of_nil in Hf|].
  assert (Hall : Forall (fun y => is_nan y = false) (x0 :: rest)).
  { rewrite <- Hfl. apply Forall_forall. intros y Hy.
    by apply list_elem_of_filter in Hy as [? _]. }
  apply Forall_cons in Hall as [Hx0 Hrest].
  destruct (foldl_float_max_spec rest x0 Hx0 Hrest) as (Hm & Hnan & Hle).
  split; [|split; [done|]].
  - rewrite <- Hfl in Hm. by apply list_elem_of_filter in Hm as [_ ?].
  - intros y Hy Hny. rewrite Forall_forall in Hle. apply Hle.
    rewrite <- Hfl. by apply list_elem_of_filter.
Qed.

(** What [s.max()] returns on the [Time] column is its greatest [Time]. *)
Lemma float_series_max_greatest_time (table : list record) (r : record) :
  r ∈ table -> is_nan (Time (raw r)) = false ->
  greatest_time table (float_series_max (map (fun r => Time (raw r)) table)).
Proof.
  intros Hr Hn.
  destruct (float_series_max_spec (map (fun r => Time (raw r)) table)
              (Time (raw r))) as (Hin & Hnan & Hle); [|done|].
  { apply list_elem_of_fmap. by exists r. }
  split; [done|]. split.
  - apply list_elem_of_fmap in Hin as (r' & Heq & Hr'). by exists r'.
  - intros r' Hr' Hn'. apply Hle; [|done]. apply list_elem_of_fmap.
    by exists r'.
Qed.

(** Two greatest times can only differ in the sign of a zero, and give the
    same threshold. *)
Lemma greatest_time_threshold (table : list record) (m m' : float) :
  greatest_time table m -> greatest_time table m' ->
  (m - 0.01)%float = (m' - 0.01)%float.
Proof.
  intros (Hn & (r & Hr & Hrm) & Hle) (Hn' & (r' & Hr' & Hrm') & Hle').
  apply (sub_leb_antisym _ _ _ _ _ hundredth_finite).
  - rewrite <- Hrm. apply Hle'; [done|by rewrite Hrm].
  - rewrite <- Hrm'. apply Hle; [done|by rewrite Hrm'].
Qed.

(** A time below the threshold is before the greatest time: the rounded
    difference is never above the number that 0.01 was taken from. *)
Lemma below_threshold_before (t m : float) :
  is_nan m = false ->
  (t <? m - 0.01)%float = true -> (t <? m)%float = true.
Proof.
  intros Hm Hlt. apply (ltb_leb_trans _ (m - 0.01)); [done|].
  apply ltb_false_leb; [done|by apply ltb_not_nan in Hlt as [_ ?]|].
  apply (sub_not_above _ _ _ _ hundredth_finite).
Qed.

Lemma without_final_point_nan (table : list record) :
  Forall (fun r => is_nan (Time (raw r)) = true) table ->
  without_final_point table = [].
Proof.
  intros Hall. unfold without_final_point. cbn zeta.
  rewrite float_series_max_nan by (by apply Forall_fmap).
  rewrite nan_sub_hundredth. clear Hall.
  induction table as [|r table IH]; [done|].
  rewrite filter_cons, IH. rewrite decide_False; [done|].
  rewrite ltb_nan_r. intros [].
Qed.

(** C10, as amended.  [delete_final_point] rewrites the table of the run so
    that it holds exactly the records whose [Time] is below the binary64
    difference of the greatest [Time] of the table and 0.01, in their order
    and unchanged; every record left is strictly before the greatest
    [Time], so that no record at the greatest [Time] is left; and a table
    in which no [Time] is a number, as the empty one, becomes empty. *)
Theorem delete_final_point_keeps_earlier
    (fs : csv_files) (row : output_info) (table : list record) :
  fs !! raw_output_file row = Some table ->
  exists kept : list record,
    delete_final_point fs row = Ok (<[raw_output_file row := kept]> fs)
    /\ (Forall (fun r => is_nan (Time (raw r)) = true) table -> kept = [])
    /\ forall time_max,
         greatest_time table time_max ->
         kept = filter (fun r => Time (raw r) <? time_max - 0.01)%float table
         /\ Forall (fun r => (Time (raw r) <? time_max)%float = true) kept.
Proof.
  intros Hfile. exists (without_final_point table).
  split; [|split].
  - unfold delete_final_point, read_csv. by rewrite Hfile.
  - apply without_final_point_nan.
  - intros time_max Hmax.
    pose proof Hmax as (Hn & (r & Hr & Hrm) & _).
    assert (Hmodel := float_series_max_greatest_time table r Hr
                        ltac:(by rewrite Hrm)).
    unfold without_final_point. cbn zeta.
    rewrite (greatest_time_threshold _ _ _ Hmodel Hmax).
    split; [reflexivity|].
    apply Forall_forall. intros r' [Hlt _]%list_elem_of_filter.
    apply below_threshold_before; [done|]. by apply Is_true_true.
Qed.

Lemma delete_final_point_keeps_earlier_witness :
  exists kept : list record,
    delete_final_point {[ "run0.csv"%string := four_steps ]} run
    = Ok (<["run0.csv"%string := kept]> {[ "run0.csv"%string := four_steps ]})
    /\ (Forall (fun r => is_nan (Time (raw r)) = true) four_steps -> kept = [])
    /\ forall time_max,
         greatest_time four_steps time_max ->
         kept = filter (fun r => Time (raw r) <? time_max - 0.01)%float
                       four_steps
         /\ Forall (fun r => (Time (raw r) <? time_max)%float = true) kept.
Proof.
  apply (delete_final_point_keeps_earlier
           {[ "run0.csv"%string := four_steps ]} run four_steps).
  apply lookup_singleton_eq.
Defined.

(** Evaluate [without_final_point] on a table whose times are literals. *)
Ltac without_final_point_eval :=
  unfold without_final_point;
  cbn [map Time raw processed step at_time];
  match goal with
  | |- context [float_series_max ?l] =>
      let v := eval vm_compute in (float_series_max l) in
      change (float_series_max l) with v
  end;
  cbn zeta; rewrite ?filter_cons, ?filter_nil;
  cbn [Time raw processed step at_time];
  repeat match goal with
         | |- context [decide (Is_true ?b)] =>
             let v := eval vm_compute in b in
             change (decide (Is_true b)) with (decide (Is_true v))
         end;
  cbn [decide Is_true_dec Is_true True_dec False_dec].

(** On these four records the two last ones go: 0.995 is not below the
    difference of 1 and 0.01. *)
Example delete_final_point_four_steps :
  without_final_point four_steps
  = [processed (step 0 0 0 0); processed (step 0.5 40 30 500)].
Proof.
  unfold four_steps. without_final_point_eval. reflexivity.
Qed.

Lemma greatest_time_hundredths : greatest_time hundredths 0.07.
Proof.
  split; [by vm_compute|]. split.
  - exists (at_time 0.07). split; [|done].
    unfold hundredths. do 2 apply list_elem_of_further. apply list_elem_of_here.
  - intros r Hr _. unfold hundredths in Hr.
    repeat (apply elem_of_cons in Hr as [->|Hr]);
      [..|by apply elem_of_nil in Hr];
      cbn [Time raw processed step at_time]; by vm_compute.
Qed.

Lemma greatest_time_to_one : greatest_time to_one 1.
Proof.
  split; [by vm_compute|]. split.
  - exists (at_time 1). split; [|done].
    unfold to_one. do 2 apply list_elem_of_further. apply list_elem_of_here.
  - intros r Hr _. unfold to_one in Hr.
    repeat (apply elem_of_cons in Hr as [->|Hr]);
      [..|by apply elem_of_nil in Hr];
      cbn [Time raw processed step at_time]; by vm_compute.
Qed.

(** C10 as the specification states it, with the exact difference, fails.
    Read on the decimals that the file shows: in a table sampled at 0.05,
    0.06 and 0.07 the record at 0.06 is kept, though 0.06 is not below
    0.07 - 0.01; the rounded difference of the floats is
    0.060000000000000005.  Read on the numbers that the floats hold: in a
    table with the times 0.5, 0.99 and 1 the record at 0.99 is dropped,
    though the number it holds is below the exact difference of 1 and 0.01;
    the rounded difference is that number itself. *)
Lemma delete_final_point_not_exact_difference :
  (greatest_time hundredths 0.07
   /\ delete_final_point {[ "run0.csv"%string := hundredths ]} run
      = Ok (<["run0.csv"%string := [at_time 0.05; at_time 0.06]]>
              {[ "run0.csv"%string := hundredths ]})
   /\ Rabs (float_value 0.06 - 0.06) < 1 / 10 ^ 17
   /\ Rabs (float_value 0.07 - 0.07) < 1 / 10 ^ 17
   /\ ~ (0.06 < 0.07 - 0.01))
  /\ (greatest_time to_one 1
      /\ delete_final_point {[ "run0.csv"%string := to_one ]} run
         = Ok (<["run0.csv"%string := [at_time 0.5]]>
                 {[ "run0.csv"%string := to_one ]})
      /\ float_value 0.99 < float_value 1 - 0.01).
Proof.
  split.
  - split; [exact greatest_time_hundredths|]. split.
    { assert (Hkept : without_final_point hundredths
                      = [at_time 0.05; at_time 0.06])
        by (unfold hundredths; without_final_point_eval; reflexivity).
      unfold delete_final_point, read_csv. cbn [raw_output_file run].
      rewrite lookup_singleton_eq. cbn [mbind result_bind].
      by rewrite Hkept. }
    split; [float_values; apply Rabs_def1; lra|].
    split; [float_values; apply Rabs_def1; lra|]. lra.
  - split; [exact greatest_time_to_one|]. split.
    { assert (Hkept : without_final_point to_one = [at_time 0.5])
        by (unfold to_one; without_final_point_eval; reflexivity).
      unfold delete_final_point, read_csv. cbn [raw_output_file run].
      rewrite lookup_singleton_eq. cbn [mbind result_bind].
      by rewrite Hkept. }
    float_values. lra.
Qed.

(** *** The load metric *)

Lemma derive_qbar_atan_aoa (r : record) :
  qbar_atan_aoa (derive r)
  = dynamic_pressure (derive r) * degrees (angle_of_attack_gust (derive r)).
Proof. reflexivity. Qed.

Lemma derived_frame_rec (output_df : list record) :
  map rec (derived_frame output_df) = output_df.
Proof.
  unfold derived_frame. rewrite <- list_fmap_compose.
  induction output_df as [|r l IH]; simpl; [done|]. by f_equal.
Qed.

(** C1, as the code has it.  The load metric of every row of [df] is taken
    from the row's dynamic pressure and its gust angle of attack, the column
    that [calculate_aoa] wrote in degrees, not from the total angle of
    attack: it is their product times a positive factor that is the same
    for every row and every table. *)
Theorem qbar_atan_aoa_from_gust_aoa :
  exists k : R,
    0 < k
    /\ forall output_df : list record,
         map rec (derived_frame output_df) = output_df
         /\ Forall (fun d => qbar_atan_aoa d
                             = k * (dynamic_pressure d * angle_of_attack_gust d))
                   (derived_frame output_df).
Proof.
  exists (180 / PI). split.
  - apply Rdiv_lt_0_compat; [lra|apply PI_RGT_0].
  - intros output_df. split; [apply derived_frame_rec|].
    unfold derived_frame. apply Forall_fmap, Forall_forall.
    intros r _.
    change (qbar_atan_aoa (derive r)
            = 180 / PI * (dynamic_pressure (derive r)
                          * angle_of_attack_gust (derive r))).
    rewrite derive_qbar_atan_aoa. unfold degrees. ring.
Qed.

(** The gust angle of attack of a record flying straight at 12 m/s. *)
Lemma aoa_of_straight (t : float) (alt q : R) :
  aoa_of (step t alt 12 q)
  = {| Angle_of_Attack_total := 0;
       Angle_of_Attack_gust := degrees (acos 0.8);
       True_Velocity_gust := 12 |}.
Proof.
  unfold aoa_of, step, radians, degrees, VGUST. simpl.
  rewrite !Rmult_0_l, cos_0, sin_0.
  replace (12 * 12 + 9.0 * 9.0 * 1 * 1) with (15 * 15) by lra.
  rewrite sqrt_square by lra.
  replace (1 * 1) with 1 by lra. rewrite acos_1.
  replace (1 * (12 * 1 - 9.0 * 0) / 15) with 0.8 by lra.
  f_equal; lra.
Qed.

Lemma acos_08_pos : acos 0.8 <> 0.
Proof.
  intros Hz. assert (Hc : cos (acos 0.8) = 0.8) by (apply cos_acos; lra).
  rewrite Hz, cos_0 in Hc. lra.
Qed.

(** C1 as the specification states it fails: a record flying straight
    (angle of attack and sideslip 0) has total angle of attack 0, but its
    load metric is not 0, because the gust angle of attack is not. *)
Lemma qbar_atan_aoa_not_total_aoa :
  ~ (forall output_df : list record,
       Forall (fun d => qbar_atan_aoa d
                        = dynamic_pressure d * angle_of_attack_total d)
              (derived_frame output_df)).
Proof.
  intros Hspec.
  specialize (Hspec [processed (step 0.5 40 12 500)]).
  apply Forall_inv in Hspec.
  unfold derive, qbar_atan_aoa, dynamic_pressure, angle_of_attack_total,
    processed in Hspec.
  cbn [rec raw aoa] in Hspec. rewrite aoa_of_straight in Hspec.
  cbn [Angle_of_Attack_gust Angle_of_Attack_total Dynamic_Pressure step]
    in Hspec.
  unfold degrees in Hspec.
  pose proof PI_RGT_0 as Hpi.
  assert (Hk : 0 < 180 / PI) by (apply Rdiv_lt_0_compat; lra).
  assert (Hz : acos 0.8 * (180 / PI) * (180 / PI) = 0) by lra.
  apply Rmult_integral in Hz as [Hz|Hz]; [|lra].
  apply Rmult_integral in Hz as [Hz|Hz]; [|lra].
  by apply acos_08_pos.
Qed.

(** *** Unregistered sites *)

(** C2, as the code has it.  For a site key without a registered evaluator
    every operation returns a degenerate table without raising:
    [generate_landing_range_table] the empty frame, and both
    [get_extrema_analysis] and [generate_final_points_dataframe] the frame
    of one row whose only column, [landing_range], holds 0. *)
Theorem unregistered_site_degenerate `{Geopy}
    (LAUNCH_SITES : registry) (landing_range_script : string)
    (simulation_df : run_table) (fs : csv_files) (output_info_df : output_info)
    (grouped_df : Kml.grouped) :
  LAUNCH_SITES !! landing_range_script = None ->
  generate_landing_range_table LAUNCH_SITES simulation_df landing_range_script
  = Ok empty_frame
  /\ get_extrema_analysis LAUNCH_SITES fs output_info_df landing_range_script
     = Ok [[("landing_range"%string, Num 0)]]
  /\ generate_final_points_dataframe LAUNCH_SITES grouped_df landing_range_script
     = Ok [[("landing_range"%string, Num 0)]].
Proof.
  intros Hnone.
  unfold generate_landing_range_table, get_extrema_analysis,
    generate_final_points_dataframe.
  by rewrite Hnone.
Qed.

Lemma unregistered_site_degenerate_witness :
  generate_landing_range_table one_site
    {| columns := [Tuple ["wind"; "ground_wind_speed"];
                   Tuple ["wind"; "ground_wind_dir"]];
       rows := [] |} "taiki"
  = Ok empty_frame
  /\ get_extrema_analysis one_site {[ "run0.csv"%string := four_steps ]} run "taiki"
     = Ok [[("landing_range"%string, Num 0)]]
  /\ generate_final_points_dataframe one_site [] "taiki"
     = Ok [[("landing_range"%string, Num 0)]].
Proof.
  apply unregistered_site_degenerate.
  apply lookup_singleton_ne. discriminate.
Defined.

(** C2 as the specification states it fails: [get_extrema_analysis] does not
    raise for an unregistered site key. *)
Lemma get_extrema_analysis_unregistered_no_error :
  ~ (forall (LAUNCH_SITES : registry) (fs : csv_files)
            (output_info_df : output_info) (landing_range_script : string),
       LAUNCH_SITES !! landing_range_script = None ->
       raises (get_extrema_analysis LAUNCH_SITES fs output_info_df
                                    landing_range_script)).
Proof.
  intros Hspec.
  destruct (Hspec one_site {[ "run0.csv"%string := four_steps ]} run "taiki")
    as [e He].
  - apply lookup_singleton_ne. discriminate.
  - unfold get_extrema_analysis, one_site in He.
    rewrite lookup_singleton_ne in He by discriminate. discriminate.
Qed.

(** *** The launch-clear threshold *)

Lemma foldl_pick_in {A : Type} (pick : A -> A -> A) (s : list A) (c : A) :
  (forall best d, pick best d = d \/ pick best d = best) ->
  foldl pick c s ∈ c :: s.
Proof.
  intros Hpick. revert c. induction s as [|d s IH]; intros c; simpl.
  - apply list_elem_of_here.
  - destruct (Hpick c d) as [-> | ->].
    + apply list_elem_of_further, IH.
    + specialize (IH c). apply elem_of_cons in IH as [->|Hin].
      * apply list_elem_of_here.
      * by do 2 apply list_elem_of_further.
Qed.

Lemma idxmin_in (s : series) (i : nat) :
  idxmin s = Ok i -> exists v, (i, v) ∈ s.
Proof.
  destruct s as [|c s]; simpl; [done|]. intros [= <-].
  eexists. rewrite <- surjective_pairing.
  apply foldl_pick_in. intros best d. case_decide; auto.
Qed.

Lemma idxmin_column_loc {A : Type} (f : A -> R) (df : list A) (i : nat) :
  idxmin (column f df) = Ok i -> exists r, loc df i = Ok r.
Proof.
  intros Hi. apply idxmin_in in Hi as [v Hin].
  apply elem_of_lookup_imap_1 in Hin as (j & r & [= -> ->] & Hr).
  exists r. unfold loc. by rewrite Hr.
Qed.

Lemma idxmin_empty_column {A : Type} (f : A -> R) (df : list A) (e : exn) :
  idxmin (column f df) = Raise e -> e = ValueError.
Proof.
  destruct (column f df); simpl; by intros [= <-].
Qed.

Lemma never_clear_filter (h : R) (table : list record) :
  Forall (fun r => Altitude (raw r) <= h) table ->
  filter (fun c : nat * derived => altitude c.2 > h)
         (imap (fun i r => (i, r)) (derived_frame table)) = [].
Proof.
  intros Hlow.
  destruct (filter _ _) as [|c l] eqn:Hf; [done|].
  assert (Hin : c ∈ c :: l) by apply list_elem_of_here.
  rewrite <- Hf in Hin. apply list_elem_of_filter in Hin as [Hgt Hin].
  apply elem_of_lookup_imap_1 in Hin as (i & d & -> & Hd).
  unfold derived_frame in Hd. rewrite list_lookup_fmap in Hd.
  destruct (table !! i) as [r|] eqn:Hr; [|done]. injection Hd as <-.
  rewrite Forall_forall in Hlow.
  specialize (Hlow r (list_elem_of_lookup_2 _ _ _ Hr)).
  unfold altitude in Hgt. simpl in Hgt. lra.
Qed.

Lemma never_clear_filter_records (h : R) (table : list record) :
  Forall (fun r => Altitude (raw r) <= h) table ->
  filter (fun r => Altitude (raw r) > h) table = [].
Proof.
  intros Hlow.
  destruct (filter _ _) as [|c l] eqn:Hf; [done|].
  assert (Hin : c ∈ c :: l) by apply list_elem_of_here.
  rewrite <- Hf in Hin. apply list_elem_of_filter in Hin as [Hgt Hin].
  rewrite Forall_forall in Hlow. specialize (Hlow c Hin). lra.
Qed.

(** C3, as the code has it.  When the site key has a registered evaluator
    and no record of the run is above the launch-clear threshold, the
    extrema analysis raises [ValueError] and the run summary raises
    [IndexError]: neither returns an index or a value. *)
Theorem launch_clear_never_reached `{Geopy}
    (LAUNCH_SITES : registry) (landing_range_script : string)
    (landing_range_obj : LandingRange)
    (fs : csv_files) (kmls : kml_files) (output_info_df : output_info)
    (output_dir : string) (table : list record) :
  LAUNCH_SITES !! landing_range_script = Some landing_range_obj ->
  fs !! raw_output_file output_info_df = Some table ->
  Forall (fun r => Altitude (raw r) <= launch_clear_height output_info_df) table ->
  get_extrema_analysis LAUNCH_SITES fs output_info_df landing_range_script
  = Raise ValueError
  /\ summarize_output_info_df fs kmls output_info_df output_dir
     = Raise IndexError.
Proof.
  intros Hsite Hfile Hlow. split.
  - unfold get_extrema_analysis, read_csv. rewrite Hsite, Hfile.
    cbn [mbind result_bind]. unfold find_extrema.
    destruct (idxmin (column time (derived_frame table))) as [i|e] eqn:Hi.
    + destruct (idxmin_column_loc _ _ _ Hi) as [r Hr].
      cbn [mbind result_bind]. unfold extremum_at. rewrite !Hr.
      cbn [mbind result_bind].
      by rewrite (never_clear_filter _ _ Hlow).
    + by rewrite (idxmin_empty_column _ _ _ Hi).
  - unfold summarize_output_info_df, read_csv. rewrite Hfile.
    cbn [mbind result_bind].
    by rewrite (never_clear_filter_records _ _ Hlow).
Qed.

Lemma on_the_rail_below :
  Forall (fun r => Altitude (raw r) <= launch_clear_height run) on_the_rail.
Proof.
  unfold launch_clear_height, run, on_the_rail, processed, step. simpl.
  pose proof PI_RGT_0 as Hpi.
  assert (Hsin : 0 <= sin (80 * PI / 180)) by (apply sin_ge_0; lra).
  repeat (match goal with |- Forall _ _ => constructor end); simpl; lra.
Qed.

Lemma launch_clear_never_reached_witness :
  get_extrema_analysis one_site {[ "run0.csv"%string := on_the_rail ]} run
                       "noshiro_sea"
  = Raise ValueError
  /\ summarize_output_info_df {[ "run0.csv"%string := on_the_rail ]} ∅ run "out"
     = Raise IndexError.
Proof.
  apply (launch_clear_never_reached one_site "noshiro_sea" NoshiroSea
           {[ "run0.csv"%string := on_the_rail ]} ∅ run "out" on_the_rail).
  - apply lookup_singleton_eq.
  - apply lookup_singleton_eq.
  - exact on_the_rail_below.
Defined.

(** C3 as the specification states it fails: for a site key without a
    registered evaluator the extrema analysis returns its degenerate table
    although no record is above the threshold. *)
Lemma launch_clear_never_reached_unregistered :
  ~ (forall (LAUNCH_SITES : registry) (landing_range_script : string)
            (fs : csv_files) (output_info_df : output_info)
            (table : list record),
       fs !! raw_output_file output_info_df = Some table ->
       Forall (fun r => Altitude (raw r) <= launch_clear_height output_info_df)
              table ->
       raises (get_extrema_analysis LAUNCH_SITES fs output_info_df
                                    landing_range_script)).
Proof.
  intros Hspec.
  destruct (Hspec ∅ "noshiro_sea"%string {[ "run0.csv"%string := on_the_rail ]}
              run on_the_rail) as [e He].
  - apply lookup_singleton_eq.
  - exact on_the_rail_below.
  - unfold get_extrema_analysis in He. rewrite lookup_empty in He. discriminate.
Qed.


(** *** The passes over the table *)

Lemma degrees_acos_bounds (x : R) : 0 <= degrees (acos x) <= 180.
Proof.
  unfold degrees. pose proof (acos_bound x) as [Hlo Hhi].
  pose proof PI_RGT_0 as Hpi.
  assert (Hk : 0 < 180 / PI) by (apply Rdiv_lt_0_compat; lra).
  split.
  - apply Rmult_le_pos; lra.
  - replace 180 with (PI * (180 / PI)) at 2 by (field; lra).
    apply Rmult_le_compat_r; lra.
Qed.

(** X13.  [calculate_aoa] rewrites the table of the run with the same
    records, their simulator columns and acceleration untouched.  The total
    angle of attack it writes lies between 0 and 180 degrees, the gust
    velocity differs from the true velocity by at most the gust speed
    of 9 m/s, and a record with angle of attack and sideslip 0 gets total
    angle of attack 0. *)
Theorem calculate_aoa_columns
    (fs : csv_files) (row : output_info) (table : list record) :
  fs !! raw_output_file row = Some table ->
  exists table' : list record,
    calculate_aoa fs row = Ok (<[raw_output_file row := table']> fs)
    /\ map raw table' = map raw table
    /\ map Acceleration table' = map Acceleration table
    /\ Forall (fun r =>
                 0 <= Angle_of_Attack_total (aoa r) <= 180
                 /\ Rabs (True_Velocity_gust (aoa r) - True_Velocity (raw r))
                    <= 9
                 /\ (Angle_of_Attack (raw r) = 0 ->
                     Angle_of_Sideslip (raw r) = 0 ->
                     Angle_of_Attack_total (aoa r) = 0))
              table'.
Proof.
  intros Hfile. eexists. split.
  { unfold calculate_aoa, read_csv. rewrite Hfile. reflexivity. }
  split; [|split].
  - rewrite <- list_fmap_compose. by apply list_fmap_ext.
  - rewrite <- list_fmap_compose. by apply list_fmap_ext.
  - apply Forall_fmap, Forall_forall. intros r _.
    unfold compose.
    cbn [aoa raw aoa_of Angle_of_Attack_total Angle_of_Attack_gust
         True_Velocity_gust].
    split; [apply degrees_acos_bounds|]. split.
    + unfold VGUST.
      pose proof (SIN_bound (radians (Angle_of_Sideslip (raw r)))) as [Hlo Hhi].
      apply Rabs_le. lra.
    + intros -> ->. unfold radians, degrees.
      rewrite !Rmult_0_l, cos_0, Rmult_1_l, acos_1. lra.
Qed.

Lemma calculate_aoa_columns_witness :
  exists table' : list record,
    calculate_aoa {[ "run0.csv"%string := four_steps ]} run
    = Ok (<["run0.csv"%string := table']> {[ "run0.csv"%string := four_steps ]})
    /\ map raw table' = map raw four_steps
    /\ map Acceleration table' = map Acceleration four_steps
    /\ Forall (fun r =>
                 0 <= Angle_of_Attack_total (aoa r) <= 180
                 /\ Rabs (True_Velocity_gust (aoa r) - True_Velocity (raw r))
                    <= 9
                 /\ (Angle_of_Attack (raw r) = 0 ->
                     Angle_of_Sideslip (raw r) = 0 ->
                     Angle_of_Attack_total (aoa r) = 0))
              table'.
Proof.
  apply (calculate_aoa_columns {[ "run0.csv"%string := four_steps ]} run
           four_steps).
  apply lookup_singleton_eq.
Defined.

Lemma sum_squares_nonneg (x y z : R) : 0 <= x ^ 2 + y ^ 2 + z ^ 2.
Proof.
  pose proof (pow2_ge_0 x). pose proof (pow2_ge_0 y). pose proof (pow2_ge_0 z).
  lra.
Qed.

Lemma Rabs_le_sqrt_sum (x y z : R) : Rabs x <= sqrt (x ^ 2 + y ^ 2 + z ^ 2).
Proof.
  rewrite <- (sqrt_Rsqr_abs x). rewrite Rsqr_pow2.
  apply sqrt_le_1; [apply pow2_ge_0|apply sum_squares_nonneg|].
  pose proof (pow2_ge_0 y). pose proof (pow2_ge_0 z). lra.
Qed.

(** X14.  [calculate_acceleration] rewrites the table with the same
    records, every other column untouched.  The acceleration it writes is
    not negative, its square is the sum of the squares of the three
    components, and it is at least the magnitude of each component. *)
Theorem calculate_acceleration_magnitude
    (fs : csv_files) (row : output_info) (table : list record) :
  fs !! raw_output_file row = Some table ->
  exists table' : list record,
    calculate_acceleration fs row = Ok (<[raw_output_file row := table']> fs)
    /\ map raw table' = map raw table
    /\ map aoa table' = map aoa table
    /\ Forall (fun r =>
                 0 <= Acceleration r
                 /\ Acceleration r * Acceleration r
                    = X_Acceleration (raw r) ^ 2 + Y_Acceleration (raw r) ^ 2
                      + Z_Acceleration (raw r) ^ 2
                 /\ Rabs (X_Acceleration (raw r)) <= Acceleration r
                 /\ Rabs (Y_Acceleration (raw r)) <= Acceleration r
                 /\ Rabs (Z_Acceleration (raw r)) <= Acceleration r)
              table'.
Proof.
  intros Hfile. eexists. split.
  { unfold calculate_acceleration, read_csv. rewrite Hfile. reflexivity. }
  split; [|split].
  - rewrite <- list_fmap_compose. by apply list_fmap_ext.
  - rewrite <- list_fmap_compose. by apply list_fmap_ext.
  - apply Forall_fmap, Forall_forall. intros r _.
    unfold compose. cbn [raw Acceleration].
    set (x := X_Acceleration (raw r)). set (y := Y_Acceleration (raw r)).
    set (z := Z_Acceleration (raw r)).
    split; [apply sqrt_pos|].
    split; [apply sqrt_sqrt, sum_squares_nonneg|].
    split; [apply Rabs_le_sqrt_sum|]. split.
    + replace (x ^ 2 + y ^ 2 + z ^ 2) with (y ^ 2 + x ^ 2 + z ^ 2) by ring.
      apply Rabs_le_sqrt_sum.
    + replace (x ^ 2 + y ^ 2 + z ^ 2) with (z ^ 2 + y ^ 2 + x ^ 2) by ring.
      apply Rabs_le_sqrt_sum.
Qed.

Lemma calculate_acceleration_magnitude_witness :
  exists table' : list record,
    calculate_acceleration {[ "run0.csv"%string := four_steps ]} run
    = Ok (<["run0.csv"%string := table']> {[ "run0.csv"%string := four_steps ]})
    /\ map raw table' = map raw four_steps
    /\ map aoa table' = map aoa four_steps
    /\ Forall (fun r =>
                 0 <= Acceleration r
                 /\ Acceleration r * Acceleration r
                    = X_Acceleration (raw r) ^ 2 + Y_Acceleration (raw r) ^ 2
                      + Z_Acceleration (raw r) ^ 2
                 /\ Rabs (X_Acceleration (raw r)) <= Acceleration r
                 /\ Rabs (Y_Acceleration (raw r)) <= Acceleration r
                 /\ Rabs (Z_Acceleration (raw r)) <= Acceleration r)
              table'.
Proof.
  apply (calculate_acceleration_magnitude
           {[ "run0.csv"%string := four_steps ]} run four_steps).
  apply lookup_singleton_eq.
Defined.

Lemma filter_fmap_compat {A : Type} (g : A -> A) (P : A -> Prop)
    `{!forall x, Decision (P x)} (l : list A) :
  (forall x, P (g x) <-> P x) ->
  filter P (map g l) = map g (filter P l).
Proof.
  intros Hg. induction l as [|x l IH]; [done|].
  cbn [map]. rewrite !filter_cons, IH.
  destruct (decide (P (g x))) as [Hy|Hn], (decide (P x)) as [Hy'|Hn'];
    try done.
  - exfalso. apply Hn'. by apply Hg.
  - exfalso. apply Hn. by apply Hg.
Qed.

Lemma without_final_point_fmap (g : record -> record) (table : list record) :
  (forall r, Time (raw (g r)) = Time (raw r)) ->
  without_final_point (map g table) = map g (without_final_point table).
Proof.
  intros Hg. unfold without_final_point. cbn zeta.
  rewrite <- list_fmap_compose.
  rewrite (list_fmap_ext _ (fun r => Time (raw r)) table)
    by (intros; apply Hg).
  apply filter_fmap_compat. intros r. by rewrite Hg.
Qed.

(** X15.  [calculate_aoa] and [delete_final_point] commute: dropping the
    last records before the angles are computed or after gives the same
    file. *)
Theorem calculate_aoa_delete_final_point_commute
    (fs : csv_files) (row : output_info) (table : list record) :
  fs !! raw_output_file row = Some table ->
  (fs' ← calculate_aoa fs row; delete_final_point fs' row)
  = (fs' ← delete_final_point fs row; calculate_aoa fs' row).
Proof.
  intros Hfile.
  unfold calculate_aoa, delete_final_point, read_csv. rewrite Hfile.
  cbn [mbind result_bind]. rewrite !lookup_insert_eq.
  cbn [mbind result_bind]. rewrite !insert_insert_eq.
  f_equal. f_equal.
  by apply (without_final_point_fmap
              (fun r => {| raw := raw r; aoa := aoa_of (raw r);
                           Acceleration := Acceleration r |})).
Qed.

Lemma calculate_aoa_delete_final_point_commute_witness :
  (fs' ← calculate_aoa {[ "run0.csv"%string := four_steps ]} run;
   delete_final_point fs' run)
  = (fs' ← delete_final_point {[ "run0.csv"%string := four_steps ]} run;
     calculate_aoa fs' run).
Proof.
  apply (calculate_aoa_delete_final_point_commute _ run four_steps).
  apply lookup_singleton_eq.
Defined.

(** X16.  [delete_final_point] always shortens a table that is not empty:
    what it keeps is a sublist of the table with fewer records, and a table
    of one record becomes empty. *)
Theorem delete_final_point_shortens
    (fs : csv_files) (row : output_info) (table : list record) :
  fs !! raw_output_file row = Some table ->
  table <> [] ->
  exists kept : list record,
    delete_final_point fs row = Ok (<[raw_output_file row := kept]> fs)
    /\ sublist kept table
    /\ (length kept < length table)%nat
    /\ (length table = 1%nat -> kept = []).
Proof.
  intros Hfile Hne. exists (without_final_point table).
  split; [unfold delete_final_point, read_csv; by rewrite Hfile|].
  assert (Hlt : (length (without_final_point table) < length table)%nat).
  { destruct (decide (Forall (fun r => is_nan (Time (raw r)) = true) table))
      as [Hall|Hsome].
    - rewrite without_final_point_nan by done.
      destruct table; [done|simpl; lia].
    - apply not_Forall_Exists in Hsome; [|apply _].
      apply Exists_exists in Hsome as (r0 & Hr0 & Hn0). cbn in Hn0.
      assert (Hnum : is_nan (Time (raw r0)) = false)
        by (by destruct (is_nan (Time (raw r0)))).
      destruct (float_series_max_greatest_time table r0 Hr0 Hnum)
        as (_ & (r & Hr & Hrm) & _).
      unfold without_final_point. cbn zeta.
      apply (length_filter_lt _ _ r); [done|].
      rewrite Hrm. intros Hlt%Is_true_true.
      by rewrite (sub_not_above _ _ _ _ hundredth_finite) in Hlt. }
  split; [apply sublist_filter|]. split; [done|].
  intros Hone. rewrite Hone in Hlt.
  destruct (without_final_point table); [done|simpl in Hlt; lia].
Qed.

Lemma delete_final_point_shortens_witness :
  exists kept : list record,
    delete_final_point {[ "run0.csv"%string := four_steps ]} run
    = Ok (<["run0.csv"%string := kept]> {[ "run0.csv"%string := four_steps ]})
    /\ sublist kept four_steps
    /\ (length kept < length four_steps)%nat
    /\ (length four_steps = 1%nat -> kept = []).
Proof.
  apply (delete_final_point_shortens _ run four_steps).
  - apply lookup_singleton_eq.
  - discriminate.
Defined.

(** *** The derived columns *)

(** X17.  The standard atmosphere of the extrema analysis: 15 degrees and
    1013.25 hPa at altitude 0; the temperature falls with every gain of
    altitude, and so does the pressure below 44330 m, where the base of its
    power is positive. *)
Theorem atmosphere_decreasing (h1 h2 : R) :
  h1 < h2 ->
  calculate_temperature 0 = 15
  /\ calculate_pressure 0 = 1013.25
  /\ calculate_temperature h2 < calculate_temperature h1
  /\ (h2 < 44330 -> calculate_pressure h2 < calculate_pressure h1).
Proof.
  intros Hlt. unfold calculate_temperature, calculate_pressure.
  split; [lra|]. split; [|split; [lra|]].
  - replace ((288.15 - 0.0065 * 0) / 288.15) with 1 by (field; lra).
    unfold Rpower. rewrite ln_1, Rmult_0_r, exp_0. lra.
  - intros Hmax. apply Rmult_lt_compat_l; [lra|].
    apply Rlt_Rpower_l; lra.
Qed.

Lemma atmosphere_decreasing_witness :
  calculate_temperature 0 = 15
  /\ calculate_pressure 0 = 1013.25
  /\ calculate_temperature 1000 < calculate_temperature 0
  /\ (1000 < 44330 -> calculate_pressure 1000 < calculate_pressure 0).
Proof.
  apply (atmosphere_decreasing 0 1000). lra.
Defined.

(** X18.  The launch-clear threshold lies within one launcher length of
    the elevation, and at or above the elevation for a pitch between 0 and
    180 degrees. *)
Theorem launch_clear_height_bounds (output_info_df : output_info) :
  0 <= launch_launcher_length output_info_df ->
  launch_elevation output_info_df - launch_launcher_length output_info_df
  <= launch_clear_height output_info_df
  <= launch_elevation output_info_df + launch_launcher_length output_info_df
  /\ (0 <= launch_pitch output_info_df <= 180 ->
      launch_elevation output_info_df <= launch_clear_height output_info_df).
Proof.
  intros Hlen. unfold launch_clear_height.
  set (L := launch_launcher_length output_info_df) in *.
  set (x := launch_pitch output_info_df * PI / 180).
  pose proof (SIN_bound x) as [Hlo Hhi].
  assert (H1 : - L <= L * sin x <= L).
  { split.
    - replace (- L) with (L * -1) by ring. by apply Rmult_le_compat_l.
    - replace L with (L * 1) at 2 by ring. by apply Rmult_le_compat_l. }
  split; [lra|]. intros Hpitch.
  pose proof PI_RGT_0 as Hpi.
  assert (Hx : 0 <= x <= PI).
  { unfold x. split.
    - apply Rmult_le_pos; [apply Rmult_le_pos|]; lra.
    - replace PI with (180 * PI / 180) at 2 by (field; lra).
      apply Rmult_le_compat_r; [lra|]. apply Rmult_le_compat_r; lra. }
  assert (Hsin : 0 <= sin x) by (apply sin_ge_0; lra).
  assert (0 <= L * sin x) by (by apply Rmult_le_pos). lra.
Qed.

Lemma launch_clear_height_bounds_witness :
  launch_elevation run - launch_launcher_length run
  <= launch_clear_height run
  <= launch_elevation run + launch_launcher_length run
  /\ (0 <= launch_pitch run <= 180 ->
      launch_elevation run <= launch_clear_height run).
Proof.
  apply launch_clear_height_bounds. simpl. lra.
Defined.

(** X19.  With a distance that is never negative, the north and east
    offsets that [calculate_with_geopy] reports have the sign of the
    difference in latitude and in longitude, and the range is not
    negative. *)
Theorem calculate_with_geopy_signs `{Geopy} (lat1 lon1 lat2 lon2 : R) :
  geodesic_nonneg ->
  let d := calculate_with_geopy lat1 lon1 lat2 lon2 in
  0 <= distance_m d
  /\ 0 <= lat_diff_m d * lat_diff_degrees d
  /\ 0 <= lon_diff_m d * lon_diff_degrees d
  /\ Rabs (lat_diff_m d) = geodesic (lat1, lon1) (lat2, lon1)
  /\ Rabs (lon_diff_m d) = geodesic (lat1, lon1) (lat1, lon2).
Proof.
  intros Hnonneg. cbn zeta. unfold calculate_with_geopy.
  cbn [distance_m lat_diff_m lon_diff_m lat_diff_degrees lon_diff_degrees].
  pose proof (Hnonneg (lat1, lon1) (lat2, lon2)) as Hd.
  pose proof (Hnonneg (lat1, lon1) (lat2, lon1)) as Hlat.
  pose proof (Hnonneg (lat1, lon1) (lat1, lon2)) as Hlon.
  split; [done|]. split; [|split; [|split]].
  - case_decide.
    + replace (- geodesic (lat1, lon1) (lat2, lon1) * (lat2 - lat1))
        with (geodesic (lat1, lon1) (lat2, lon1) * (lat1 - lat2)) by ring.
      apply Rmult_le_pos; lra.
    + apply Rmult_le_pos; lra.
  - case_decide.
    + replace (- geodesic (lat1, lon1) (lat1, lon2) * (lon2 - lon1))
        with (geodesic (lat1, lon1) (lat1, lon2) * (lon1 - lon2)) by ring.
      apply Rmult_le_pos; lra.
    + apply Rmult_le_pos; lra.
  - case_decide; [rewrite Rabs_Ropp|]; by apply Rabs_pos_eq.
  - case_decide; [rewrite Rabs_Ropp|]; by apply Rabs_pos_eq.
Qed.

Lemma calculate_with_geopy_signs_witness :
  let d := calculate_with_geopy 40.24 140.01 40.25 139.98 in
  0 <= distance_m d
  /\ 0 <= lat_diff_m d * lat_diff_degrees d
  /\ 0 <= lon_diff_m d * lon_diff_degrees d
  /\ Rabs (lat_diff_m d) = geodesic (40.24, 140.01) (40.25, 140.01)
  /\ Rabs (lon_diff_m d) = geodesic (40.24, 140.01) (40.24, 139.98).
Proof.
  apply (calculate_with_geopy_signs 40.24 140.01 40.25 139.98).
  exact LandingRangeFacts.flat_geodesic_nonneg.
Defined.


(** *** The extrema *)

Lemma foldl_least (s : series) (c : nat * R) :
  let r := foldl (fun best c => if decide (c.2 < best.2) then c else best) c s in
  r ∈ c :: s /\ forall x, x ∈ c :: s -> r.2 <= x.2.
Proof.
  revert c. induction s as [|d s IH]; intros c; cbn zeta.
  - split; [apply list_elem_of_here|].
    intros x Hx. apply list_elem_of_singleton in Hx as ->. simpl. lra.
  - cbn [foldl]. set (c' := if decide (d.2 < c.2) then d else c).
    destruct (IH c') as [Hin Hmin]. cbn zeta in Hin, Hmin.
    assert (Hc' : (c' = c \/ c' = d) /\ c'.2 <= c.2 /\ c'.2 <= d.2).
    { unfold c'. case_decide; (split; [auto|lra]). }
    destruct Hc' as (Hor & Hc & Hd). split.
    + apply elem_of_cons in Hin as [Heq|Hin].
      * rewrite Heq. destruct Hor as [-> | ->].
        -- apply list_elem_of_here.
        -- apply list_elem_of_further, list_elem_of_here.
      * by do 2 apply list_elem_of_further.
    + pose proof (Hmin c' (list_elem_of_here _ _)) as Hrc.
      intros x Hx. apply elem_of_cons in Hx as [->|Hx]; [lra|].
      apply elem_of_cons in Hx as [->|Hx]; [lra|].
      apply Hmin. by apply list_elem_of_further.
Qed.

Lemma foldl_greatest (s : series) (c : nat * R) :
  let r := foldl (fun best c => if decide (best.2 < c.2) then c else best) c s in
  r ∈ c :: s /\ forall x, x ∈ c :: s -> x.2 <= r.2.
Proof.
  revert c. induction s as [|d s IH]; intros c; cbn zeta.
  - split; [apply list_elem_of_here|].
    intros x Hx. apply list_elem_of_singleton in Hx as ->. simpl. lra.
  - cbn [foldl]. set (c' := if decide (c.2 < d.2) then d else c).
    destruct (IH c') as [Hin Hmax]. cbn zeta in Hin, Hmax.
    assert (Hc' : (c' = c \/ c' = d) /\ c.2 <= c'.2 /\ d.2 <= c'.2).
    { unfold c'. case_decide; (split; [auto|lra]). }
    destruct Hc' as (Hor & Hc & Hd). split.
    + apply elem_of_cons in Hin as [Heq|Hin].
      * rewrite Heq. destruct Hor as [-> | ->].
        -- apply list_elem_of_here.
        -- apply list_elem_of_further, list_elem_of_here.
      * by do 2 apply list_elem_of_further.
    + pose proof (Hmax c' (list_elem_of_here _ _)) as Hrc.
      intros x Hx. apply elem_of_cons in Hx as [->|Hx]; [lra|].
      apply elem_of_cons in Hx as [->|Hx]; [lra|].
      apply Hmax. by apply list_elem_of_further.
Qed.

Lemma idxmin_series (s : series) :
  s <> [] ->
  exists i v, idxmin s = Ok i /\ (i, v) ∈ s /\ forall x, x ∈ s -> v <= x.2.
Proof.
  destruct s as [|c s]; [done|]. intros _.
  destruct (foldl_least s c) as [Hin Hmin]. cbn zeta in Hin, Hmin.
  eexists _, _. split; [reflexivity|].
  split; [by rewrite <- surjective_pairing|exact Hmin].
Qed.

Lemma idxmax_series (s : series) :
  s <> [] ->
  exists i v, idxmax s = Ok i /\ (i, v) ∈ s /\ forall x, x ∈ s -> x.2 <= v.
Proof.
  destruct s as [|c s]; [done|]. intros _.
  destruct (foldl_greatest s c) as [Hin Hmax]. cbn zeta in Hin, Hmax.
  eexists _, _. split; [reflexivity|].
  split; [by rewrite <- surjective_pairing|exact Hmax].
Qed.

Lemma column_not_nil {A : Type} (f : A -> R) (df : list A) :
  df <> [] -> column f df <> [].
Proof. by destruct df. Qed.

Lemma idxmin_column {A : Type} (f : A -> R) (df : list A) :
  df <> [] ->
  exists i d, idxmin (column f df) = Ok i /\ argmin f df i d.
Proof.
  intros Hne.
  destruct (idxmin_series _ (column_not_nil f df Hne)) as (i & v & Hi & Hin & Hmin).
  apply elem_of_lookup_imap_1 in Hin as (j & d & [= -> ->] & Hd).
  exists j, d. split; [done|]. split; [done|].
  intros d' Hd'. apply list_elem_of_lookup_1 in Hd' as [k Hk].
  apply (Hmin (k, f d')). by apply (elem_of_lookup_imap_2 (fun i r => (i, f r))).
Qed.

Lemma idxmax_column {A : Type} (f : A -> R) (df : list A) :
  df <> [] ->
  exists i d, idxmax (column f df) = Ok i /\ argmax f df i d.
Proof.
  intros Hne.
  destruct (idxmax_series _ (column_not_nil f df Hne)) as (i & v & Hi & Hin & Hmax).
  apply elem_of_lookup_imap_1 in Hin as (j & d & [= -> ->] & Hd).
  exists j, d. split; [done|]. split; [done|].
  intros d' Hd'. apply list_elem_of_lookup_1 in Hd' as [k Hk].
  apply (Hmax (k, f d')). by apply (elem_of_lookup_imap_2 (fun i r => (i, f r))).
Qed.

Lemma idxmin_clear (h : R) (df : list derived) :
  Exists (fun d => altitude d > h) df ->
  exists i d,
    idxmin (map (fun c : nat * derived => (c.1, time c.2))
                (filter (fun c : nat * derived => altitude c.2 > h)
                        (imap (fun i r => (i, r)) df))) = Ok i
    /\ first_clear h df i d.
Proof.
  intros Hex. apply Exists_exists in Hex as (d0 & Hd0 & Hclear0).
  apply list_elem_of_lookup_1 in Hd0 as [k0 Hk0].
  set (s := map _ (filter _ _)).
  assert (Hs : forall i v, (i, v) ∈ s
                <-> exists d, df !! i = Some d /\ altitude d > h /\ v = time d).
  { intros i v. unfold s. rewrite list_elem_of_fmap. split.
    - intros ([j d] & [= -> ->] & Hin).
      apply list_elem_of_filter in Hin as [Hgt Hin].
      apply elem_of_lookup_imap_1 in Hin as (j' & d' & [= -> ->] & Hd).
      by exists d'.
    - intros (d & Hd & Hgt & ->). exists (i, d). split; [done|].
      apply list_elem_of_filter. split; [done|].
      by apply (elem_of_lookup_imap_2 (fun i r => (i, r))). }
  assert (Hne : s <> []).
  { intros Hnil. assert (Hin : (k0, time d0) ∈ s) by (apply Hs; by exists d0).
    rewrite Hnil in Hin. by apply elem_of_nil in Hin. }
  destruct (idxmin_series s Hne) as (i & v & Hi & Hin & Hmin).
  apply Hs in Hin as (d & Hd & Hgt & ->).
  exists i, d. split; [done|]. split; [done|]. split; [done|].
  intros d' Hd' Hgt'. apply list_elem_of_lookup_1 in Hd' as [k Hk].
  apply (Hmin (k, time d')). apply Hs. by exists d'.
Qed.

Lemma extremum_at_Some (df : list derived) (name : string) (i : nat)
    (f : derived -> R) (m : string) (d : derived) :
  df !! i = Some d -> extremum_at df name i f m = Ok (entry name i (f d) m).
Proof. intros Hd. unfold extremum_at, loc. by rewrite Hd. Qed.

(** The run of [find_extrema] on a table with a record above the
    threshold, step by step. *)
Lemma find_extrema_steps (df : list derived) (h : R) :
  df <> [] ->
  Exists (fun d => altitude d > h) df ->
  exists i0 d0 i1 d1 i2 d2 i3 d3 i4 d4 i5 d5 i6 d6 i7 d7 i8 d8 i9 d9,
    find_extrema df h
    = Ok (d0,
          [ entry "initial_point" i0 (altitude d0) "altitude";
            entry "launch_clear" i1 (altitude d1) "altitude";
            entry "max_speed" i2 (true_velocity d2) "true_velocity";
            entry "max_dynamic_pressure" i3 (dynamic_pressure d3)
                  "dynamic_pressure";
            entry "max_acceleration" i4 (acceleration d4) "acceleration";
            entry "max_qbar_atan_aoa" i5 (qbar_atan_aoa d5) "qbar_atan_aoa";
            entry "max_altitude" i6 (altitude d6) "altitude";
            entry "final_point" i7 (altitude d7) "altitude";
            entry "parachute_deploy" i8 (parachute_deploy_gain (raw (rec d8)))
                  "parachute_deploy_gain";
            entry "max_thrust" i9 (thrust d9) "thrust" ])
    /\ argmin time df i0 d0
    /\ first_clear h df i1 d1
    /\ argmax true_velocity df i2 d2
    /\ argmax dynamic_pressure df i3 d3
    /\ argmax acceleration df i4 d4
    /\ argmax qbar_atan_aoa df i5 d5
    /\ argmax altitude df i6 d6
    /\ argmax time df i7 d7
    /\ argmax (fun d => parachute_deploy_gain (raw (rec d))) df i8 d8
    /\ argmax thrust df i9 d9.
Proof.
  intros Hne Hex.
  destruct (idxmin_column time df Hne) as (i0 & d0 & E0 & H0).
  destruct (idxmin_clear h df Hex) as (i1 & d1 & E1 & H1).
  destruct (idxmax_column true_velocity df Hne) as (i2 & d2 & E2 & H2).
  destruct (idxmax_column dynamic_pressure df Hne) as (i3 & d3 & E3 & H3).
  destruct (idxmax_column acceleration df Hne) as (i4 & d4 & E4 & H4).
  destruct (idxmax_column qbar_atan_aoa df Hne) as (i5 & d5 & E5 & H5).
  destruct (idxmax_column altitude df Hne) as (i6 & d6 & E6 & H6).
  destruct (idxmax_column time df Hne) as (i7 & d7 & E7 & H7).
  destruct (idxmax_column (fun d => parachute_deploy_gain (raw (rec d))) df Hne)
    as (i8 & d8 & E8 & H8).
  destruct (idxmax_column thrust df Hne) as (i9 & d9 & E9 & H9).
  exists i0, d0, i1, d1, i2, d2, i3, d3, i4, d4, i5, d5, i6, d6, i7, d7,
         i8, d8, i9, d9.
  split; [|repeat (split; [assumption|]); assumption].
  unfold find_extrema.
  rewrite E0, E1, E2, E3, E4, E5, E6, E7, E8, E9. cbn [mbind result_bind].
  rewrite (extremum_at_Some _ _ _ _ _ d0 (proj1 H0)).
  rewrite (extremum_at_Some _ _ _ _ _ d1 (proj1 H1)).
  rewrite (extremum_at_Some _ _ _ _ _ d2 (proj1 H2)).
  rewrite (extremum_at_Some _ _ _ _ _ d3 (proj1 H3)).
  rewrite (extremum_at_Some _ _ _ _ _ d4 (proj1 H4)).
  rewrite (extremum_at_Some _ _ _ _ _ d5 (proj1 H5)).
  rewrite (extremum_at_Some _ _ _ _ _ d6 (proj1 H6)).
  rewrite (extremum_at_Some _ _ _ _ _ d7 (proj1 H7)).
  rewrite (extremum_at_Some _ _ _ _ _ d8 (proj1 H8)).
  rewrite (extremum_at_Some _ _ _ _ _ d9 (proj1 H9)).
  unfold loc. rewrite (proj1 H0). reflexivity.
Qed.


Lemma four_steps_clear :
  Exists (fun r => Altitude (raw r) > launch_clear_height run) four_steps.
Proof.
  unfold four_steps. apply Exists_cons_tl, Exists_cons_hd.
  unfold launch_clear_height, run, processed, step. simpl.
  pose proof (SIN_bound (80 * PI / 180)) as [_ Hsin]. lra.
Qed.

Lemma derived_frame_clear (h : R) (table : list record) :
  Exists (fun r => Altitude (raw r) > h) table ->
  Exists (fun d => altitude d > h) (derived_frame table).
Proof.
  intros Hex. unfold derived_frame. apply Exists_fmap.
  eapply Exists_impl; [exact Hex|]. by intros r Hr.
Qed.

Lemma derived_frame_not_nil (table : list record) :
  table <> [] -> derived_frame table <> [].
Proof. by destruct table. Qed.

(** X20.  On a table with a record above the threshold [find_extrema]
    returns the ten extrema in the order of their insertion, each with the
    index of a record of the table: the initial and the final point have the
    least and the greatest time, the launch-clear point is above the
    threshold and has the least time of the records above it, and every
    other extremum has the greatest value of its column, which it reports as
    its value. *)
Theorem find_extrema_described (df : list derived) (h : R) :
  df <> [] ->
  Exists (fun d => altitude d > h) df ->
  exists (initial_point : derived) (extrema_points : list extremum),
    find_extrema df h = Ok (initial_point, extrema_points)
    /\ map extrema_name extrema_points = extrema_names
    /\ Forall (described h df) extrema_points
    /\ argmin time df (default 0%nat (index <$> head extrema_points))
              initial_point.
Proof.
  intros Hne Hex.
  destruct (find_extrema_steps df h Hne Hex)
    as (i0 & d0 & i1 & d1 & i2 & d2 & i3 & d3 & i4 & d4 & i5 & d5 & i6 & d6
        & i7 & d7 & i8 & d8 & i9 & d9 & Heq & H0 & H1 & H2 & H3 & H4 & H5 & H6
        & H7 & H8 & H9).
  eexists _, _. split; [exact Heq|]. split; [reflexivity|].
  split; [|exact H0].
  repeat (apply Forall_cons; split); [| | | | | | | | | |by apply Forall_nil].
  - destruct H0 as [L0 M0]. exists d0. split; [exact L0|].
    repeat split; intros; try done; by apply M0.
  - destruct H1 as (L1 & G1 & M1). exists d1. split; [exact L1|].
    repeat split; intros; try done; by apply M1.
  - destruct H2 as [L2 M2]. exists d2. split; [exact L2|].
    repeat split; intros; try done; by apply M2.
  - destruct H3 as [L3 M3]. exists d3. split; [exact L3|].
    repeat split; intros; try done; by apply M3.
  - destruct H4 as [L4 M4]. exists d4. split; [exact L4|].
    repeat split; intros; try done; by apply M4.
  - destruct H5 as [L5 M5]. exists d5. split; [exact L5|].
    repeat split; intros; try done; by apply M5.
  - destruct H6 as [L6 M6]. exists d6. split; [exact L6|].
    repeat split; intros; try done; by apply M6.
  - destruct H7 as [L7 M7]. exists d7. split; [exact L7|].
    repeat split; intros; try done; by apply M7.
  - destruct H8 as [L8 M8]. exists d8. split; [exact L8|].
    repeat split; intros; try done; by apply M8.
  - destruct H9 as [L9 M9]. exists d9. split; [exact L9|].
    repeat split; intros; try done; by apply M9.
Qed.

Lemma find_extrema_described_witness :
  exists (initial_point : derived) (extrema_points : list extremum),
    find_extrema (derived_frame four_steps) (launch_clear_height run)
    = Ok (initial_point, extrema_points)
    /\ map extrema_name extrema_points = extrema_names
    /\ Forall (described (launch_clear_height run) (derived_frame four_steps))
              extrema_points
    /\ argmin time (derived_frame four_steps)
              (default 0%nat (index <$> head extrema_points)) initial_point.
Proof.
  apply find_extrema_described.
  - discriminate.
  - apply derived_frame_clear, four_steps_clear.
Defined.


Lemma for_each_total {A B : Type} (f : A -> result B) (g : A -> B)
    (xs : list A) :
  (forall x, x ∈ xs -> f x = Ok (g x)) -> for_each f xs = Ok (map g xs).
Proof.
  induction xs as [|x xs IH]; intros Hf; [done|].
  cbn [for_each map]. rewrite (Hf x) by apply list_elem_of_here.
  cbn [mbind result_bind]. rewrite IH; [done|].
  intros y Hy. apply Hf. by apply list_elem_of_further.
Qed.

(** The row of the extrema table for an entry, when the evaluator returns
    [lr]. *)
Lemma extrema_row_Some `{Geopy} (landing_range_obj : LandingRange)
    (df : list derived) (lat0 lon0 : R) (name : string) (i : nat) (v : R)
    (m : string) (d : derived) (lr : R) :
  df !! i = Some d ->
  landing_range landing_range_obj (latitude d) (longitude d) = Ok lr ->
  exists row,
    extrema_row landing_range_obj df lat0 lon0 (entry name i v m) = Ok row
    /\ map fst row = extrema_columns
    /\ head row = Some ("extrema_type"%string, Str name)
    /\ ("latitude"%string, Num (latitude d)) ∈ row
    /\ ("longitude"%string, Num (longitude d)) ∈ row
    /\ ("landing_range"%string, Num lr) ∈ row.
Proof.
  intros Hd Hlr. unfold extrema_row, loc. cbn [index entry]. rewrite Hd.
  cbn [mbind result_bind]. rewrite Hlr. cbn [mbind result_bind].
  eexists. split; [reflexivity|]. split; [reflexivity|].
  split; [reflexivity|].
  split; [|split];
    repeat first [apply list_elem_of_here | apply list_elem_of_further].
Qed.

(** X21.  With a registered evaluator that returns a distance for every
    position, the extrema analysis of a run with a record above the
    launch-clear threshold returns a table of ten rows, one per extremum in
    the order of their insertion, each with the eighteen columns of the
    table and with the evaluator's distance at the row's own position. *)
Theorem get_extrema_analysis_rows `{Geopy}
    (LAUNCH_SITES : registry) (landing_range_script : string)
    (landing_range_obj : LandingRange) (distance : R -> R -> R)
    (fs : csv_files) (output_info_df : output_info) (table : list record) :
  LAUNCH_SITES !! landing_range_script = Some landing_range_obj ->
  (forall lat lon, landing_range landing_range_obj lat lon = Ok (distance lat lon)) ->
  fs !! raw_output_file output_info_df = Some table ->
  Exists (fun r => Altitude (raw r) > launch_clear_height output_info_df) table ->
  exists rows : frame,
    get_extrema_analysis LAUNCH_SITES fs output_info_df landing_range_script
    = Ok rows
    /\ map head rows
       = map (fun n => Some ("extrema_type"%string, Str n)) extrema_names
    /\ Forall (fun row => map fst row = extrema_columns) rows
    /\ Forall (fun row =>
                 exists lat lon,
                   ("latitude"%string, Num lat) ∈ row
                   /\ ("longitude"%string, Num lon) ∈ row
                   /\ ("landing_range"%string, Num (distance lat lon)) ∈ row)
              rows.
Proof.
  intros Hsite Hdist Hfile Hex.
  assert (Hne : table <> []) by (by destruct Hex).
  destruct (find_extrema_steps _ _ (derived_frame_not_nil _ Hne)
              (derived_frame_clear _ _ Hex))
    as (i0 & d0 & i1 & d1 & i2 & d2 & i3 & d3 & i4 & d4 & i5 & d5 & i6 & d6
        & i7 & d7 & i8 & d8 & i9 & d9 & Heq & H0 & H1 & H2 & H3 & H4 & H5 & H6
        & H7 & H8 & H9).
  set (df := derived_frame table) in *.
  set (lat0 := latitude d0). set (lon0 := longitude d0).
  destruct (extrema_row_Some landing_range_obj df lat0 lon0 "initial_point" i0
              (altitude d0) "altitude" d0 _
              (proj1 H0) (Hdist _ _)) as (r0 & E0 & C0 & N0 & P0).
  destruct (extrema_row_Some landing_range_obj df lat0 lon0 "launch_clear" i1
              (altitude d1) "altitude" d1 _
              (proj1 H1) (Hdist _ _)) as (r1 & E1 & C1 & N1 & P1).
  destruct (extrema_row_Some landing_range_obj df lat0 lon0 "max_speed" i2
              (true_velocity d2) "true_velocity" d2 _
              (proj1 H2) (Hdist _ _)) as (r2 & E2 & C2 & N2 & P2).
  destruct (extrema_row_Some landing_range_obj df lat0 lon0 "max_dynamic_pressure" i3
              (dynamic_pressure d3) "dynamic_pressure" d3 _
              (proj1 H3) (Hdist _ _)) as (r3 & E3 & C3 & N3 & P3).
  destruct (extrema_row_Some landing_range_obj df lat0 lon0 "max_acceleration" i4
              (acceleration d4) "acceleration" d4 _
              (proj1 H4) (Hdist _ _)) as (r4 & E4 & C4 & N4 & P4).
  destruct (extrema_row_Some landing_range_obj df lat0 lon0 "max_qbar_atan_aoa" i5
              (qbar_atan_aoa d5) "qbar_atan_aoa" d5 _
              (proj1 H5) (Hdist _ _)) as (r5 & E5 & C5 & N5 & P5).
  destruct (extrema_row_Some landing_range_obj df lat0 lon0 "max_altitude" i6
              (altitude d6) "altitude" d6 _
              (proj1 H6) (Hdist _ _)) as (r6 & E6 & C6 & N6 & P6).
  destruct (extrema_row_Some landing_range_obj df lat0 lon0 "final_point" i7
              (altitude d7) "altitude" d7 _
              (proj1 H7) (Hdist _ _)) as (r7 & E7 & C7 & N7 & P7).
  destruct (extrema_row_Some landing_range_obj df lat0 lon0 "parachute_deploy" i8
              (parachute_deploy_gain (raw (rec d8))) "parachute_deploy_gain" d8 _
              (proj1 H8) (Hdist _ _)) as (r8 & E8 & C8 & N8 & P8).
  destruct (extrema_row_Some landing_range_obj df lat0 lon0 "max_thrust" i9
              (thrust d9) "thrust" d9 _
              (proj1 H9) (Hdist _ _)) as (r9 & E9 & C9 & N9 & P9).
  exists [r0; r1; r2; r3; r4; r5; r6; r7; r8; r9]. split.
  { unfold get_extrema_analysis, read_csv. rewrite Hsite, Hfile.
    cbn [mbind result_bind]. fold df. rewrite Heq. cbn [mbind result_bind].
    fold lat0 lon0. cbn [for_each].
    rewrite E0, E1, E2, E3, E4, E5, E6, E7, E8, E9. reflexivity. }
  split.
  { cbn [map]. rewrite N0, N1, N2, N3, N4, N5, N6, N7, N8, N9. reflexivity. }
  split.
  { repeat (apply Forall_cons; split; [assumption|]). by apply Forall_nil. }
  repeat (apply Forall_cons; split; [by eexists _, _|]). by apply Forall_nil.
Qed.

Lemma get_extrema_analysis_rows_witness :
  exists rows : frame,
    get_extrema_analysis one_site {[ "run0.csv"%string := four_steps ]} run
                         "noshiro_sea"
    = Ok rows
    /\ map head rows
       = map (fun n => Some ("extrema_type"%string, Str n)) extrema_names
    /\ Forall (fun row => map fst row = extrema_columns) rows
    /\ Forall (fun row =>
                 exists lat lon,
                   ("latitude"%string, Num lat) ∈ row
                   /\ ("longitude"%string, Num lon) ∈ row
                   /\ ("landing_range"%string,
                       Num (NoshiroSea_landing_range lat lon)) ∈ row)
              rows.
Proof.
  apply (get_extrema_analysis_rows one_site "noshiro_sea" NoshiroSea
           NoshiroSea_landing_range {[ "run0.csv"%string := four_steps ]} run
           four_steps).
  - apply lookup_singleton_eq.
  - reflexivity.
  - apply lookup_singleton_eq.
  - exact four_steps_clear.
Defined.

Lemma extrema_row_base `{Geopy} (df : list derived) (lat0 lon0 : R)
    (name : string) (i : nat) (v : R) (m : string) (d : derived) :
  df !! i = Some d ->
  extrema_row LandingRange_base df lat0 lon0 (entry name i v m)
  = Raise NotImplementedError.
Proof.
  intros Hd. unfold extrema_row, loc. cbn [index entry]. by rewrite Hd.
Qed.

(** X22.  When the registered evaluator has the [landing_range] of the
    base class, which is not implemented, the extrema analysis of a run with
    a record above the threshold raises [NotImplementedError]. *)
Theorem get_extrema_analysis_base_class `{Geopy}
    (LAUNCH_SITES : registry) (landing_range_script : string)
    (fs : csv_files) (output_info_df : output_info) (table : list record) :
  LAUNCH_SITES !! landing_range_script = Some LandingRange_base ->
  fs !! raw_output_file output_info_df = Some table ->
  Exists (fun r => Altitude (raw r) > launch_clear_height output_info_df) table ->
  get_extrema_analysis LAUNCH_SITES fs output_info_df landing_range_script
  = Raise NotImplementedError.
Proof.
  intros Hsite Hfile Hex.
  assert (Hne : table <> []) by (by destruct Hex).
  destruct (find_extrema_steps _ _ (derived_frame_not_nil _ Hne)
              (derived_frame_clear _ _ Hex))
    as (i0 & d0 & i1 & d1 & i2 & d2 & i3 & d3 & i4 & d4 & i5 & d5 & i6 & d6
        & i7 & d7 & i8 & d8 & i9 & d9 & Heq & H0 & _).
  unfold get_extrema_analysis, read_csv. rewrite Hsite, Hfile.
  cbn [mbind result_bind]. rewrite Heq. cbn [mbind result_bind].
  cbn [for_each]. rewrite (extrema_row_base _ _ _ _ _ _ _ d0 (proj1 H0)).
  reflexivity.
Qed.

Lemma get_extrema_analysis_base_class_witness :
  get_extrema_analysis {[ "base"%string := LandingRange_base ]}
                       {[ "run0.csv"%string := four_steps ]} run "base"
  = Raise NotImplementedError.
Proof.
  apply (get_extrema_analysis_base_class _ "base" _ run four_steps).
  - apply lookup_singleton_eq.
  - apply lookup_singleton_eq.
  - exact four_steps_clear.
Defined.

Lemma time_lookup (df : list derived) (i : nat) (d : derived) :
  df !! i = Some d -> map time df !! i = Some (time d).
Proof. intros Hd. by rewrite list_lookup_fmap, Hd. Qed.

(** X23.  On a table in the order of its times, with a record above the
    threshold, the initial point is the first record, the final point the
    last, and the launch-clear point the first record above the threshold:
    every record before it is at or below the threshold. *)
Theorem find_extrema_time_ordered (df : list derived) (h : R) :
  StronglySorted Rlt (map time df) ->
  Exists (fun d => altitude d > h) df ->
  exists initial_point e0 e1 e2 e3 e4 e5 e6 e7 e8 e9,
    find_extrema df h
    = Ok (initial_point, [e0; e1; e2; e3; e4; e5; e6; e7; e8; e9])
    /\ head df = Some initial_point
    /\ index e0 = 0%nat
    /\ index e7 = (length df - 1)%nat
    /\ (exists d, df !! index e1 = Some d /\ altitude d > h)
    /\ forall j d, (j < index e1)%nat -> df !! j = Some d -> altitude d <= h.
Proof.
  intros Hsorted Hex.
  assert (Hne : df <> []) by (by destruct Hex).
  destruct (find_extrema_steps df h Hne Hex)
    as (i0 & d0 & i1 & d1 & i2 & d2 & i3 & d3 & i4 & d4 & i5 & d5 & i6 & d6
        & i7 & d7 & i8 & d8 & i9 & d9 & Heq & H0 & H1 & _ & _ & _ & _ & _
        & H7 & _).
  destruct H0 as [L0 M0]. destruct H1 as (L1 & G1 & M1). destruct H7 as [L7 M7].
  assert (Hlt : forall i j a b, (i < j)%nat -> df !! i = Some a ->
                                df !! j = Some b -> time a < time b).
  { intros i j a b Hij Ha Hb.
    apply (StronglySorted_lookup_lt Rlt _ Hsorted i j); [done|..];
      by apply time_lookup. }
  assert (Hi0 : i0 = 0%nat).
  { destruct i0 as [|i0]; [done|]. exfalso.
    destruct df as [|a df']; [done|].
    pose proof (Hlt 0%nat (S i0) a d0 ltac:(lia) eq_refl L0).
    pose proof (M0 a (list_elem_of_here _ _)). lra. }
  assert (Hi7 : i7 = (length df - 1)%nat).
  { pose proof (lookup_lt_Some _ _ _ L7) as Hb.
    destruct (decide (i7 = length df - 1)%nat) as [|Hn]; [done|]. exfalso.
    destruct (lookup_lt_is_Some_2 df (length df - 1)) as [b Hlast]; [lia|].
    pose proof (Hlt i7 (length df - 1)%nat d7 b ltac:(lia) L7 Hlast).
    pose proof (M7 b (list_elem_of_lookup_2 _ _ _ Hlast)). lra. }
  eexists _, _, _, _, _, _, _, _, _, _, _. split; [exact Heq|].
  cbn [index entry]. subst i0.
  split; [by destruct df|]. split; [done|]. split; [done|].
  split; [by exists d1|].
  intros j d Hj Hd.
  destruct (Rle_dec (altitude d) h) as [|Hgt]; [done|]. exfalso.
  pose proof (Hlt j i1 d d1 Hj Hd L1).
  pose proof (M1 d (list_elem_of_lookup_2 _ _ _ Hd) ltac:(lra)). lra.
Qed.

Lemma four_steps_time_ordered :
  StronglySorted Rlt (map time (derived_frame four_steps)).
Proof.
  unfold four_steps, derived_frame, processed, step, time. simpl.
  repeat (match goal with
          | |- StronglySorted _ _ => constructor
          | |- Forall _ _ => constructor
          end); float_values; lra.
Qed.

Lemma find_extrema_time_ordered_witness :
  exists initial_point e0 e1 e2 e3 e4 e5 e6 e7 e8 e9,
    find_extrema (derived_frame four_steps) (launch_clear_height run)
    = Ok (initial_point, [e0; e1; e2; e3; e4; e5; e6; e7; e8; e9])
    /\ head (derived_frame four_steps) = Some initial_point
    /\ index e0 = 0%nat
    /\ index e7 = (length (derived_frame four_steps) - 1)%nat
    /\ (exists d, derived_frame four_steps !! index e1 = Some d
                  /\ altitude d > launch_clear_height run)
    /\ forall j d, (j < index e1)%nat ->
                   derived_frame four_steps !! j = Some d ->
                   altitude d <= launch_clear_height run.
Proof.
  apply find_extrema_time_ordered.
  - exact four_steps_time_ordered.
  - apply derived_frame_clear, four_steps_clear.
Defined.


(** *** The run summary *)

Lemma first_above (h : R) (table : list record) :
  Exists (fun r => Altitude (raw r) > h) table ->
  exists before first_clear after,
    table = before ++ first_clear :: after
    /\ Forall (fun r => Altitude (raw r) <= h) before
    /\ Altitude (raw first_clear) > h
    /\ iloc_first (filter (fun r => Altitude (raw r) > h) table)
       = Ok first_clear.
Proof.
  intros Hex.
  destruct (filter (fun r => Altitude (raw r) > h) table) as [|fc rest] eqn:Hf.
  - exfalso. apply Exists_exists in Hex as (r & Hr & Hgt).
    by apply (filter_nil_not_elem_of _ _ r Hf Hgt).
  - assert (Hhead : head (filter (fun r => Altitude (raw r) > h) table)
                    = Some fc) by (by rewrite Hf).
    apply head_filter_Some in Hhead as (l1 & l2 & -> & Hl1).
    exists l1, fc, l2. split; [done|]. split.
    + eapply Forall_impl; [exact Hl1|]. intros r Hr. simpl in Hr. lra.
    + split; [|done].
      assert (Hin : fc ∈ fc :: rest) by apply list_elem_of_here.
      rewrite <- Hf in Hin. by apply list_elem_of_filter in Hin as [Hgt _].
Qed.

(** X24.  The summary of a run with a record above the launch-clear
    threshold: the launch-clear speed is the true velocity of the first
    record above the threshold, the landing position is that of the last
    record, the greatest altitude is reached by a record and bounds all of
    them, and the document written for the run holds exactly two line
    strings over all records, the first with altitudes and relative to
    ground, the second without and clamped to ground. *)
Theorem summarize_output_info_df_summary
    (fs : csv_files) (kmls : kml_files) (output_info_df : output_info)
    (output_dir : string) (table : list record) :
  fs !! raw_output_file output_info_df = Some table ->
  Exists (fun r => Altitude (raw r) > launch_clear_height output_info_df) table ->
  exists summary line_3d line_2d before first_clear after last_record top,
    summarize_output_info_df fs kmls output_info_df output_dir
    = Ok (summary,
          <[kml_path output_dir (name output_info_df) :=
              [Kml.FLineString line_3d; Kml.FLineString line_2d]]> kmls)
    /\ table = before ++ first_clear :: after
    /\ Forall (fun r => Altitude (raw r) <= launch_clear_height output_info_df)
              before
    /\ Altitude (raw first_clear) > launch_clear_height output_info_df
    /\ launch_clear_speed summary = True_Velocity (raw first_clear)
    /\ last table = Some last_record
    /\ landed_latitude summary = Latitude (raw last_record)
    /\ landed_longitude summary = Longitude (raw last_record)
    /\ max_altitude summary = Some (Altitude (raw top))
    /\ top ∈ table
    /\ Forall (fun r => Altitude (raw r) <= Altitude (raw top)) table
    /\ Kml.ls_altitudemode line_3d = Some Kml.relativetoground
    /\ Kml.ls_altitudemode line_2d = Some Kml.clamptoground
    /\ Kml.ls_coords line_3d
       = map (fun r => [Longitude (raw r); Latitude (raw r); Altitude (raw r)])
             table
    /\ Kml.ls_coords line_2d
       = map (fun r => [Longitude (raw r); Latitude (raw r)]) table.
Proof.
  intros Hfile Hex.
  destruct (first_above _ _ Hex) as (before & fc & after & Htable & Hbefore
                                     & Hfc & Hfirst).
  assert (Hne : table <> []) by (by destruct Hex).
  destruct (proj2 (last_is_Some table) Hne) as [last_record Hlast].
  destruct (series_max (map (fun r => Altitude (raw r)) table)) as [m|] eqn:Hm;
    [|by destruct table].
  pose proof (series_max_spec _ _ Hm) as [Hin Hle].
  apply list_elem_of_fmap in Hin as (top & -> & Htop).
  destruct table as [|r0 rest]; [done|].
  eexists _, _, _, before, fc, after, last_record, top.
  split.
  { unfold summarize_output_info_df, read_csv. rewrite Hfile.
    cbn [mbind result_bind]. rewrite Hfirst. cbn [mbind result_bind].
    unfold iloc_last. rewrite !fmap_last, Hlast. cbn [fmap option_fmap option_map].
    cbn [mbind result_bind]. rewrite Hm. reflexivity. }
  cbn [launch_clear_speed landed_latitude landed_longitude max_altitude
       Kml.ls_altitudemode Kml.ls_coords].
  split; [done|]. split; [done|]. split; [done|]. split; [done|].
  split; [done|]. split; [done|]. split; [done|]. split; [done|].
  split; [done|]. split.
  { apply Forall_forall. intros r Hr. rewrite Forall_forall in Hle.
    apply Hle. apply list_elem_of_fmap. by exists r. }
  by repeat split.
Qed.

Lemma summarize_output_info_df_summary_witness :
  exists summary line_3d line_2d before first_clear after last_record top,
    summarize_output_info_df {[ "run0.csv"%string := four_steps ]} ∅ run "out"
    = Ok (summary,
          <[kml_path "out" (name run) :=
              [Kml.FLineString line_3d; Kml.FLineString line_2d]]> ∅)
    /\ four_steps = before ++ first_clear :: after
    /\ Forall (fun r => Altitude (raw r) <= launch_clear_height run) before
    /\ Altitude (raw first_clear) > launch_clear_height run
    /\ launch_clear_speed summary = True_Velocity (raw first_clear)
    /\ last four_steps = Some last_record
    /\ landed_latitude summary = Latitude (raw last_record)
    /\ landed_longitude summary = Longitude (raw last_record)
    /\ max_altitude summary = Some (Altitude (raw top))
    /\ top ∈ four_steps
    /\ Forall (fun r => Altitude (raw r) <= Altitude (raw top)) four_steps
    /\ Kml.ls_altitudemode line_3d = Some Kml.relativetoground
    /\ Kml.ls_altitudemode line_2d = Some Kml.clamptoground
    /\ Kml.ls_coords line_3d
       = map (fun r => [Longitude (raw r); Latitude (raw r); Altitude (raw r)])
             four_steps
    /\ Kml.ls_coords line_2d
       = map (fun r => [Longitude (raw r); Latitude (raw r)]) four_steps.
Proof.
  apply (summarize_output_info_df_summary _ ∅ run "out" four_steps).
  - apply lookup_singleton_eq.
  - exact four_steps_clear.
Defined.

(** *** The tables of the ensemble *)

(** X25.  With a registered evaluator that returns a distance for every
    position, [generate_final_points_dataframe] returns one row per landed
    point, group after group in the order of the groups and of their rows,
    with the key of the group, the position, and the evaluator's distance
    at that position. *)
Theorem generate_final_points_dataframe_rows
    (LAUNCH_SITES : registry) (landing_range_script : string)
    (landing_range_obj : LandingRange) (distance : R -> R -> R)
    (grouped_df : Kml.grouped) :
  LAUNCH_SITES !! landing_range_script = Some landing_range_obj ->
  (forall lat lon, landing_range landing_range_obj lat lon = Ok (distance lat lon)) ->
  generate_final_points_dataframe LAUNCH_SITES grouped_df landing_range_script
  = Ok (concat
          (map (fun group : string * list Kml.landed =>
                  map (fun row =>
                         [ ("group_key", Str group.1);
                           ("landed_longitude", Num (Kml.landed_longitude row));
                           ("landed_latitude", Num (Kml.landed_latitude row));
                           ("landing_range",
                            Num (distance (Kml.landed_latitude row)
                                          (Kml.landed_longitude row))) ]%string)
                      group.2)
               grouped_df)).
Proof.
  intros Hsite Hdist. unfold generate_final_points_dataframe. rewrite Hsite.
  erewrite for_each_total; [reflexivity|].
  intros [group_key group_df] _. cbn [fst snd].
  apply for_each_total. intros row _. by rewrite Hdist.
Qed.

Lemma generate_final_points_dataframe_rows_witness :
  generate_final_points_dataframe one_site
    [("dir_30"%string, KmlSpec.three_landed)] "noshiro_sea"
  = Ok (concat
          (map (fun group : string * list Kml.landed =>
                  map (fun row =>
                         [ ("group_key", Str group.1);
                           ("landed_longitude", Num (Kml.landed_longitude row));
                           ("landed_latitude", Num (Kml.landed_latitude row));
                           ("landing_range",
                            Num (NoshiroSea_landing_range
                                   (Kml.landed_latitude row)
                                   (Kml.landed_longitude row))) ]%string)
                      group.2)
               [("dir_30"%string, KmlSpec.three_landed)])).
Proof.
  apply (generate_final_points_dataframe_rows one_site "noshiro_sea" NoshiroSea).
  - apply lookup_singleton_eq.
  - reflexivity.
Defined.


Lemma tuple_columns_plain (needle : string) (columns : list label) :
  Forall (fun c => exists s, c = Name s) columns ->
  tuple_columns needle columns = Ok [].
Proof.
  induction columns as [|c cols IH]; intros Hplain; [done|].
  apply Forall_cons in Hplain as [[s ->] Hplain]. cbn [tuple_columns].
  by apply IH.
Qed.

(** X26.  A run table whose columns all have plain names, none a tuple,
    has no ground wind column: with a registered evaluator the landing
    range table is the empty frame, whatever the rows. *)
Theorem generate_landing_range_table_plain_columns
    (LAUNCH_SITES : registry) (landing_range_script : string)
    (landing_range_obj : LandingRange) (simulation_df : run_table) :
  LAUNCH_SITES !! landing_range_script = Some landing_range_obj ->
  Forall (fun c => exists s, c = Name s) (columns simulation_df) ->
  generate_landing_range_table LAUNCH_SITES simulation_df landing_range_script
  = Ok empty_frame.
Proof.
  intros Hsite Hplain. unfold generate_landing_range_table. rewrite Hsite.
  by rewrite !(tuple_columns_plain _ _ Hplain).
Qed.

Lemma generate_landing_range_table_plain_columns_witness :
  generate_landing_range_table one_site
    {| columns := [Name "landed_latitude"; Name "landed_longitude"];
       rows := [[(Name "landed_latitude", 40.24);
                 (Name "landed_longitude", 140.01)]] |} "noshiro_sea"
  = Ok empty_frame.
Proof.
  apply (generate_landing_range_table_plain_columns one_site "noshiro_sea"
           NoshiroSea).
  - apply lookup_singleton_eq.
  - repeat constructor; by eexists.
Defined.

Lemma tuple_columns_short (needle : string) (columns : list label) :
  Exists (fun c => exists parts, c = Tuple parts /\ (length parts < 2)%nat)
         columns ->
  tuple_columns needle columns = Raise IndexError.
Proof.
  induction columns as [|c cols IH]; intros Hex; [by inversion Hex|].
  apply Exists_cons in Hex as [(parts & -> & Hshort)|Hex].
  - cbn [tuple_columns]. rewrite lookup_ge_None_2; [done|lia].
  - specialize (IH Hex). destruct c as [s|parts]; cbn [tuple_columns]; [done|].
    destruct (parts !! 1%nat); [|done]. by rewrite IH.
Qed.

(** X27.  A tuple column label with fewer than two parts makes the landing
    range table raise [IndexError], wherever the label stands among the
    columns: every tuple label is asked for its second part. *)
Theorem generate_landing_range_table_short_tuple
    (LAUNCH_SITES : registry) (landing_range_script : string)
    (landing_range_obj : LandingRange) (simulation_df : run_table) :
  LAUNCH_SITES !! landing_range_script = Some landing_range_obj ->
  Exists (fun c => exists parts, c = Tuple parts /\ (length parts < 2)%nat)
         (columns simulation_df) ->
  generate_landing_range_table LAUNCH_SITES simulation_df landing_range_script
  = Raise IndexError.
Proof.
  intros Hsite Hshort. unfold generate_landing_range_table. rewrite Hsite.
  rewrite (tuple_columns_short "ground_wind_speed" _ Hshort). reflexivity.
Qed.

Lemma generate_landing_range_table_short_tuple_witness :
  generate_landing_range_table one_site
    {| columns := [Tuple ["wind"; "ground_wind_speed"]; Tuple ["seed"]];
       rows := [] |} "noshiro_sea"
  = Raise IndexError.
Proof.
  apply (generate_landing_range_table_short_tuple one_site "noshiro_sea"
           NoshiroSea).
  - apply lookup_singleton_eq.
  - apply Exists_cons_tl, Exists_cons_hd. eexists. split; [done|]. simpl. lia.
Defined.

Lemma for_each_Forall2 {A B : Type} (f : A -> result B) (xs : list A) :
  Forall (fun x => exists y, f x = Ok y) xs ->
  exists ys, for_each f xs = Ok ys /\ Forall2 (fun x y => f x = Ok y) xs ys.
Proof.
  induction 1 as [|x xs [y Hy] _ (ys & Hys & Hall)].
  - by exists [].
  - exists (y :: ys). cbn [for_each]. rewrite Hy, Hys.
    split; [done|]. by constructor.
Qed.

(** The triple that the loop of [generate_landing_range_table] makes of a
    row. *)
Lemma run_triple_Some (landing_range_obj : LandingRange)
    (distance : R -> R -> R) (speed_col dir_col : label) (row : run_row) :
  (forall lat lon, landing_range landing_range_obj lat lon = Ok (distance lat lon)) ->
  complete_row speed_col dir_col row ->
  exists t,
    (wind_speed ← row_get row speed_col;
     wind_dir ← row_get row dir_col;
     landed_lat ← row_get row (Name "landed_latitude");
     landed_lon ← row_get row (Name "landed_longitude");
     lr ← landing_range landing_range_obj landed_lat landed_lon;
     Ok (wind_speed, wind_dir, lr)) = Ok t
    /\ row_get row speed_col = Ok t.1.1
    /\ row_get row dir_col = Ok t.1.2.
Proof.
  intros Hdist (ws & wd & lat & lon & Hws & Hwd & Hlat & Hlon).
  exists (ws, wd, distance lat lon).
  rewrite Hws, Hwd, Hlat, Hlon. cbn [mbind result_bind]. by rewrite Hdist.
Qed.

Lemma run_triples_keys (landing_range_obj : LandingRange)
    (distance : R -> R -> R) (speed_col dir_col : label)
    (rws : list run_row) (ts : list (R * R * R)) :
  (forall lat lon, landing_range landing_range_obj lat lon = Ok (distance lat lon)) ->
  Forall (complete_row speed_col dir_col) rws ->
  Forall2 (fun row t =>
             (wind_speed ← row_get row speed_col;
              wind_dir ← row_get row dir_col;
              landed_lat ← row_get row (Name "landed_latitude");
              landed_lon ← row_get row (Name "landed_longitude");
              lr ← landing_range landing_range_obj landed_lat landed_lon;
              Ok (wind_speed, wind_dir, lr)) = Ok t) rws ts ->
  Forall2 (fun row t => row_get row speed_col = Ok t.1.1
                        /\ row_get row dir_col = Ok t.1.2) rws ts.
Proof.
  intros Hdist Hrows Hall. revert Hrows.
  induction Hall as [|row t rws ts Hrt Hall IH]; intros Hrows; [constructor|].
  apply Forall_cons in Hrows as [Hrow Hrows].
  constructor; [|by apply IH].
  destruct (run_triple_Some landing_range_obj distance _ _ row Hdist Hrow)
    as (t' & Ht' & Hk).
  rewrite Hrt in Ht'. injection Ht' as <-. exact Hk.
Qed.

(** X28.  For a run table with a ground wind speed and a ground wind
    direction column whose rows all hold the four cells that the loop reads,
    and a registered evaluator that returns a distance for every position,
    the landing range table has one row per distinct wind speed and one
    column per distinct wind direction of the runs, both in strictly
    increasing order, and a cell for every pair of them. *)
Theorem generate_landing_range_table_pivot
    (LAUNCH_SITES : registry) (landing_range_script : string)
    (landing_range_obj : LandingRange) (distance : R -> R -> R)
    (simulation_df : run_table) (speed_col dir_col : label)
    (speed_cols dir_cols : list label) :
  LAUNCH_SITES !! landing_range_script = Some landing_range_obj ->
  (forall lat lon, landing_range landing_range_obj lat lon = Ok (distance lat lon)) ->
  tuple_columns "ground_wind_speed" (columns simulation_df)
  = Ok (speed_col :: speed_cols) ->
  tuple_columns "ground_wind_dir" (columns simulation_df)
  = Ok (dir_col :: dir_cols) ->
  rows simulation_df <> [] ->
  Forall (complete_row speed_col dir_col) (rows simulation_df) ->
  exists p : pivot,
    generate_landing_range_table LAUNCH_SITES simulation_df landing_range_script
    = Ok p
    /\ StronglySorted Rlt (pivot_index p)
    /\ StronglySorted Rlt (pivot_columns p)
    /\ (forall s, s ∈ pivot_index p
                  <-> exists row, row ∈ rows simulation_df
                                  /\ row_get row speed_col = Ok s)
    /\ (forall d, d ∈ pivot_columns p
                  <-> exists row, row ∈ rows simulation_df
                                  /\ row_get row dir_col = Ok d)
    /\ length (pivot_cells p) = length (pivot_index p)
    /\ Forall (fun r => length r = length (pivot_columns p)) (pivot_cells p).
Proof.
  intros Hsite Hdist Hspeed Hdir Hne Hrows.
  destruct (for_each_Forall2
              (fun row =>
                 wind_speed ← row_get row speed_col;
                 wind_dir ← row_get row dir_col;
                 landed_lat ← row_get row (Name "landed_latitude");
                 landed_lon ← row_get row (Name "landed_longitude");
                 lr ← landing_range landing_range_obj landed_lat landed_lon;
                 Ok (wind_speed, wind_dir, lr)) (rows simulation_df))
    as (ts & Hts & Hall).
  { eapply Forall_impl; [exact Hrows|]. intros row Hrow.
    destruct (run_triple_Some landing_range_obj distance _ _ row Hdist Hrow)
      as (t & Ht & _). by exists t. }
  assert (Hkeys : Forall2 (fun row t => row_get row speed_col = Ok t.1.1
                                        /\ row_get row dir_col = Ok t.1.2)
                          (rows simulation_df) ts).
  { by apply (run_triples_keys landing_range_obj distance). }
  assert (Hts_ne : ts <> []).
  { intros ->. apply Forall2_nil_inv_r in Hall. done. }
  eexists. split.
  { unfold generate_landing_range_table. rewrite Hsite, Hspeed, Hdir.
    cbn [mbind result_bind]. rewrite Hts. cbn [mbind result_bind].
    unfold pivot_table. destruct ts; [done|]. reflexivity. }
  cbn [pivot_index pivot_columns pivot_cells].
  split; [apply sorted_NoDup_strict, NoDup_remove_dups|].
  split; [apply sorted_NoDup_strict, NoDup_remove_dups|].
  split; [|split; [|split]].
  - intros s. rewrite sorted_perm, elem_of_remove_dups, list_elem_of_fmap.
    split.
    + intros (t & -> & Ht).
      apply list_elem_of_lookup_1 in Ht as [k Hk].
      destruct (Forall2_lookup_r _ _ _ _ _ Hkeys Hk) as (row & Hrow & Hs & _).
      exists row. split; [by eapply list_elem_of_lookup_2|done].
    + intros (row & Hrow & Hs).
      apply list_elem_of_lookup_1 in Hrow as [k Hk].
      destruct (Forall2_lookup_l _ _ _ _ _ Hkeys Hk) as (t & Ht & Hs' & _).
      exists t. split; [|by eapply list_elem_of_lookup_2].
      rewrite Hs in Hs'. by injection Hs'.
  - intros d. rewrite sorted_perm, elem_of_remove_dups, list_elem_of_fmap.
    split.
    + intros (t & -> & Ht).
      apply list_elem_of_lookup_1 in Ht as [k Hk].
      destruct (Forall2_lookup_r _ _ _ _ _ Hkeys Hk) as (row & Hrow & _ & Hd).
      exists row. split; [by eapply list_elem_of_lookup_2|done].
    + intros (row & Hrow & Hd).
      apply list_elem_of_lookup_1 in Hrow as [k Hk].
      destruct (Forall2_lookup_l _ _ _ _ _ Hkeys Hk) as (t & Ht & _ & Hd').
      exists t. split; [|by eapply list_elem_of_lookup_2].
      rewrite Hd in Hd'. by injection Hd'.
  - by rewrite length_map.
  - apply Forall_fmap, Forall_forall. intros s _. simpl. by rewrite length_map.
Qed.

Lemma generate_landing_range_table_pivot_witness :
  exists p : pivot,
    generate_landing_range_table one_site two_runs "noshiro_sea" = Ok p
    /\ StronglySorted Rlt (pivot_index p)
    /\ StronglySorted Rlt (pivot_columns p)
    /\ (forall s, s ∈ pivot_index p
                  <-> exists row, row ∈ rows two_runs
                                  /\ row_get row wind_speed_col = Ok s)
    /\ (forall d, d ∈ pivot_columns p
                  <-> exists row, row ∈ rows two_runs
                                  /\ row_get row wind_dir_col = Ok d)
    /\ length (pivot_cells p) = length (pivot_index p)
    /\ Forall (fun r => length r = length (pivot_columns p)) (pivot_cells p).
Proof.
  apply (generate_landing_range_table_pivot one_site "noshiro_sea" NoshiroSea
           NoshiroSea_landing_range two_runs wind_speed_col wind_dir_col [] []).
  - apply lookup_singleton_eq.
  - reflexivity.
  - vm_compute. reflexivity.
  - vm_compute. reflexivity.
  - discriminate.
  - unfold two_runs, complete_row, wind_speed_col, wind_dir_col. cbn [rows].
    repeat (apply Forall_cons; split; [by eexists _, _, _, _|]).
    by apply Forall_nil.
Defined.

(** X29.  With both ground wind columns and a registered evaluator but no
    runs, the landing range table raises [KeyError]: the frame built from
    no rows has no column to pivot on. *)
Theorem generate_landing_range_table_no_runs
    (LAUNCH_SITES : registry) (landing_range_script : string)
    (landing_range_obj : LandingRange) (simulation_df : run_table)
    (speed_col dir_col : label) (speed_cols dir_cols : list label) :
  LAUNCH_SITES !! landing_range_script = Some landing_range_obj ->
  tuple_columns "ground_wind_speed" (columns simulation_df)
  = Ok (speed_col :: speed_cols) ->
  tuple_columns "ground_wind_dir" (columns simulation_df)
  = Ok (dir_col :: dir_cols) ->
  rows simulation_df = [] ->
  generate_landing_range_table LAUNCH_SITES simulation_df landing_range_script
  = Raise KeyError.
Proof.
  intros Hsite Hspeed Hdir Hrows.
  unfold generate_landing_range_table.
  by rewrite Hsite, Hspeed, Hdir, Hrows.
Qed.

Lemma generate_landing_range_table_no_runs_witness :
  generate_landing_range_table one_site
    {| columns := columns two_runs; rows := [] |} "noshiro_sea"
  = Raise KeyError.
Proof.
  apply (generate_landing_range_table_no_runs one_site "noshiro_sea" NoshiroSea
           _ wind_speed_col wind_dir_col [] []).
  - apply lookup_singleton_eq.
  - vm_compute. reflexivity.
  - vm_compute. reflexivity.
  - reflexivity.
Defined.

End SummarizeFacts.
